(** * Website heartbeat monitor: incident tracking, probe evaluation,
      configuration checks and credential handling

    A shallow embedding of [heartbeat_monitor.py], of the test script
    [test_gmail.py] and of [fix_token_timezone.py]; the properties the
    specification states about the monitor, and further properties of the
    code of the three files. *)

From Stdlib Require Import ZArith List String Ascii Bool Lia DecimalString Floats.
Import ListNotations.
Set Warnings "-register-all".
Open Scope string_scope.
Open Scope Z_scope.

(** ** Incident tracker: the counters of [HeartbeatMonitor] and [run_check] *)

Module Tracker.
Section WithTimestamp.

(** What [datetime.now()] returns; the tracker only stores it. *)
Context {timestamp : Type}.

(** The three attributes of [HeartbeatMonitor] that [run_check] touches. *)
Record state : Type := mk_state {
  last_check_time : option timestamp;
  consecutive_failures : Z;
  last_alert_sent : bool
}.

(** [__init__]: no check yet, zero failures, latch clear. *)
Definition init : state :=
  {| last_check_time := None; consecutive_failures := 0; last_alert_sent := false |}.

(** The one effect of [run_check] outside the counters: the call
    [self.send_alert_email(error_message)], which reads the failure count
    and the check time from [self]. *)
Inductive action : Type :=
| NoAction
| SendAlert (error_message : option string) (failures : Z) (check_time : timestamp).

Definition is_alert (a : action) : bool :=
  match a with NoAction => false | SendAlert _ _ _ => true end.

(** One tick: the clock reading and what [check_website] returned. *)
Definition tick : Type := timestamp * (bool * option string).

Definition unhealthy (tk : tick) : Prop := fst (snd tk) = false.
Definition healthy (tk : tick) : Prop := fst (snd tk) = true.

(** [run_check], with [max_failures] standing for
    [self.config.get('max_consecutive_failures', self.max_consecutive_failures)].
    The Python function returns [is_healthy] unchanged; the embedding returns
    the new attributes and the action instead. *)
Definition run_check (max_failures : Z) (tk : tick) (self : state) : state * action :=
  let '(now, (is_healthy, error_message)) := tk in
  if is_healthy then
    ({| last_check_time := Some now;
        consecutive_failures := 0;
        last_alert_sent := false |}, NoAction)
  else
    let failures := consecutive_failures self + 1 in
    if (max_failures <=? failures) && negb (last_alert_sent self) then
      ({| last_check_time := Some now;
          consecutive_failures := failures;
          last_alert_sent := true |}, SendAlert error_message failures now)
    else
      ({| last_check_time := Some now;
          consecutive_failures := failures;
          last_alert_sent := last_alert_sent self |}, NoAction).

(** The scheduling loop of [run], unrolled over a finite list of ticks:
    the state after each tick and the action that tick produced. *)
Fixpoint run_checks (max_failures : Z) (ticks : list tick) (self : state)
  : list (state * action) :=
  match ticks with
  | [] => []
  | tk :: rest =>
      let r := run_check max_failures tk self in
      r :: run_checks max_failures rest (fst r)
  end.

Definition final_state (max_failures : Z) (ticks : list tick) (self : state) : state :=
  fold_left (fun s tk => fst (run_check max_failures tk s)) ticks self.

Definition count_alerts (out : list (state * action)) : nat :=
  List.length (filter (fun r => is_alert (snd r)) out).

(** States the loop can be in, starting from [init]. *)
Inductive reachable (max_failures : Z) : state -> Prop :=
| reach_init : reachable max_failures init
| reach_step s tk :
    reachable max_failures s ->
    reachable max_failures (fst (run_check max_failures tk s)).

(** The latch is set only while the count is at or above the threshold. *)
Definition latch_inv (max_failures : Z) (s : state) : Prop :=
  last_alert_sent s = true -> max_failures <= consecutive_failures s.

(** Two states that differ at most in the time of the last check. *)
Definition same_counters (s1 s2 : state) : Prop :=
  consecutive_failures s1 = consecutive_failures s2 /\
  last_alert_sent s1 = last_alert_sent s2.

End WithTimestamp.
Arguments state : clear implicits.
Arguments action : clear implicits.
Arguments tick : clear implicits.
End Tracker.

(** ** The Python values and control flow the monitor relies on *)

Module Py.

(** *** Strings *)

(** [str(n)] for an [int]. *)
Definition string_of_Z (z : Z) : string := NilZero.string_of_int (Z.to_int z).

(** [needle in hay]. *)
Fixpoint str_in (needle hay : string) : bool :=
  match hay with
  | EmptyString => prefix needle hay
  | String _ rest => prefix needle hay || str_in needle rest
  end.

(** [s.endswith(suffix)]. *)
Fixpoint endswith (suffix s : string) : bool :=
  match s with
  | EmptyString => String.eqb suffix s
  | String _ rest => String.eqb suffix s || endswith suffix rest
  end.

(** [s[:-1]]. *)
Fixpoint drop_last (s : string) : string :=
  match s with
  | EmptyString => EmptyString
  | String c EmptyString => EmptyString
  | String c rest => String c (drop_last rest)
  end.

(** [s.replace(old, new)] for a non-empty [old]: occurrences are replaced from
    the left and do not overlap. [skip] counts the characters of an occurrence
    that was just replaced and are still to be passed over. *)
Fixpoint replace_from (old new : string) (skip : nat) (s : string) : string :=
  match s with
  | EmptyString => EmptyString
  | String c rest =>
      match skip with
      | S k => replace_from old new k rest
      | O =>
          if prefix old s
          then new ++ replace_from old new (String.length old - 1) rest
          else String c (replace_from old new O rest)
      end
  end.

Definition str_replace (old new s : string) : string := replace_from old new O s.

(** [sep.join(items)]. *)
Fixpoint join (sep : string) (items : list string) : string :=
  match items with
  | [] => EmptyString
  | [x] => x
  | x :: rest => x ++ sep ++ join sep rest
  end.

(** [s.split(sep)[0]] for a one-character [sep]. *)
Fixpoint before_first (sep : ascii) (s : string) : string :=
  match s with
  | EmptyString => EmptyString
  | String c rest => if Ascii.eqb c sep then EmptyString else String c (before_first sep rest)
  end.

(** *** Exceptions *)

(** The exception classes the monitor names or can meet. The classes of
    [requests.exceptions] keep the bases that library declares:
    [ConnectionError], [Timeout], [TooManyRedirects] and [HTTPError] derive
    from [RequestException] (itself an [OSError]); [SSLError] and [ProxyError]
    derive from [ConnectionError]; [ConnectTimeout] derives from both
    [ConnectionError] and [Timeout]; [ReadTimeout] from [Timeout].
    [RefreshError] is google-auth's, [HttpError] googleapiclient's.
    [Subclass] is any further class, given by its name and its base. *)
Inductive exc_class : Type :=
| BaseException | SystemExit | KeyboardInterrupt | Exception
| TypeError | AttributeError | ValueError | OverflowError | OSError
| RequestException | HTTPError | ConnectionError | ProxyError | SSLError
| Timeout | ConnectTimeout | ReadTimeout | TooManyRedirects
| RefreshError | HttpError
| Subclass (name : string) (base : exc_class).

Definition exc_class_eq_dec (a b : exc_class) : {a = b} + {a <> b}.
Proof. decide equality. apply string_dec. Defined.

(** The class itself followed by all its ancestors (its method resolution
    order, without [object]). *)
Fixpoint mro (c : exc_class) : list exc_class :=
  match c with
  | BaseException => [BaseException]
  | SystemExit => [SystemExit; BaseException]
  | KeyboardInterrupt => [KeyboardInterrupt; BaseException]
  | Exception => [Exception; BaseException]
  | TypeError => [TypeError; Exception; BaseException]
  | AttributeError => [AttributeError; Exception; BaseException]
  | ValueError => [ValueError; Exception; BaseException]
  | OverflowError => [OverflowError; Exception; BaseException]
  | OSError => [OSError; Exception; BaseException]
  | RequestException => [RequestException; OSError; Exception; BaseException]
  | HTTPError => [HTTPError; RequestException; OSError; Exception; BaseException]
  | ConnectionError =>
      [ConnectionError; RequestException; OSError; Exception; BaseException]
  | ProxyError =>
      [ProxyError; ConnectionError; RequestException; OSError; Exception; BaseException]
  | SSLError =>
      [SSLError; ConnectionError; RequestException; OSError; Exception; BaseException]
  | Timeout => [Timeout; RequestException; OSError; Exception; BaseException]
  | ConnectTimeout =>
      [ConnectTimeout; ConnectionError; Timeout; RequestException; OSError;
       Exception; BaseException]
  | ReadTimeout =>
      [ReadTimeout; Timeout; RequestException; OSError; Exception; BaseException]
  | TooManyRedirects =>
      [TooManyRedirects; RequestException; OSError; Exception; BaseException]
  | RefreshError => [RefreshError; Exception; BaseException]
  | HttpError => [HttpError; Exception; BaseException]
  | Subclass _ base => c :: mro base
  end.

Definition issubclass (c k : exc_class) : bool :=
  existsb (fun a => if exc_class_eq_dec a k then true else false) (mro c).

(** [type(e).__name__]. *)
Definition class_name (c : exc_class) : string :=
  match c with
  | BaseException => "BaseException" | SystemExit => "SystemExit"
  | KeyboardInterrupt => "KeyboardInterrupt" | Exception => "Exception"
  | TypeError => "TypeError" | AttributeError => "AttributeError"
  | ValueError => "ValueError" | OverflowError => "OverflowError"
  | OSError => "OSError" | RequestException => "RequestException"
  | HTTPError => "HTTPError" | ConnectionError => "ConnectionError"
  | ProxyError => "ProxyError" | SSLError => "SSLError" | Timeout => "Timeout"
  | ConnectTimeout => "ConnectTimeout" | ReadTimeout => "ReadTimeout"
  | TooManyRedirects => "TooManyRedirects" | RefreshError => "RefreshError"
  | HttpError => "HttpError" | Subclass name _ => name
  end.

(** A raised exception: its class and [str(e)]. *)
Record exn : Type := mk_exn { exn_class : exc_class; exn_str : string }.

Definition isinstance (e : exn) (k : exc_class) : bool := issubclass (exn_class e) k.

(** *** Calls that return or raise *)

Inductive outcome (A : Type) : Type :=
| Return (a : A)
| Raise (e : exn).
Arguments Return {A} a.
Arguments Raise {A} e.

Definition bind {A B : Type} (m : outcome A) (k : A -> outcome B) : outcome B :=
  match m with
  | Return a => k a
  | Raise e => Raise e
  end.

Definition returns {A : Type} (m : outcome A) : Prop := exists a, m = Return a.

(** One [except] clause: the classes it names and its body. *)
Definition handler (A : Type) : Type := list exc_class * (exn -> outcome A).

(** The clauses are tried in order; the first whose classes the exception is
    an instance of runs, and what it raises is not caught by its siblings. *)
Fixpoint dispatch {A : Type} (e : exn) (handlers : list (handler A)) : outcome A :=
  match handlers with
  | [] => Raise e
  | (classes, body) :: rest =>
      if existsb (isinstance e) classes then body e else dispatch e rest
  end.

(** [try: body  except ...: ...]. *)
Definition try_except {A : Type} (body : outcome A) (handlers : list (handler A))
  : outcome A :=
  match body with
  | Return a => Return a
  | Raise e => dispatch e handlers
  end.

(** *** What [json.load] returns *)

Inductive json : Type :=
| JNull
| JBool (b : bool)
| JInt (n : Z)
| JFloat (x : float)
| JStr (s : string)
| JList (items : list json)
| JObj (members : list (string * json)).

(** A [dict] with string keys. *)
Definition dict : Type := list (string * json).

Fixpoint dict_lookup (key : string) (d : dict) : option json :=
  match d with
  | [] => None
  | (k, v) :: rest => if String.eqb k key then Some v else dict_lookup key rest
  end.

(** [key in d]. *)
Definition dict_has (key : string) (d : dict) : bool :=
  match dict_lookup key d with Some _ => true | None => false end.

(** [d.get(key, default)]. *)
Definition dict_get (key : string) (default : json) (d : dict) : json :=
  match dict_lookup key d with Some v => v | None => default end.

(** Truth value of a loaded value ([not v] is its negation). *)
Definition truthy (v : json) : bool :=
  match v with
  | JNull => false
  | JBool b => b
  | JInt n => negb (n =? 0)
  | JFloat x => negb (PrimFloat.eqb x 0%float)
  | JStr s => negb (String.eqb s EmptyString)
  | JList items => match items with [] => false | _ => true end
  | JObj members => match members with [] => false | _ => true end
  end.

(** [v == s] for a string literal [s]. *)
Definition eq_str (v : json) (s : string) : bool :=
  match v with JStr t => String.eqb t s | _ => false end.

End Py.

Declare Scope outcome_scope.
Delimit Scope outcome_scope with outcome.
Notation "x <- c1 ;; c2" := (Py.bind c1 (fun x => c2))
  (at level 61, c1 at next level, right associativity) : outcome_scope.

(** ** [datetime]: the calendar, [fromisoformat], [isoformat], conversion to UTC

    The model follows the [datetime] module of the standard library:
    proleptic Gregorian ordinals ([_ymd2ord], [_ord2ymd]), the grammar
    [YYYY-MM-DD[*HH[:MM[:SS[.fff[fff]]]][+HH:MM[:SS[.ffffff]]]]] of
    [fromisoformat] (every string [isoformat] produces is in it), and offsets
    of fixed [timezone] objects. The grammar is the one of Python 3.7 to 3.10,
    where a trailing [Z] is rejected; later versions accept more strings and
    read the strings of this grammar the same way. Offsets and instants are in
    microseconds. *)

Module Datetime.
Import Py.

Record datetime : Type := mk_datetime {
  year : Z; month : Z; day : Z;
  hour : Z; minute : Z; second : Z; microsecond : Z;
  tzinfo : option Z
}.

Definition MAXYEAR : Z := 9999.
Definition MAXORDINAL : Z := 3652059.
Definition DAY_US : Z := 86400 * 1000000.

(** [timezone.utc]. *)
Definition utc : option Z := Some 0.

(** *** The calendar *)

Definition is_leap (y : Z) : bool :=
  (y mod 4 =? 0) && (negb (y mod 100 =? 0) || (y mod 400 =? 0)).

Definition days_before_year (year : Z) : Z :=
  let y := year - 1 in y * 365 + y / 4 - y / 100 + y / 400.

Definition DAYS_IN_MONTH (m : Z) : Z :=
  match m with
  | 1 => 31 | 2 => 28 | 3 => 31 | 4 => 30 | 5 => 31 | 6 => 30
  | 7 => 31 | 8 => 31 | 9 => 30 | 10 => 31 | 11 => 30 | 12 => 31
  | _ => -1
  end.

Definition DAYS_BEFORE_MONTH (m : Z) : Z :=
  match m with
  | 1 => 0 | 2 => 31 | 3 => 59 | 4 => 90 | 5 => 120 | 6 => 151
  | 7 => 181 | 8 => 212 | 9 => 243 | 10 => 273 | 11 => 304 | 12 => 334
  | _ => -1
  end.

Definition days_in_month (year m : Z) : Z :=
  if (m =? 2) && is_leap year then 29 else DAYS_IN_MONTH m.

Definition days_before_month (year m : Z) : Z :=
  DAYS_BEFORE_MONTH m + (if (2 <? m) && is_leap year then 1 else 0).

(** [_ymd2ord]: 0001-01-01 is day 1. *)
Definition ymd2ord (year m d : Z) : Z :=
  days_before_year year + days_before_month year m + d.

Definition DI400Y : Z := 146097.
Definition DI100Y : Z := 36524.
Definition DI4Y : Z := 1461.

(** [_ord2ymd]. *)
Definition ord2ymd (ordinal : Z) : Z * Z * Z :=
  let n := ordinal - 1 in
  let n400 := n / DI400Y in
  let n := n mod DI400Y in
  let year := n400 * 400 + 1 in
  let n100 := n / DI100Y in
  let n := n mod DI100Y in
  let n4 := n / DI4Y in
  let n := n mod DI4Y in
  let n1 := n / 365 in
  let n := n mod 365 in
  let year := year + n100 * 100 + n4 * 4 + n1 in
  if (n1 =? 4) || (n100 =? 4) then (year - 1, 12, 31)
  else
    let leapyear := (n1 =? 3) && (negb (n4 =? 24) || (n100 =? 3)) in
    let m := Z.shiftr (n + 50) 5 in
    let preceding := DAYS_BEFORE_MONTH m + (if (2 <? m) && leapyear then 1 else 0) in
    if n <? preceding then
      let m := m - 1 in
      let preceding :=
        preceding - (DAYS_IN_MONTH m + (if (m =? 2) && leapyear then 1 else 0)) in
      (year, m, n - preceding + 1)
    else (year, m, n - preceding + 1).

(** *** Field checks of the constructors *)

Definition check_date_fields (y m d : Z) : bool :=
  (1 <=? y) && (y <=? MAXYEAR) && (1 <=? m) && (m <=? 12)
  && (1 <=? d) && (d <=? days_in_month y m).

Definition check_time_fields (h mi s us : Z) : bool :=
  (0 <=? h) && (h <=? 23) && (0 <=? mi) && (mi <=? 59)
  && (0 <=? s) && (s <=? 59) && (0 <=? us) && (us <=? 999999).

(** A [timezone] offset lies strictly between -24 h and 24 h. *)
Definition check_offset (off : Z) : bool := (- DAY_US <? off) && (off <? DAY_US).

Definition well_formed (dt : datetime) : bool :=
  check_date_fields (year dt) (month dt) (day dt)
  && check_time_fields (hour dt) (minute dt) (second dt) (microsecond dt)
  && match tzinfo dt with None => true | Some off => check_offset off end.

(** *** Arithmetic *)

Definition us_of_day (dt : datetime) : Z :=
  ((hour dt * 60 + minute dt) * 60 + second dt) * 1000000 + microsecond dt.

Definition toordinal (dt : datetime) : Z := ymd2ord (year dt) (month dt) (day dt).

(** The instant an aware [datetime] denotes, in microseconds since the start
    of day 0, on the UTC scale; a naive one is read as UTC. *)
Definition instant (dt : datetime) : Z :=
  toordinal dt * DAY_US + us_of_day dt
  - match tzinfo dt with Some off => off | None => 0 end.

(** [dt + timedelta(microseconds=delta)]; the [tzinfo] is kept. *)
Definition add_timedelta (dt : datetime) (delta : Z) : outcome datetime :=
  let total := toordinal dt * DAY_US + us_of_day dt + delta in
  let days := total / DAY_US in
  let rest := total mod DAY_US in
  if (0 <? days) && (days <=? MAXORDINAL) then
    let '(y, m, d) := ord2ymd days in
    let secs := rest / 1000000 in
    Return {| year := y; month := m; day := d;
              hour := secs / 3600; minute := (secs mod 3600) / 60;
              second := secs mod 60; microsecond := rest mod 1000000;
              tzinfo := tzinfo dt |}
  else Raise (mk_exn OverflowError "date value out of range").

(** [dt.replace(tzinfo=tz)]. *)
Definition replace_tzinfo (dt : datetime) (tz : option Z) : datetime :=
  {| year := year dt; month := month dt; day := day dt;
     hour := hour dt; minute := minute dt; second := second dt;
     microsecond := microsecond dt; tzinfo := tz |}.

(** [dt.astimezone(timezone.utc)] for an aware [dt] with offset [off]: the
    object itself when its zone is already [timezone.utc], else the same
    instant with the offset taken off. *)
Definition astimezone_utc (dt : datetime) (off : Z) : outcome datetime :=
  if off =? 0 then Return dt
  else bind (add_timedelta dt (- off)) (fun shifted => Return (replace_tzinfo shifted utc)).

(** The idiom of the monitor:
    [d.replace(tzinfo=timezone.utc) if d.tzinfo is None else d.astimezone(timezone.utc)]. *)
Definition to_utc (dt : datetime) : outcome datetime :=
  match tzinfo dt with
  | None => Return (replace_tzinfo dt utc)
  | Some off => astimezone_utc dt off
  end.

(** *** Printing *)

Definition digit_char (d : Z) : ascii := ascii_of_nat (48 + Z.to_nat d).

(** The last [k] decimal digits of [n], most significant first. *)
Fixpoint digits_of (k : nat) (n : Z) : string :=
  match k with
  | O => EmptyString
  | S k' => digits_of k' (n / 10) ++ String (digit_char (n mod 10)) EmptyString
  end.

(** ["%0kd" % n]. *)
Definition fmt_d (k : nat) (n : Z) : string :=
  if n <? 0 then
    (if - n <? 10 ^ Z.of_nat (k - 1) then "-" ++ digits_of (k - 1) (- n) else string_of_Z n)
  else if n <? 10 ^ Z.of_nat k then digits_of k n else string_of_Z n.

(** [_format_offset]. *)
Definition format_offset (tz : option Z) : string :=
  match tz with
  | None => EmptyString
  | Some off =>
      let sign := if off <? 0 then "-" else "+" in
      let a := Z.abs off in
      let hh := a / 3600000000 in
      let r := a mod 3600000000 in
      let mm := r / 60000000 in
      let ss := r mod 60000000 in
      sign ++ fmt_d 2 hh ++ ":" ++ fmt_d 2 mm
      ++ (if ss =? 0 then EmptyString
          else ":" ++ fmt_d 2 (ss / 1000000)
               ++ (if ss mod 1000000 =? 0 then EmptyString
                   else "." ++ fmt_d 6 (ss mod 1000000)))
  end.

(** [dt.isoformat()]. *)
Definition isoformat (dt : datetime) : string :=
  fmt_d 4 (year dt) ++ "-" ++ fmt_d 2 (month dt) ++ "-" ++ fmt_d 2 (day dt)
  ++ "T" ++ fmt_d 2 (hour dt) ++ ":" ++ fmt_d 2 (minute dt) ++ ":" ++ fmt_d 2 (second dt)
  ++ (if microsecond dt =? 0 then EmptyString else "." ++ fmt_d 6 (microsecond dt))
  ++ format_offset (tzinfo dt).

(** *** Parsing *)

Definition digit_val (c : ascii) : option Z :=
  let n := Z.of_nat (nat_of_ascii c) in
  if (48 <=? n) && (n <=? 57) then Some (n - 48) else None.

(** Reads exactly [k] decimal digits from the front of [s]; [acc] is the value
    read so far. *)
Fixpoint take_digits_from (k : nat) (acc : Z) (s : string) : option (Z * string) :=
  match k with
  | O => Some (acc, s)
  | S k' =>
      match s with
      | EmptyString => None
      | String c rest =>
          match digit_val c with
          | Some d => take_digits_from k' (acc * 10 + d) rest
          | None => None
          end
      end
  end.

Definition take_digits (k : nat) (s : string) : option (Z * string) :=
  take_digits_from k 0 s.

(** [_parse_hh_mm_ss_ff]: [HH[:MM[:SS[.fff[fff]]]]], the whole of [tstr]. *)
Definition parse_hh_mm_ss_ff (tstr : string) : option (Z * Z * Z * Z) :=
  match take_digits 2 tstr with
  | None => None
  | Some (hh, EmptyString) => Some (hh, 0, 0, 0)
  | Some (hh, String c1 r1) =>
      if negb (Ascii.eqb c1 ":") then None else
      match take_digits 2 r1 with
      | None => None
      | Some (mi, EmptyString) => Some (hh, mi, 0, 0)
      | Some (mi, String c2 r2) =>
          if negb (Ascii.eqb c2 ":") then None else
          match take_digits 2 r2 with
          | None => None
          | Some (ss, EmptyString) => Some (hh, mi, ss, 0)
          | Some (ss, String c3 frac) =>
              if negb (Ascii.eqb c3 ".") then None else
              match String.length frac with
              | 3%nat =>
                  match take_digits 3 frac with
                  | Some (ms, _) => Some (hh, mi, ss, ms * 1000)
                  | None => None
                  end
              | 6%nat =>
                  match take_digits 6 frac with
                  | Some (us, _) => Some (hh, mi, ss, us)
                  | None => None
                  end
              | _ => None
              end
          end
      end
  end.

(** The text before and after the first [c] in [s]. *)
Fixpoint split_first (c : ascii) (s : string) : option (string * string) :=
  match s with
  | EmptyString => None
  | String a rest =>
      if Ascii.eqb a c then Some (EmptyString, rest)
      else match split_first c rest with
           | Some (before, after) => Some (String a before, after)
           | None => None
           end
  end.

(** [_parse_isoformat_time]: the time of day and the zone. The zone starts at
    the first ["-"], or at the first ["+"] when there is no ["-"]. *)
Definition parse_isoformat_time (tstr : string) : option (Z * Z * Z * Z * option Z) :=
  if (String.length tstr <? 2)%nat then None else
  let parts :=
    match split_first "-" tstr with
    | Some (timestr, tzstr) => (timestr, Some (-1, tzstr))
    | None =>
        match split_first "+" tstr with
        | Some (timestr, tzstr) => (timestr, Some (1, tzstr))
        | None => (tstr, None)
        end
    end in
  match parse_hh_mm_ss_ff (fst parts) with
  | None => None
  | Some (hh, mi, ss, us) =>
      match snd parts with
      | None => Some (hh, mi, ss, us, None)
      | Some (tzsign, tzstr) =>
          let len := String.length tzstr in
          if negb ((len =? 5)%nat || (len =? 8)%nat || (len =? 15)%nat) then None else
          match parse_hh_mm_ss_ff tzstr with
          | None => None
          | Some (th, tm, ts, tus) =>
              let off := tzsign * (((th * 60 + tm) * 60 + ts) * 1000000 + tus) in
              if check_offset off then Some (hh, mi, ss, us, Some off) else None
          end
      end
  end.

Definition invalid_isoformat {A : Type} (date_string : string) : outcome A :=
  Raise (mk_exn ValueError ("Invalid isoformat string: '" ++ date_string ++ "'")).

(** [datetime.fromisoformat(date_string)]. *)
Definition fromisoformat (date_string : string) : outcome datetime :=
  match take_digits 4 date_string with
  | Some (y, String "-" r1) =>
      match take_digits 2 r1 with
      | Some (m, String "-" r2) =>
          match take_digits 2 r2 with
          | Some (d, r3) =>
              let time :=
                match r3 with
                | EmptyString => Some (0, 0, 0, 0, None)
                | String _ EmptyString => Some (0, 0, 0, 0, None)
                | String _ tstr => parse_isoformat_time tstr
                end in
              match time with
              | Some (hh, mi, ss, us, tz) =>
                  if check_date_fields y m d && check_time_fields hh mi ss us then
                    Return {| year := y; month := m; day := d;
                              hour := hh; minute := mi; second := ss;
                              microsecond := us; tzinfo := tz |}
                  else invalid_isoformat date_string
              | None => invalid_isoformat date_string
              end
          | None => invalid_isoformat date_string
          end
      | _ => invalid_isoformat date_string
      end
  | _ => invalid_isoformat date_string
  end.

End Datetime.

(** ** Probe evaluator: [check_website] *)

Module Probe.
Import Py.
Local Open Scope outcome_scope.

Definition WEBSITE_URL : string := "https://c2smart.engineering.nyu.edu/".
Definition CHECK_INTERVAL : Z := 10 * 60.
Definition TIMEOUT : Z := 30.

(** What the monitor reads of a [requests.Response]: [status_code] and [text].
    [len(response.text)] is [String.length text]. *)
Record response : Type := mk_response { status_code : Z; text : string }.

(** Lines 276-283: the verdict on a response that arrived. *)
Definition classify (r : response) : bool * option string :=
  if status_code r =? 200 then
    if str_in "C2SMART" (text r) || (1000 <? Z.of_nat (String.length (text r))) then
      (true, None)
    else
      (false,
       Some ("Website response abnormal: incomplete content (status code: "
             ++ string_of_Z (status_code r) ++ ", content length: "
             ++ string_of_Z (Z.of_nat (String.length (text r))) ++ " bytes)"))
  else
    (false,
     Some ("Website returned error status code: " ++ string_of_Z (status_code r)
           ++ " (URL: " ++ WEBSITE_URL ++ ")")).

Section CheckWebsite.

(** How an f-string renders a value of the configuration ([str(v)]). *)
Variable str_json : json -> string.

(** The reasons of the [except] clauses, one definition per clause. *)
Definition timeout_reason (config : dict) : string :=
  let timeout_val := dict_get "timeout" (JInt TIMEOUT) config in
  "Request timeout after " ++ str_json timeout_val
  ++ " seconds. The server did not respond in time. (URL: " ++ WEBSITE_URL ++ ")".

Definition dns_reason : string :=
  "DNS resolution failed: Unable to resolve domain name for " ++ WEBSITE_URL
  ++ ". The domain may not exist or DNS server is unreachable.".

Definition refused_reason : string :=
  "Connection refused: The server at " ++ WEBSITE_URL
  ++ " is not accepting connections. The server may be down or the port is blocked.".

Definition connection_reason (error_detail : string) : string :=
  "Connection error: Unable to connect to server at " ++ WEBSITE_URL
  ++ ". Details: " ++ error_detail.

Definition ssl_reason (detail : string) : string :=
  "SSL/TLS error: Certificate verification failed or SSL handshake error. Details: "
  ++ detail.

Definition redirects_reason : string :=
  "Too many redirects: The website redirected too many times. "
  ++ "This may indicate a redirect loop. (URL: " ++ WEBSITE_URL ++ ")".

Definition request_exception_reason (e : exn) : string :=
  "Request exception: " ++ class_name (exn_class e) ++ " - " ++ exn_str e
  ++ " (URL: " ++ WEBSITE_URL ++ ")".

Definition unknown_reason (e : exn) : string :=
  "Unknown error: " ++ class_name (exn_class e) ++ " - " ++ exn_str e
  ++ " (URL: " ++ WEBSITE_URL ++ ")".

(** [check_website]. [get] is what the call [requests.get(WEBSITE_URL, ...)]
    does on this tick: it returns a response or raises. The [except] clauses
    are in the order of the source. *)
Definition check_website (config : dict) (get : outcome response)
  : outcome (bool * option string) :=
  try_except
    (response <- get ;; Return (classify response))
    [ ([Timeout], fun e => Return (false, Some (timeout_reason config)));
      ([ConnectionError], fun e =>
         let error_detail := exn_str e in
         if str_in "Name or service not known" error_detail
            || str_in "nodename nor servname provided" error_detail
         then Return (false, Some dns_reason)
         else if str_in "Connection refused" error_detail
         then Return (false, Some refused_reason)
         else Return (false, Some (connection_reason error_detail)));
      ([SSLError], fun e => Return (false, Some (ssl_reason (exn_str e))));
      ([TooManyRedirects], fun e => Return (false, Some redirects_reason));
      ([RequestException], fun e => Return (false, Some (request_exception_reason e)));
      ([Exception], fun e => Return (false, Some (unknown_reason e))) ].

End CheckWebsite.


End Probe.

(** ** The credential object and its validity test *)

Module Credential.
Import Py Datetime.
Local Open Scope outcome_scope.

Definition SCOPES : json := JList [JStr "https://www.googleapis.com/auth/gmail.send"].

(** The attributes of [google.oauth2.credentials.Credentials] the monitor sets
    and reads. A missing entry of the token file is [None], here [JNull]. *)
Record credentials : Type := mk_credentials {
  token : json;
  refresh_token : json;
  token_uri : json;
  client_id : json;
  client_secret : json;
  scopes : json;
  expiry : option datetime
}.

(** [Credentials(token=token_data.get('token'), ...)]; no expiry yet. *)
Definition from_token_data (token_data : dict) : credentials :=
  {| token := dict_get "token" JNull token_data;
     refresh_token := dict_get "refresh_token" JNull token_data;
     token_uri := dict_get "token_uri" JNull token_data;
     client_id := dict_get "client_id" JNull token_data;
     client_secret := dict_get "client_secret" JNull token_data;
     scopes := dict_get "scopes" SCOPES token_data;
     expiry := None |}.

Definition set_expiry (c : credentials) (e : option datetime) : credentials :=
  {| token := token c; refresh_token := refresh_token c; token_uri := token_uri c;
     client_id := client_id c; client_secret := client_secret c;
     scopes := scopes c; expiry := e |}.

(** [a >= b] on [datetime] objects: naive ones compare field by field, aware
    ones by instant, and one of each raises [TypeError]. For well-formed naive
    values the order of the fields is the order of [instant]. *)
Definition datetime_ge (a b : datetime) : outcome bool :=
  match tzinfo a, tzinfo b with
  | None, None => Return (instant b <=? instant a)
  | Some _, Some _ => Return (instant b <=? instant a)
  | _, _ => Raise (mk_exn TypeError
                     "can't compare offset-naive and offset-aware datetimes")
  end.

(** The two readings google-auth takes of its surroundings: the clock
    ([_helpers.utcnow()], which that library returns as a naive [datetime] in
    UTC) and the margin it takes off the expiry ([_helpers.REFRESH_THRESHOLD],
    a non-negative [timedelta], here in microseconds). *)
Record library : Type := mk_library {
  utcnow : datetime;
  refresh_threshold : Z
}.

(** [Credentials.expired]:
    [if not self.expiry: return False];
    [skewed_expiry = self.expiry - REFRESH_THRESHOLD];
    [return utcnow() >= skewed_expiry]. *)
Definition expired (lib : library) (c : credentials) : outcome bool :=
  match expiry c with
  | None => Return false
  | Some e =>
      skewed_expiry <- add_timedelta e (- refresh_threshold lib) ;;
      datetime_ge (utcnow lib) skewed_expiry
  end.

(** [Credentials.valid]: [self.token is not None and not self.expired]. *)
Definition valid (lib : library) (c : credentials) : outcome bool :=
  match token c with
  | JNull => Return false
  | _ => is_expired <- expired lib c ;; Return (negb is_expired)
  end.

(** Lines 137-144 of [heartbeat_monitor.py] (79-86 of [test_gmail.py], 33-49 of
    [fix_token_timezone.py]): the stored expiry as an aware [datetime] in UTC.
    A stored value that is not a string has no [endswith]. *)
Definition load_expiry (stored : json) : outcome datetime :=
  match stored with
  | JStr expiry_str =>
      let expiry_str :=
        if endswith "Z" expiry_str then (drop_last expiry_str ++ "+00:00")%string
        else expiry_str in
      expiry_dt <- fromisoformat expiry_str ;;
      to_utc expiry_dt
  | _ => Raise (mk_exn AttributeError "object has no attribute 'endswith'")
  end.

(** [expiry_dt.isoformat().replace('+00:00', 'Z')]. *)
Definition zulu_string (expiry_dt : datetime) : string :=
  str_replace "+00:00" "Z" (isoformat expiry_dt).

(** Lines 163-166: the expiry string that goes into the token file. *)
Definition save_expiry (e : option datetime) : outcome json :=
  match e with
  | None => Return JNull
  | Some d => expiry_dt <- to_utc d ;; Return (JStr (zulu_string expiry_dt))
  end.

(** Lines 32-54 of [fix_token_timezone.py]: stored string to stored string. *)
Definition fix_expiry (stored : json) : outcome json :=
  expiry_dt <- load_expiry stored ;; Return (JStr (zulu_string expiry_dt)).

(** Lines 135-155: the credential as loaded, and the verdict on it. The
    [try] around the expiry swallows every [Exception] and leaves the expiry
    unset; the [try] around [creds.valid] turns [TypeError] and
    [AttributeError] into "not valid". *)
Definition with_stored_expiry (token_data : dict) (creds : credentials) : outcome credentials :=
  if dict_has "expiry" token_data && truthy (dict_get "expiry" JNull token_data) then
    try_except
      (expiry_dt <- load_expiry (dict_get "expiry" JNull token_data) ;;
       Return (set_expiry creds (Some expiry_dt)))
      [ ([Exception], fun _ => Return creds) ]
  else Return creds.

Definition is_valid (lib : library) (creds : credentials) : outcome bool :=
  try_except (valid lib creds)
    [ ([TypeError; AttributeError], fun _ => Return false) ].

(** Lines 168-178: the document written back after a refresh. *)
Definition token_document (creds : credentials) (expiry_str : json) : json :=
  JObj [ ("token", token creds);
         ("refresh_token", refresh_token creds);
         ("token_uri", token_uri creds);
         ("client_id", client_id creds);
         ("client_secret", client_secret creds);
         ("scopes", scopes creds);
         ("universe_domain", JStr "googleapis.com");
         ("account", JStr "");
         ("expiry", expiry_str) ].

End Credential.

(** ** Files, the outside world and the trace of effects

    The effectful code is embedded in a state-and-exception monad over a
    [world]. Calls to the logger are left out throughout: they change neither
    what a function returns or raises nor what it writes or sends. *)

Module World.
Import Py.

(** A file holds a JSON document (what [json.dump] wrote and [json.load]
    returns) or text that [json.load] rejects. *)
Inductive file_content : Type :=
| Json (v : json)
| Text (s : string).

(** The message handed to the Gmail API: the headers [send_email] sets and the
    plain-text part it attaches. *)
Record message : Type := mk_message {
  msg_to : string;
  msg_from : string;
  msg_subject : string;
  msg_body : string
}.

(** The object [build('gmail', 'v1', credentials=creds)] returns: it sends
    with the credentials it was built from. *)
Record service : Type := mk_service { service_credentials : Credential.credentials }.

(** The attributes of the [HeartbeatMonitor] object. *)
Record monitor : Type := mk_monitor {
  config : dict;
  gmail_service : option service;
  counters : Tracker.state Datetime.datetime
}.

(** The object before [__init__] has filled it in. *)
Definition blank_monitor : monitor :=
  {| config := []; gmail_service := None; counters := Tracker.init |}.

(** What a run does to the outside, in order. *)
Inductive event : Type :=
| Printed (line : string)
| FileWritten (name : string) (content : file_content)
| RefreshRequested (creds : Credential.credentials)
| ServiceBuilt (creds : Credential.credentials)
| MessageSubmitted (via : service) (msg : message)
| Slept (seconds : json).

(** The files, the names that cannot be opened for writing, what has happened
    so far, and the monitor object (Python's [self], which every method
    mutates in place). *)
Record world : Type := mk_world {
  files : list (string * file_content);
  unwritable : list string;
  trace : list event;
  self : monitor
}.

(** A computation: it may change the world, and it returns or raises. What it
    did before raising stays done. *)
Definition M (A : Type) : Type := world -> outcome A * world.

Definition ret {A : Type} (a : A) : M A := fun w => (Return a, w).
Definition raise {A : Type} (e : exn) : M A := fun w => (Raise e, w).
Definition lift {A : Type} (o : outcome A) : M A := fun w => (o, w).

Definition bindM {A B : Type} (m : M A) (k : A -> M B) : M B :=
  fun w =>
    match m w with
    | (Return a, w') => k a w'
    | (Raise e, w') => (Raise e, w')
    end.

Definition handlerM (A : Type) : Type := list exc_class * (exn -> M A).

Fixpoint dispatchM {A : Type} (e : exn) (handlers : list (handlerM A)) : M A :=
  match handlers with
  | [] => raise e
  | (classes, body) :: rest =>
      if existsb (isinstance e) classes then body e else dispatchM e rest
  end.

Definition try_exceptM {A : Type} (body : M A) (handlers : list (handlerM A)) : M A :=
  fun w =>
    match body w with
    | (Return a, w') => (Return a, w')
    | (Raise e, w') => dispatchM e handlers w'
    end.

Definition emit (ev : event) : M unit :=
  fun w => (Return tt,
            {| files := files w; unwritable := unwritable w;
               trace := trace w ++ [ev]; self := self w |}).

Definition get_self : M monitor := fun w => (Return (self w), w).

Definition put_self (m : monitor) : M unit :=
  fun w => (Return tt,
            {| files := files w; unwritable := unwritable w;
               trace := trace w; self := m |}).

(** [self.gmail_service = s]. *)
Definition set_gmail_service (s : option service) : M unit :=
  fun w => put_self {| config := config (self w); gmail_service := s;
                       counters := counters (self w) |} w.

(** Assignment to the three counters. *)
Definition set_counters (c : Tracker.state Datetime.datetime) : M unit :=
  fun w => put_self {| config := config (self w); gmail_service := gmail_service (self w);
                       counters := c |} w.

Definition print (line : string) : M unit := emit (Printed line).

Fixpoint lookup_file (name : string) (fs : list (string * file_content))
  : option file_content :=
  match fs with
  | [] => None
  | (n, c) :: rest => if String.eqb n name then Some c else lookup_file name rest
  end.

(** [os.path.exists(name)]. *)
Definition path_exists (name : string) : M bool :=
  fun w => (Return (match lookup_file name (files w) with Some _ => true | None => false end), w).

(** [with open(name, 'r') as f: json.load(f)]. *)
Definition json_load (name : string) : M json :=
  fun w =>
    match lookup_file name (files w) with
    | Some (Json v) => (Return v, w)
    | Some (Text _) => (Raise (mk_exn (Subclass "JSONDecodeError" ValueError)
                                 "Expecting value: line 1 column 1 (char 0)"), w)
    | None => (Raise (mk_exn (Subclass "FileNotFoundError" OSError)
                        ("[Errno 2] No such file or directory: '" ++ name ++ "'")), w)
    end.

(** [with open(name, 'w') as f: json.dump(v, f, ...)]: the file then holds
    [v], unless it cannot be opened for writing. *)
Definition json_dump (name : string) (v : json) : M unit :=
  fun w =>
    if existsb (String.eqb name) (unwritable w) then
      (Raise (mk_exn (Subclass "PermissionError" OSError)
                ("[Errno 13] Permission denied: '" ++ name ++ "'")), w)
    else
      (Return tt,
       {| files := (name, Json v) :: files w;
          unwritable := unwritable w;
          trace := trace w ++ [FileWritten name (Json v)];
          self := self w |}).

(** [sys.exit(code)]: raises [SystemExit]; [str] of it is the code. *)
Definition sys_exit {A : Type} (code : Z) : M A :=
  raise (mk_exn SystemExit (string_of_Z code)).

(** The exit status of the process when [main] ends like this: 0 on return,
    the code of an uncaught [SystemExit], 1 for any other uncaught exception. *)
Definition exit_status {A : Type} (o : outcome A) : Z :=
  match o with
  | Return _ => 0
  | Raise e =>
      if isinstance e SystemExit then
        match NilZero.int_of_string (exn_str e) with
        | Some d => Z.of_int d
        | None => 1
        end
      else 1
  end.

End World.

Declare Scope world_scope.
Delimit Scope world_scope with world.
Notation "x <- c1 ;; c2" := (World.bindM c1 (fun x => c2))
  (at level 61, c1 at next level, right associativity) : world_scope.
Notation "c1 ;; c2" := (World.bindM c1 (fun _ => c2))
  (at level 61, right associativity) : world_scope.

(** ** Configuration: [load_config] *)

Module Config.
Import Py World.

Definition CONFIG_FILE : string := "heartbeat_config.json".

(** The template [load_config] writes when there is no configuration file. *)
Definition default_config : dict :=
  [ ("recipient_email", JList [JStr "your-email@example.com"]);
    ("sender_email", JStr "your-email@gmail.com");
    ("check_interval", JInt Probe.CHECK_INTERVAL);
    ("timeout", JInt Probe.TIMEOUT);
    ("max_consecutive_failures", JInt 2) ].

Definition required_keys : list string := ["recipient_email"; "sender_email"].

Definition value_error {A : Type} (text : string) : outcome A :=
  Raise (mk_exn ValueError text).

Definition please_set {A : Type} (key : string) : outcome A :=
  value_error ("Please set " ++ key ++ " in the config file").

(** [key in config], for whatever [json.load] returned. *)
Definition contains_key (config : json) (key : string) : outcome bool :=
  match config with
  | JObj members => Return (dict_has key members)
  | JList items => Return (existsb (fun v => eq_str v key) items)
  | JStr s => Return (str_in key s)
  | _ => Raise (mk_exn TypeError "argument is not iterable")
  end.

(** [config[key]]. *)
Definition subscript (config : json) (key : string) : outcome json :=
  match config with
  | JObj members =>
      match dict_lookup key members with
      | Some v => Return v
      | None => Raise (mk_exn (Subclass "KeyError" Exception) ("'" ++ key ++ "'"))
      end
  | _ => Raise (mk_exn TypeError "indices must be integers")
  end.

(** The body of the loop over [required_keys] (lines 79-94). *)
Definition check_key (config : json) (key : string) : outcome unit :=
  bind (contains_key config key) (fun present =>
  if negb present then please_set key else
  bind (subscript config key) (fun v =>
  if negb (truthy v) then please_set key else
  if String.eqb key "recipient_email" then
    match v with
    | JStr s =>
        if String.eqb s "your-email@example.com" then please_set key else Return tt
    | JList items =>
        if (List.length items =? 0)%nat
        then value_error ("Please set " ++ key
                          ++ " in the config file with at least one email address")
        else Return tt
    | _ => value_error (key ++ " must be a string or array format")
    end
  else if eq_str v ("your-" ++ before_first "_" key ++ "@example.com")
  then please_set key
  else Return tt)).

(** The loop: the keys are checked in order and the first failure ends it. *)
Fixpoint check_keys (config : json) (keys : list string) : outcome unit :=
  match keys with
  | [] => Return tt
  | key :: rest => bind (check_key config key) (fun _ => check_keys config rest)
  end.

(** Lines 76-96. A value that passed the checks is a [dict]. *)
Definition validate (config : json) : outcome dict :=
  bind (check_keys config required_keys) (fun _ =>
  match config with
  | JObj members => Return members
  | _ => Raise (mk_exn TypeError "indices must be integers")
  end).

Local Open Scope world_scope.

(** [load_config]. *)
Definition load_config (config_file : string) : M dict :=
  found <- path_exists config_file ;;
  if negb found then
    json_dump config_file (JObj default_config) ;;
    print ("Created default config file: " ++ config_file) ;;
    print "Please edit the config file and fill in correct email addresses and Gmail API credentials" ;;
    sys_exit 1
  else
    config <- json_load config_file ;;
    lift (validate config).

(** [self.config.get('max_consecutive_failures', self.max_consecutive_failures)]
    when the entry is an integer; the attribute is 2. *)
Definition max_consecutive_failures (config : dict) : option Z :=
  match dict_get "max_consecutive_failures" (JInt 2) config with
  | JInt n => Some n
  | JBool b => Some (if b then 1 else 0)
  | _ => None
  end.

End Config.

(** ** Notifier: [authenticate_gmail], [send_email] and the token scripts *)

Module Notifier.
Import Py Datetime Credential World.
Local Open Scope world_scope.

Definition TOKEN_JSON_FILE : string := "gmail_token.json".

(** The collaborators outside the process, as they answer during one call:
    google-auth's clock and margin, the token endpoint behind
    [creds.refresh(Request())] (the credential as it is after a successful
    refresh, or what the call raises), the discovery [build], and
    [...messages().send(...).execute()]. *)
Record services : Type := mk_services {
  lib : library;
  refresh : credentials -> outcome credentials;
  build : credentials -> outcome unit;
  execute : service -> message -> outcome json
}.

(** [token_data.get(...)] needs a [dict]. *)
Definition as_dict (v : json) : outcome dict :=
  match v with
  | JObj members => Return members
  | _ => Raise (mk_exn AttributeError "object has no attribute 'get'")
  end.

(** Lines 157-184 (99-126 of [test_gmail.py]): refresh when not valid, then
    write the refreshed credential back. *)
Definition refresh_if_needed (svc : services) (valid_now : bool) (creds : credentials)
  : M credentials :=
  if negb valid_now then
    emit (RefreshRequested creds) ;;
    creds <- lift (refresh svc creds) ;;
    expiry_str <- lift (save_expiry (expiry creds)) ;;
    json_dump TOKEN_JSON_FILE (token_document creds expiry_str) ;;
    ret creds
  else ret creds.

(** Lines 119-188 (61-130 of [test_gmail.py]): from the token file to the
    Gmail service. *)
Definition service_from_token_file (svc : services) : M service :=
  loaded <- json_load TOKEN_JSON_FILE ;;
  token_data <- lift (as_dict loaded) ;;
  creds <- lift (with_stored_expiry token_data (from_token_data token_data)) ;;
  valid_now <- lift (is_valid (lib svc) creds) ;;
  creds <- refresh_if_needed svc valid_now creds ;;
  lift (build svc creds) ;;
  emit (ServiceBuilt creds) ;;
  ret (mk_service creds).

(** [HeartbeatMonitor.authenticate_gmail]. *)
Definition authenticate_gmail (svc : services) : M bool :=
  try_exceptM
    (found <- path_exists TOKEN_JSON_FILE ;;
     if negb found then ret false
     else
       gmail <- service_from_token_file svc ;;
       set_gmail_service (Some gmail) ;;
       ret true)
    [ ([Exception], fun _ => ret false) ].

(** [load_and_authenticate] of [test_gmail.py]. *)
Definition load_and_authenticate (svc : services) : M (option service) :=
  found <- path_exists TOKEN_JSON_FILE ;;
  if negb found then ret None
  else
    try_exceptM
      (gmail <- service_from_token_file svc ;; ret (Some gmail))
      [ ([Exception], fun _ => ret None) ].

(** [', '.join(recipient_emails)] joins strings only. *)
Fixpoint strings_of (items : list json) : outcome (list string) :=
  match items with
  | [] => Return []
  | JStr s :: rest => bind (strings_of rest) (fun l => Return (s :: l))
  | _ :: rest => Raise (mk_exn TypeError "sequence item: expected str instance")
  end.

(** Lines 235-241 (and 390-394): the recipients as one header value. *)
Definition recipient_header (config : dict) : outcome string :=
  bind (Config.subscript (JObj config) "recipient_email") (fun recipient_emails =>
  match recipient_emails with
  | JList items => bind (strings_of items) (fun l => Return (join ", " l))
  | JStr s => Return s
  | _ => Raise (mk_exn TypeError "header value is not a string")
  end).

Definition sender_header (config : dict) : outcome string :=
  bind (Config.subscript (JObj config) "sender_email") (fun sender =>
  match sender with
  | JStr s => Return s
  | _ => Raise (mk_exn TypeError "header value is not a string")
  end).

(** Lines 233-248: the message [send_email] builds. *)
Definition build_message (config : dict) (subject body : string) : outcome message :=
  bind (recipient_header config) (fun to =>
  bind (sender_header config) (fun sender =>
  Return {| msg_to := to; msg_from := sender; msg_subject := subject; msg_body := body |})).

(** [send_email]. *)
Definition send_email (svc : services) (subject body : string) : M bool :=
  me <- get_self ;;
  ready <- match gmail_service me with
           | Some _ => ret true
           | None => authenticate_gmail svc
           end ;;
  if negb ready then ret false
  else
    try_exceptM
      (me <- get_self ;;
       msg <- lift (build_message (config me) subject body) ;;
       match gmail_service me with
       | Some gmail =>
           emit (MessageSubmitted gmail msg) ;;
           lift (execute svc gmail msg) ;;
           ret true
       | None => raise (mk_exn AttributeError "'NoneType' object has no attribute 'users'")
       end)
      [ ([HttpError], fun _ => ret false);
        ([Exception], fun _ => ret false) ].

(** [dict] assignment [d[key] = v]. *)
Fixpoint dict_set (key : string) (v : json) (d : dict) : dict :=
  match d with
  | [] => [(key, v)]
  | (k, old) :: rest =>
      if String.eqb k key then (k, v) :: rest else (k, old) :: dict_set key v rest
  end.

(** [fix_token_timezone] of [fix_token_timezone.py]; its progress lines on
    standard output are left out. *)
Definition fix_token_timezone : M bool :=
  found <- path_exists TOKEN_JSON_FILE ;;
  if negb found then ret false
  else
    try_exceptM
      (loaded <- json_load TOKEN_JSON_FILE ;;
       token_data <- lift (as_dict loaded) ;;
       token_data <-
         (if dict_has "expiry" token_data && truthy (dict_get "expiry" JNull token_data)
          then fixed <- lift (fix_expiry (dict_get "expiry" JNull token_data)) ;;
               ret (dict_set "expiry" fixed token_data)
          else ret token_data) ;;
       json_dump (TOKEN_JSON_FILE ++ ".backup") (JObj token_data) ;;
       json_dump TOKEN_JSON_FILE (JObj token_data) ;;
       ret true)
      [ ([Exception], fun _ => ret false) ].

End Notifier.

(** ** The monitor: [run_check], [send_alert_email], [run] and [main] *)

Module Monitor.
Import Py Datetime Credential World Notifier.
Local Open Scope world_scope.

(** [n >= v] for an [int] [n] and a loaded value [v]. Python compares an
    [int] with a [float] exactly; strings, lists, objects and [None] do not
    compare with an [int]. *)
Definition int_ge (n : Z) (v : json) : outcome bool :=
  match v with
  | JInt k => Return (k <=? n)
  | JBool b => Return ((if b then 1 else 0) <=? n)
  | JFloat x =>
      Return match Prim2SF x with
             | S754_zero _ => 0 <=? n
             | S754_infinity negative => negative
             | S754_nan => false
             | S754_finite negative m e =>
                 let v := if negative then Z.neg m else Z.pos m in
                 if 0 <=? e then v * 2 ^ e <=? n else v <=? n * 2 ^ (- e)
             end
  | _ => Raise (mk_exn TypeError "'>=' not supported between instances")
  end.

(** [v / 60] works on numbers only. *)
Definition divisible (v : json) : outcome unit :=
  match v with
  | JInt _ | JBool _ | JFloat _ => Return tt
  | _ => Raise (mk_exn TypeError "unsupported operand type(s) for /")
  end.

(** [time.sleep(v)]. *)
Definition sleep (v : json) : M unit :=
  match v with
  | JInt n =>
      if n <? 0 then raise (mk_exn ValueError "sleep length must be non-negative")
      else emit (Slept v)
  | JBool _ => emit (Slept v)
  | JFloat x =>
      if PrimFloat.is_nan x || PrimFloat.ltb x 0%float
      then raise (mk_exn ValueError "sleep length must be non-negative")
      else if PrimFloat.is_infinity x
      then raise (mk_exn OverflowError "timestamp too large to convert to C _PyTime_t")
      else emit (Slept v)
  | _ => raise (mk_exn TypeError "an integer is required")
  end.

(** What one tick brings from outside: the clock, the answer of
    [requests.get], and the collaborators of the notifier. *)
Record tick : Type := mk_tick {
  now : datetime;
  get : outcome Probe.response;
  svc : services
}.

Section Rendering.

(** Text rendering that is left open: [str] of a configuration value, and the
    bodies of the two mails as functions of what their f-strings read. *)
Variable str_json : json -> string.
Variable alert_body : option datetime -> Z -> json -> option string -> string.
Variable error_body : datetime -> string -> string.

Definition check_interval (config : dict) : json :=
  dict_get "check_interval" (JInt Probe.CHECK_INTERVAL) config.

(** [send_alert_email]. *)
Definition send_alert_email (services : services) (error_message : option string)
  : M unit :=
  let subject := ("⚠️ Website Monitoring Alert: " ++ Probe.WEBSITE_URL)%string in
  me <- get_self ;;
  let consecutive_failures := Tracker.consecutive_failures (counters me) in
  lift (divisible (check_interval (config me))) ;;
  let body := alert_body (Tracker.last_check_time (counters me)) consecutive_failures
                (check_interval (config me)) error_message in
  send_email services subject body ;;
  ret tt.

Definition set_last_check_time (t : datetime) : M unit :=
  me <- get_self ;;
  set_counters {| Tracker.last_check_time := Some t;
                  Tracker.consecutive_failures := Tracker.consecutive_failures (counters me);
                  Tracker.last_alert_sent := Tracker.last_alert_sent (counters me) |}.

Definition set_consecutive_failures (n : Z) : M unit :=
  me <- get_self ;;
  set_counters {| Tracker.last_check_time := Tracker.last_check_time (counters me);
                  Tracker.consecutive_failures := n;
                  Tracker.last_alert_sent := Tracker.last_alert_sent (counters me) |}.

Definition set_last_alert_sent (b : bool) : M unit :=
  me <- get_self ;;
  set_counters {| Tracker.last_check_time := Tracker.last_check_time (counters me);
                  Tracker.consecutive_failures := Tracker.consecutive_failures (counters me);
                  Tracker.last_alert_sent := b |}.

(** [run_check]. *)
Definition run_check (tk : tick) : M bool :=
  set_last_check_time (now tk) ;;
  me <- get_self ;;
  checked <- lift (Probe.check_website str_json (config me) (get tk)) ;;
  let '(is_healthy, error_message) := checked in
  (if is_healthy then
     set_consecutive_failures 0 ;;
     set_last_alert_sent false
   else
     set_consecutive_failures (Tracker.consecutive_failures (counters me) + 1) ;;
     me <- get_self ;;
     let max_failures := dict_get "max_consecutive_failures" (JInt 2) (config me) in
     reached <- lift (int_ge (Tracker.consecutive_failures (counters me)) max_failures) ;;
     if reached && negb (Tracker.last_alert_sent (counters me)) then
       send_alert_email (svc tk) error_message ;;
       set_last_alert_sent true
     else ret tt) ;;
  ret is_healthy.

(** The [while True] loop of [run] over the ticks that happen before the
    process is interrupted; the interrupt arrives during the sleep that
    follows the last of them. *)
Fixpoint loop (ticks : list tick) : M unit :=
  match ticks with
  | [] =>
      me <- get_self ;;
      sleep (check_interval (config me)) ;;
      raise (mk_exn KeyboardInterrupt "")
  | tk :: rest =>
      me <- get_self ;;
      sleep (check_interval (config me)) ;;
      run_check tk ;;
      loop rest
  end.

(** [run]: the start-up lines, the first authentication, the immediate check
    ([first]) and the loop ([later]). [startup] and [at_error] are the
    collaborators as they answer at start-up and when the error mail goes out. *)
Definition run (startup : services) (first : tick) (later : list tick)
    (at_error : tick) : M unit :=
  me <- get_self ;;
  lift (divisible (check_interval (config me))) ;;
  lift (recipient_header (config me)) ;;
  authenticate_gmail startup ;;
  run_check first ;;
  try_exceptM
    (loop later)
    [ ([KeyboardInterrupt], fun _ => ret tt);
      ([Exception], fun e =>
         try_exceptM
           (let subject := ("❌ Monitoring System Error: " ++ Probe.WEBSITE_URL)%string in
            send_email (svc at_error) subject (error_body (now at_error) (exn_str e)) ;;
            ret tt)
           [ ([BaseException], fun _ => ret tt) ]) ].

(** [HeartbeatMonitor(config_file)]. *)
Definition new_monitor (config_file : string) : M unit :=
  config <- Config.load_config config_file ;;
  put_self {| config := config; gmail_service := None; counters := Tracker.init |}.

(** [main], with [monitor.run()] as [monitoring]. *)
Definition main_with (monitoring : M unit) : M unit :=
  try_exceptM
    (new_monitor Config.CONFIG_FILE ;; monitoring)
    [ ([Exception], fun e =>
         print ("Failed to start: " ++ exn_str e) ;; sys_exit 1) ].

(** [main]. *)
Definition main (startup : services) (first : tick) (later : list tick)
    (at_error : tick) : M unit :=
  main_with (run startup first later at_error).

End Rendering.

(** A world in which nothing has happened yet. *)
Definition fresh_world (fs : list (string * file_content)) : world :=
  {| files := fs; unwritable := []; trace := []; self := blank_monitor |}.

End Monitor.
(** ** [save_token_to_json]: the credential in both formats *)

Module TokenStore.
Import Py Datetime Credential World Notifier.
Local Open Scope world_scope.



Section Pickling.

(** [pickle.dumps] on a credential object. *)
Variable pickle_dumps : credentials -> string.



End Pickling.
End TokenStore.

(** ** [test_gmail.py]: one test mail with the stored token *)

Module TestGmail.
Import Py Datetime Credential World Notifier.
Local Open Scope world_scope.

Definition CONFIG_FILE : string := "heartbeat_config.json".

(** [s * n]. *)
Fixpoint str_times (s : string) (n : nat) : string :=
  match n with
  | O => EmptyString
  | S k => s ++ str_times s k
  end.

(** ["=" * 70]. *)
Definition rule : string := str_times "=" 70.

(** [load_config] of [test_gmail.py]: the file as it is, without any check. *)
Definition load_config : M json :=
  found <- path_exists CONFIG_FILE ;;
  if negb found then
    print ("❌ Error: Config file not found " ++ CONFIG_FILE) ;;
    sys_exit 1
  else json_load CONFIG_FILE.

(** Lines 145-149 (and 228-232): the recipients as the script shows them, a
    list joined into one text, any other value as it is. *)
Definition recipient_str (config : json) : outcome json :=
  bind (Config.subscript config "recipient_email") (fun recipient_emails =>
  match recipient_emails with
  | JList items => bind (strings_of items) (fun l => Return (JStr (join ", " l)))
  | _ => Return recipient_emails
  end).

(** A header value as [message.as_bytes()] writes it under the default
    policy: text as it is, [None] as an empty value; any other value is taken
    for a [Header] object and has no [encode]. *)
Definition header_value (v : json) : outcome string :=
  match v with
  | JStr s => Return s
  | JNull => Return EmptyString
  | _ => Raise (mk_exn AttributeError "object has no attribute 'encode'")
  end.

Definition TEST_SUBJECT : string := "✅ Gmail Test - No OAuth Required".

Section Rendering.

(** The body of the test mail, as a function of what its f-string reads: the
    time of the test, [config['sender_email']] and the recipients. *)
Variable test_body : datetime -> json -> json -> string.

(** [send_test_email]; [svc] answers for the API behind [gmail_service] and
    [now] is the clock. *)
Definition send_test_email (svc : services) (now : datetime) (gmail_service : service)
    (config : json) : M bool :=
  try_exceptM
    (recipients <- lift (recipient_str config) ;;
     sender <- lift (Config.subscript config "sender_email") ;;
     let body := test_body now sender recipients in
     to <- lift (header_value recipients) ;;
     from <- lift (header_value sender) ;;
     let msg := {| msg_to := to; msg_from := from;
                   msg_subject := TEST_SUBJECT; msg_body := body |} in
     emit (MessageSubmitted gmail_service msg) ;;
     send_message <- lift (execute svc gmail_service msg) ;;
     lift (as_dict send_message) ;;
     ret true)
    [ ([HttpError], fun _ => ret false);
      ([Exception], fun _ => ret false) ].

(** Lines 224-235: the configuration, and the two entries the script shows. *)
Definition shown_config : M json :=
  try_exceptM
    (config <- load_config ;;
     lift (Config.subscript config "sender_email") ;;
     lift (recipient_str config) ;;
     ret config)
    [ ([Exception], fun _ => sys_exit 1) ].

Definition banner : M unit :=
  print rule ;;
  print "Gmail API Test - No OAuth Authentication Required" ;;
  print rule ;;
  print "" ;;
  print "This script demonstrates that:" ;;
  print "  1. Saved token can be loaded and used" ;;
  print "  2. Token refresh works automatically" ;;
  print "  3. No browser OAuth is needed for subsequent runs" ;;
  print "" ;;
  print rule ;;
  print "".

Definition verdict (success : bool) : M unit :=
  print "" ;;
  print rule ;;
  (if success then
     print "✅ TEST PASSED!" ;;
     print "" ;;
     print "The email was sent successfully WITHOUT opening a browser!" ;;
     print "This proves that:" ;;
     print "  ✓ Token loading works" ;;
     print "  ✓ Token refresh works (if needed)" ;;
     print "  ✓ No repeated OAuth authentication required" ;;
     print "" ;;
     print "Please check your inbox to confirm receipt."
   else
     print "❌ TEST FAILED!" ;;
     print "Please check the error messages above.") ;;
  print rule.

(** [main] of [test_gmail.py]. *)
Definition main (svc : services) (now : datetime) : M unit :=
  banner ;;
  config <- shown_config ;;
  print "" ;;
  gmail_service <- load_and_authenticate svc ;;
  match gmail_service with
  | None => sys_exit 1
  | Some gmail =>
      print "" ;;
      success <- send_test_email svc now gmail config ;;
      verdict success
  end.

End Rendering.
End TestGmail.


(** * Terms of the statements

    Predicates and helper functions in which the properties below are
    stated, and the concrete inputs of the examples. *)

(** The latch before tick [i] (counted from 0) of a streak of failures that
    starts in [s], under the threshold [max_failures]. *)
Definition latch_before {timestamp : Type} (max_failures : Z)
    (s : Tracker.state timestamp) (i : nat) : bool :=
  Tracker.last_alert_sent s
  || ((1 <=? Z.of_nat i)
      && (max_failures <=? Tracker.consecutive_failures s + Z.of_nat i)).

(** Concrete runs of the tracker: threshold 2, the clock read as a tick number. *)
Definition down (n : Z) : Tracker.tick Z := (n, (false, Some "Request timeout")).

Definition up (n : Z) : Tracker.tick Z := (n, (true, None)).

Definition alerts_of (ticks : list (Tracker.tick Z)) : list bool :=
  map (fun r => Tracker.is_alert (snd r)) (Tracker.run_checks 2 ticks Tracker.init).

Section CalendarTerms.
Import Datetime.

(** The month and the day of [_ord2ymd] from the day of the year, counted
    from 0. *)
Definition month_day (leapyear : bool) (n : Z) : Z * Z :=
  let m := Z.shiftr (n + 50) 5 in
  let preceding := DAYS_BEFORE_MONTH m + (if (2 <? m) && leapyear then 1 else 0) in
  if n <? preceding then
    let m := m - 1 in
    let preceding :=
      preceding - (DAYS_IN_MONTH m + (if (m =? 2) && leapyear then 1 else 0)) in
    (m, n - preceding + 1)
  else (m, n - preceding + 1).

(** The quotients and the last remainder of [_ord2ymd]. *)
Definition split_ordinal (ordinal : Z) : Z * Z * Z * Z * Z :=
  let n := ordinal - 1 in
  (n / DI400Y,
   (n mod DI400Y) / DI100Y,
   ((n mod DI400Y) mod DI100Y) / DI4Y,
   (((n mod DI400Y) mod DI100Y) mod DI4Y) / 365,
   (((n mod DI400Y) mod DI100Y) mod DI4Y) mod 365).

Definition month_day_ok (leapyear : bool) (n : Z) : bool :=
  let '(m, d) := month_day leapyear n in
  (1 <=? m) && (m <=? 12) && (1 <=? d)
  && (d <=? DAYS_IN_MONTH m + (if (m =? 2) && leapyear then 1 else 0))
  && (DAYS_BEFORE_MONTH m + (if (2 <? m) && leapyear then 1 else 0) + d =? n + 1).

End CalendarTerms.

Section DatetimeArithmeticTerms.
Import Py Datetime.

(** A call that raises nothing outside [Exception]. *)
Definition benign {A : Type} (o : outcome A) : Prop :=
  forall e, o = Raise e -> isinstance e Exception = true.

(** The reading of the fields as microseconds on the local time line. *)
Definition local_us (dt : datetime) : Z := toordinal dt * DAY_US + us_of_day dt.

End DatetimeArithmeticTerms.

Section DigitTerms.
Import Py Datetime.

(** Characters. *)
Fixpoint all_chars (p : ascii -> bool) (s : string) : bool :=
  match s with
  | EmptyString => true
  | String c rest => p c && all_chars p rest
  end.

Definition is_digit (c : ascii) : bool :=
  match digit_val c with Some _ => true | None => false end.

End DigitTerms.

Section IsoformatTerms.
Import Py Datetime.

(** The time of day as [isoformat] prints it. *)
Definition iso_time (h mi s us : Z) : string :=
  digits_of 2 h ++ ":" ++ digits_of 2 mi ++ ":" ++ digits_of 2 s
  ++ (if us =? 0 then EmptyString else "." ++ digits_of 6 us).

(** The magnitude of an offset as [_format_offset] prints it. *)
Definition iso_offset (a : Z) : string :=
  let r := a mod 3600000000 in
  let ss := r mod 60000000 in
  digits_of 2 (a / 3600000000) ++ ":" ++ digits_of 2 (r / 60000000)
  ++ (if ss =? 0 then EmptyString
      else ":" ++ digits_of 2 (ss / 1000000)
           ++ (if ss mod 1000000 =? 0 then EmptyString
               else "." ++ digits_of 6 (ss mod 1000000))).

Definition no_sign (c : ascii) : bool :=
  negb (Ascii.eqb c "+") && negb (Ascii.eqb c "-").

(** The zone as [_format_offset] prints it. *)
Definition iso_zone (tz : option Z) : string :=
  match tz with
  | None => EmptyString
  | Some off => (if off <? 0 then "-" else "+") ++ iso_offset (Z.abs off)
  end.

End IsoformatTerms.

Section ZuluTerms.
Import Py Datetime Credential.

Definition not_plus (c : ascii) : bool := negb (Ascii.eqb c "+").

(** [isoformat] without the zone. *)
Definition iso_naive (dt : datetime) : string := isoformat (replace_tzinfo dt None).


End ZuluTerms.

Definition new_year_2025 (tz : option Z) : Datetime.datetime :=
  Datetime.mk_datetime 2025 1 1 0 0 0 0 tz.

Section ProbeTerms.
Import Py Probe.

(** The first character tells the reasons of the clauses apart. *)
Definition first_char (s : string) : option ascii :=
  match s with EmptyString => None | String c _ => Some c end.

Definition reason_head (o : outcome (bool * option string)) : option ascii :=
  match o with
  | Return (_, Some msg) => first_char msg
  | _ => None
  end.

End ProbeTerms.

(** A rendering of configuration values, enough for whole numbers and text. *)
Definition str_of_plain_json (v : Py.json) : string :=
  match v with
  | Py.JInt n => Py.string_of_Z n
  | Py.JStr s => s
  | _ => EmptyString
  end.

Section WpTerms.
Local Open Scope list_scope.
Import Py World.

(** [wp m Q w]: running [m] in [w] ends in a result and a world that satisfy [Q]. *)
Definition wp {A : Type} (m : M A) (Q : outcome A -> world -> Prop) (w : world) : Prop :=
  Q (fst (m w)) (snd (m w)).

(** The world after [w]: same configuration and counters, and the trace grown
    by events that all satisfy [P]. *)
Definition extends (P : event -> Prop) (w w' : world) : Prop :=
  (config (self w') = config (self w) /\ counters (self w') = counters (self w)) /\
  exists evs, trace w' = trace w ++ evs /\ Forall P evs.

End WpTerms.

Section FramesTerms.
Import Py World.
Local Open Scope list_scope.

(** A computation that raises nothing outside [Exception]. *)
Definition benignM {A : Type} (m : M A) : Prop :=
  forall w e, fst (m w) = Raise e -> isinstance e Exception = true.

(** A computation that keeps the configuration and the counters and adds only
    events in [P]. *)
Definition framed {A : Type} (P : event -> Prop) (m : M A) : Prop :=
  forall w, extends P w (snd (m w)).

End FramesTerms.

Section NotifierTerms.
Import Py Datetime Credential World Notifier.
Local Open Scope list_scope.

(** Collaborators that raise nothing outside [Exception]. *)
Definition well_behaved (svc : services) : Prop :=
  (forall c, benign (refresh svc c)) /\
  (forall c, benign (build svc c)) /\
  (forall s m, benign (execute svc s m)).

(** Events other than the submission of a message. *)
Definition quiet (ev : event) : Prop :=
  match ev with MessageSubmitted _ _ => False | _ => True end.

Definition add_events (w : world) (evs : list event) : world :=
  {| files := files w; unwritable := unwritable w;
     trace := trace w ++ evs; self := self w |}.

Definition with_token_file (w : world) (doc : json) (evs : list event) : world :=
  {| files := (TOKEN_JSON_FILE, Json doc) :: files w; unwritable := unwritable w;
     trace := trace w ++ evs; self := self w |}.


Definition with_service (w : world) (gmail : service) : world :=
  {| files := files w; unwritable := unwritable w; trace := trace w;
     self := {| config := config (self w); gmail_service := Some gmail;
                counters := counters (self w) |} |}.

(** [authenticate_gmail] when the token file is there: the outcome of the
    body, seen through the [except Exception] clause. *)
Definition authenticated (result : outcome service * world) : outcome bool * world :=
  match result with
  | (Return gmail, w1) => (Return true, with_service w1 gmail)
  | (Raise e, w1) =>
      if isinstance e Exception then (Return false, w1) else (Raise e, w1)
  end.

(** The [try] block of [send_email] (lines 228-261). *)
Definition deliver (svc : services) (subject body : string) : M bool :=
  try_exceptM
    (bindM get_self (fun me =>
     bindM (lift (build_message (config me) subject body)) (fun msg =>
     match gmail_service me with
     | Some gmail =>
         bindM (emit (MessageSubmitted gmail msg)) (fun _ =>
         bindM (lift (execute svc gmail msg)) (fun _ => ret true))
     | None => raise (mk_exn AttributeError "'NoneType' object has no attribute 'users'")
     end)))
    [ ([HttpError], fun _ => ret false);
      ([Exception], fun _ => ret false) ].

End NotifierTerms.

Definition at_time (y mo d h mi s : Z) (tz : option Z) : Datetime.datetime :=
  Datetime.mk_datetime y mo d h mi s 0 tz.

(** google-auth as it reads the clock on 2025-01-01 00:00 UTC: a naive value,
    and a margin of 3 min 45 s. *)
Definition sample_library : Credential.library :=
  {| Credential.utcnow := at_time 2025 1 1 0 0 0 None;
     Credential.refresh_threshold := 225000000 |}.

Definition token_file_with (expiry : Py.json) : Py.dict :=
  [ ("token", Py.JStr "ya29.stored");
    ("refresh_token", Py.JStr "1//refresh");
    ("token_uri", Py.JStr "https://oauth2.googleapis.com/token");
    ("client_id", Py.JStr "monitor.apps.googleusercontent.com");
    ("client_secret", Py.JStr "secret");
    ("scopes", Credential.SCOPES);
    ("expiry", expiry) ].

(** A token endpoint that answers with a new access token good for one hour;
    google-auth stores the new expiry as a naive value in UTC. *)
Definition refreshed (c : Credential.credentials) : Credential.credentials :=
  {| Credential.token := Py.JStr "ya29.fresh";
     Credential.refresh_token := Credential.refresh_token c;
     Credential.token_uri := Credential.token_uri c;
     Credential.client_id := Credential.client_id c;
     Credential.client_secret := Credential.client_secret c;
     Credential.scopes := Credential.scopes c;
     Credential.expiry := Some (at_time 2025 1 1 1 0 0 None) |}.

Definition working_services : Notifier.services :=
  {| Notifier.lib := sample_library;
     Notifier.refresh := fun c => Py.Return (refreshed c);
     Notifier.build := fun _ => Py.Return tt;
     Notifier.execute := fun _ _ => Py.Return (Py.JObj [("id", Py.JStr "18c2f")]) |}.

Definition world_with_token (expiry : Py.json) : World.world :=
  Monitor.fresh_world
    [(Notifier.TOKEN_JSON_FILE, World.Json (Py.JObj (token_file_with expiry)))].

Definition loaded (expiry : Py.json) : Credential.credentials :=
  Credential.set_expiry (Credential.from_token_data (token_file_with expiry))
    (match Credential.load_expiry expiry with
     | Py.Return u => Some u
     | Py.Raise _ => None
     end).

Section MonitorTerms.
Import Py Datetime Credential World Notifier Config.
Local Open Scope list_scope.

(** An event that is not a submission, or a submission addressed to [s]. *)
Definition addressed_to (s : string) (ev : event) : Prop :=
  match ev with MessageSubmitted _ msg => msg_to msg = s | _ => True end.

End MonitorTerms.

Definition plain_alert_body (checked : option Datetime.datetime) (failures : Z)
    (interval : Py.json) (error_message : option string) : string :=
  ("Consecutive Failures: " ++ Py.string_of_Z failures ++ " times")%string.

Definition plain_error_body (at_time : Datetime.datetime) (text : string) : string :=
  ("Error Message: " ++ text)%string.

Definition site_up (hour : Z) : Monitor.tick :=
  {| Monitor.now := at_time 2025 1 1 hour 0 0 None;
     Monitor.get := Py.Return (Probe.mk_response 200 "<title>C2SMART Center</title>");
     Monitor.svc := working_services |}.

Definition site_down (hour : Z) : Monitor.tick :=
  {| Monitor.now := at_time 2025 1 1 hour 0 0 None;
     Monitor.get := Py.Raise (Py.mk_exn Py.ConnectTimeout "Connection timed out");
     Monitor.svc := working_services |}.

Definition run_main (first : Monitor.tick) (later : list Monitor.tick)
    (fs : list (string * World.file_content)) : Py.outcome unit * World.world :=
  Monitor.main str_of_plain_json plain_alert_body plain_error_body
    working_services first later (site_up 23) (Monitor.fresh_world fs).

Definition template_file : string * World.file_content :=
  (Config.CONFIG_FILE, World.Json (Py.JObj Config.default_config)).

Definition token_file : string * World.file_content :=
  (Notifier.TOKEN_JSON_FILE,
   World.Json (Py.JObj (token_file_with (Py.JStr "2024-06-01T12:00:00Z")))).

Definition is_submission_to (address : string) (ev : World.event) : bool :=
  match ev with
  | World.MessageSubmitted _ msg => String.eqb (World.msg_to msg) address
  | _ => false
  end.

Definition is_sleep (ev : World.event) : bool :=
  match ev with World.Slept _ => true | _ => false end.

(** ** Terms of the further properties *)

(** The length of the first run of elements of [l] that satisfy [p]. *)
Fixpoint leading {A : Type} (p : A -> bool) (l : list A) : nat :=
  match l with
  | [] => O
  | x :: rest => if p x then S (leading p rest) else O
  end.

Definition failed {timestamp : Type} (tk : Tracker.tick timestamp) : bool :=
  negb (fst (snd tk)).

(** The number of unhealthy ticks at the end of [ticks], back to the last
    healthy one. *)
Definition trailing_failures {timestamp : Type} (ticks : list (Tracker.tick timestamp)) : Z :=
  Z.of_nat (leading failed (rev ticks)).

Section AuthenticationTerms.
Import Py Credential World Notifier.

(** The events of getting a credential ready: a refresh request, or a write
    of the token file. *)
Definition preparing (ev : event) : Prop :=
  match ev with
  | RefreshRequested _ => True
  | FileWritten name _ => name = TOKEN_JSON_FILE
  | _ => False
  end.

(** The events of an authentication: those, and the building of the service. *)
Definition authenticating (ev : event) : Prop :=
  match ev with
  | ServiceBuilt _ => True
  | _ => preparing ev
  end.

End AuthenticationTerms.

Section RunTerms.
Import Py Datetime World Notifier.

(** What the tracker sees of a tick: the clock, and what [check_website]
    makes of the answer of [requests.get]. *)
Definition observed (str_json : json -> string) (config : dict) (tk : Monitor.tick)
  : Tracker.tick datetime :=
  (Monitor.now tk,
   match Probe.check_website str_json config (Monitor.get tk) with
   | Return verdict => verdict
   | Raise _ => (false, None)
   end).

(** A tick on which nothing outside [Exception] is raised. *)
Definition orderly (tk : Monitor.tick) : Prop :=
  well_behaved (Monitor.svc tk) /\ benign (Monitor.get tk).

Definition is_submission (ev : event) : bool :=
  match ev with MessageSubmitted _ _ => true | _ => false end.



(** The monitor object with other counters. *)
Definition with_counters (w : world) (c : Tracker.state datetime) : world :=
  {| files := files w; unwritable := unwritable w; trace := trace w;
     self := {| config := config (self w); gmail_service := gmail_service (self w);
                counters := c |} |}.

End RunTerms.

Section FixTerms.
Import Py Credential World Notifier.

Definition BACKUP_FILE : string := TOKEN_JSON_FILE ++ ".backup".

(** Lines 32-56 of [fix_token_timezone.py]: the token data with its expiry
    rewritten, when there is one. *)
Definition fixed_token_data (token_data : dict) : outcome dict :=
  if dict_has "expiry" token_data && truthy (dict_get "expiry" JNull token_data)
  then bind (fix_expiry (dict_get "expiry" JNull token_data))
            (fun fixed => Return (dict_set "expiry" fixed token_data))
  else Return token_data.

(** The world after [json.dump] wrote [v] to [name]. *)
Definition with_file (w : world) (name : string) (v : json) : world :=
  {| files := (name, Json v) :: files w; unwritable := unwritable w;
     trace := trace w ++ [FileWritten name (Json v)]; self := self w |}.

Definition writable (w : world) (name : string) : bool :=
  negb (existsb (String.eqb name) (unwritable w)).

End FixTerms.

Section TestScriptTerms.
Import Py World.

(** What a computation adds to the trace of a world in which nothing has
    happened. *)
Definition events_of {A : Type} (m : M A) : list event :=
  trace (snd (m (Monitor.fresh_world []))).

Definition PASSED : event := Printed "✅ TEST PASSED!".
Definition FAILED : event := Printed "❌ TEST FAILED!".

End TestScriptTerms.

Section StoreTerms.
Import Py Datetime Credential.

(** The entries of a token document. *)
Definition members_of (doc : json) : dict :=
  match doc with JObj members => members | _ => [] end.

(** The credential as the monitor loads it from a token document. *)
Definition loaded_from (doc : json) : outcome credentials :=
  with_stored_expiry (members_of doc) (from_token_data (members_of doc)).

(** The expiry in UTC, where the conversion returns. *)
Definition in_utc (e : option datetime) : option datetime :=
  match e with
  | Some d => match to_utc d with Return u => Some u | Raise _ => None end
  | None => None
  end.

Definition well_formed_expiry (e : option datetime) : bool :=
  match e with Some d => well_formed d | None => true end.

End StoreTerms.

(** Concrete inputs of the examples below. *)

(** A token endpoint that turns the refresh down. *)
Definition refusing_services : Notifier.services :=
  {| Notifier.lib := sample_library;
     Notifier.refresh := fun _ =>
       Py.Raise (Py.mk_exn Py.RefreshError "invalid_grant: Token has been expired or revoked.");
     Notifier.build := fun _ => Py.Return tt;
     Notifier.execute := fun _ _ => Py.Return (Py.JObj [("id", Py.JStr "18c2f")]) |}.

Definition ops_config : Py.dict :=
  [ ("recipient_email", Py.JList [Py.JStr "ops@nyu.edu"; Py.JStr "oncall@nyu.edu"]);
    ("sender_email", Py.JStr "monitor@nyu.edu") ].

(** [ops_config] with one more entry in front. *)
Definition ops_config_with (key : string) (v : Py.json) : Py.dict :=
  (key, v) :: ops_config.

Definition config_file (members : Py.dict) : string * World.file_content :=
  (Config.CONFIG_FILE, World.Json (Py.JObj members)).

(** A monitor with the configuration [members] that holds [gmail]. *)
Definition monitoring_world (members : Py.dict) (gmail : option World.service) : World.world :=
  {| World.files := [token_file]; World.unwritable := []; World.trace := [];
     World.self := {| World.config := members; World.gmail_service := gmail;
                      World.counters := Tracker.init |} |}.

Definition stored_service : World.service :=
  World.mk_service (loaded (Py.JStr "2024-06-01T12:00:00Z")).

Definition plain_test_body (test_time : Datetime.datetime) (sender recipients : Py.json)
  : string :=
  ("Sender Email: " ++ str_of_plain_json sender)%string.


(** * Properties *)

(** ** The incident tracker *)

Section TrackerFacts.
Import Tracker.
Context {timestamp : Type}.
Variable max_failures : Z.

Abbreviation state := (Tracker.state timestamp).
Abbreviation tick := (Tracker.tick timestamp).
Abbreviation action := (Tracker.action timestamp).

Lemma run_check_healthy (tk : tick) (s : state) :
  healthy tk ->
  run_check max_failures tk s =
    ({| last_check_time := Some (fst tk);
        consecutive_failures := 0;
        last_alert_sent := false |}, NoAction).
Proof.
  destruct tk as [now [h msg]]; unfold healthy; simpl; intros ->; reflexivity.
Qed.

(** An unhealthy tick always adds one to the count; the latch afterwards is
    the old latch or the threshold test on the new count; an alert goes out
    exactly when that test holds and the latch was clear. *)
Lemma run_check_unhealthy (tk : tick) (s : state) :
  unhealthy tk ->
  let r := run_check max_failures tk s in
  consecutive_failures (fst r) = consecutive_failures s + 1 /\
  last_check_time (fst r) = Some (fst tk) /\
  last_alert_sent (fst r)
    = last_alert_sent s || (max_failures <=? consecutive_failures s + 1) /\
  snd r = (if (max_failures <=? consecutive_failures s + 1) && negb (last_alert_sent s)
           then SendAlert (snd (snd tk)) (consecutive_failures s + 1) (fst tk)
           else NoAction).
Proof.
  destruct tk as [now [h msg]]; unfold unhealthy; simpl; intros ->.
  destruct (max_failures <=? consecutive_failures s + 1), (last_alert_sent s);
    simpl; auto.
Qed.

Lemma run_checks_length (ticks : list tick) (s : state) :
  List.length (run_checks max_failures ticks s) = List.length ticks.
Proof.
  revert s; induction ticks as [|tk rest IH]; intro s; simpl; [reflexivity|].
  now rewrite IH.
Qed.

Lemma streak_nth (ticks : list tick) :
  Forall unhealthy ticks ->
  forall (s : state) (i : nat) (st : state) (a : action),
    nth_error (run_checks max_failures ticks s) i = Some (st, a) ->
    consecutive_failures st = consecutive_failures s + Z.of_nat (S i) /\
    last_alert_sent st = latch_before max_failures s (S i) /\
    is_alert a
      = (max_failures <=? consecutive_failures st) && negb (latch_before max_failures s i).
Proof.
  induction 1 as [|tk rest Hu _ IH]; intros s i st a Hn.
  - destruct i; discriminate.
  - simpl in Hn.
    destruct (run_check_unhealthy tk s Hu) as (Hc & _ & Hl & Ha).
    destruct i as [|i].
    + simpl in Hn. injection Hn as Hr.
      rewrite Hr in Hc, Hl, Ha; simpl in Hc, Hl, Ha. subst a.
      unfold latch_before. rewrite Hc, Hl.
      replace (consecutive_failures s + Z.of_nat 1) with (consecutive_failures s + 1) by lia.
      replace (consecutive_failures s + Z.of_nat 0) with (consecutive_failures s) by lia.
      split; [reflexivity|split].
      * destruct (last_alert_sent s); reflexivity.
      * destruct (max_failures <=? consecutive_failures s + 1), (last_alert_sent s);
          reflexivity.
    + simpl in Hn. apply IH in Hn. destruct Hn as (Hc' & Hl' & Ha').
      unfold latch_before in *. rewrite Hc, Hl in *.
      split; [lia|split].
      * rewrite Hl'.
        destruct (last_alert_sent s); [reflexivity|]. cbn [orb].
        destruct (Z.leb_spec max_failures (consecutive_failures s + 1));
        destruct (Z.leb_spec 1 (Z.of_nat (S i)));
        destruct (Z.leb_spec 1 (Z.of_nat (S (S i))));
        destruct (Z.leb_spec max_failures (consecutive_failures s + 1 + Z.of_nat (S i)));
        destruct (Z.leb_spec max_failures (consecutive_failures s + Z.of_nat (S (S i))));
          cbn [orb andb]; try reflexivity; lia.
      * rewrite Ha'.
        destruct (last_alert_sent s); cbn [orb negb]; [now rewrite !andb_false_r|].
        f_equal. f_equal.
        destruct (Z.leb_spec max_failures (consecutive_failures s + 1));
        destruct (Z.leb_spec 1 (Z.of_nat i));
        destruct (Z.leb_spec 1 (Z.of_nat (S i)));
        destruct (Z.leb_spec max_failures (consecutive_failures s + 1 + Z.of_nat i));
        destruct (Z.leb_spec max_failures (consecutive_failures s + Z.of_nat (S i)));
          cbn [orb andb]; try reflexivity; lia.
Qed.

(** How many alerts a streak produces, from any starting state. *)
Lemma streak_count (ticks : list tick) :
  Forall unhealthy ticks ->
  forall s : state,
    count_alerts (run_checks max_failures ticks s)
    = if last_alert_sent s then 0%nat
      else if (max_failures <=? consecutive_failures s + Z.of_nat (List.length ticks))
              && (1 <=? Z.of_nat (List.length ticks))
           then 1%nat else 0%nat.
Proof.
  unfold count_alerts.
  induction 1 as [|tk rest Hu _ IH]; intro s.
  - simpl. rewrite andb_false_r. now destruct (last_alert_sent s).
  - cbn [run_checks filter].
    destruct (run_check_unhealthy tk s Hu) as (Hc & _ & Hl & Ha).
    cbv zeta in Hc, Hl, Ha.
    assert (Hal : is_alert (snd (run_check max_failures tk s))
                  = (max_failures <=? consecutive_failures s + 1)
                    && negb (last_alert_sent s)).
    { rewrite Ha. now destruct ((max_failures <=? consecutive_failures s + 1)
                                && negb (last_alert_sent s)). }
    cbv zeta. rewrite Hal.
    destruct (last_alert_sent s) eqn:Hs; cbn [orb andb negb] in *.
    + rewrite andb_false_r, IH, Hl. reflexivity.
    + destruct (Z.leb_spec max_failures (consecutive_failures s + 1));
        cbn [orb andb negb List.length]; rewrite IH, Hl, ?Hc; cbn [orb].
      * destruct (Z.leb_spec max_failures
                    (consecutive_failures s + Z.of_nat (S (List.length rest))));
        destruct (Z.leb_spec 1 (Z.of_nat (S (List.length rest))));
          cbn [orb andb negb]; try reflexivity; lia.
      * destruct (Z.leb_spec max_failures
                    (consecutive_failures s + 1 + Z.of_nat (List.length rest)));
        destruct (Z.leb_spec max_failures
                    (consecutive_failures s + Z.of_nat (S (List.length rest))));
        destruct (Z.leb_spec 1 (Z.of_nat (List.length rest)));
        destruct (Z.leb_spec 1 (Z.of_nat (S (List.length rest))));
          cbn [orb andb negb]; try reflexivity; lia.
Qed.

Lemma run_checks_nth (ticks : list tick) :
  forall (s : state) (i : nat) (r : state * action),
    nth_error (run_checks max_failures ticks s) i = Some r ->
    exists tk s', nth_error ticks i = Some tk /\ r = run_check max_failures tk s'.
Proof.
  induction ticks as [|tk rest IH]; intros s i r Hn.
  - destruct i; discriminate.
  - destruct i as [|i]; simpl in Hn.
    + injection Hn as <-. exists tk, s. split; reflexivity.
    + apply IH in Hn. exact Hn.
Qed.

Lemma alert_payload (tk : tick) (s : state) :
  is_alert (snd (run_check max_failures tk s)) = true ->
  snd (run_check max_failures tk s)
  = SendAlert (snd (snd tk))
              (consecutive_failures (fst (run_check max_failures tk s))) (fst tk).
Proof.
  destruct tk as [now [h msg]]; simpl.
  destruct h; simpl; [discriminate|].
  destruct ((max_failures <=? consecutive_failures s + 1) && negb (last_alert_sent s));
    simpl; [reflexivity|discriminate].
Qed.

Lemma healthy_run_all_quiet (hs : list tick) :
  Forall healthy hs ->
  forall (s : state) (st : state) (a : action),
    In (st, a) (run_checks max_failures hs s) ->
    consecutive_failures st = 0 /\ last_alert_sent st = false /\ a = NoAction.
Proof.
  induction 1 as [|tk rest Hh _ IH]; intros s st a Hin; [destruct Hin|].
  simpl in Hin. rewrite (run_check_healthy tk s Hh) in Hin.
  destruct Hin as [Heq|Hin].
  - injection Heq as <- <-. auto.
  - eapply IH; eassumption.
Qed.

Lemma latch_inv_step (tk : tick) (s : state) :
  latch_inv max_failures s -> latch_inv max_failures (fst (run_check max_failures tk s)).
Proof.
  unfold latch_inv. destruct tk as [now [h msg]]; simpl.
  destruct h; simpl; [discriminate|].
  destruct (Z.leb_spec max_failures (consecutive_failures s + 1));
    destruct (last_alert_sent s); simpl; intros Hinv Hl;
    try discriminate; try lia; specialize (Hinv eq_refl); lia.
Qed.

(** C1. A streak of N unhealthy results (N at least the threshold, and at
    least one result) that starts with the count at 0 and the latch clear
    produces exactly one alert. The alert goes out on the tick where the
    count first reaches the threshold: on that tick and on no other. Every
    tick of the streak, the later ones included, adds one to the count. *)
Theorem one_alert_per_unhealthy_streak :
  forall (ticks : list tick) (s0 : state),
    consecutive_failures s0 = 0 -> last_alert_sent s0 = false ->
    Forall unhealthy ticks ->
    (1 <= List.length ticks)%nat ->
    max_failures <= Z.of_nat (List.length ticks) ->
    let out := run_checks max_failures ticks s0 in
    List.length out = List.length ticks /\
    count_alerts out = 1%nat /\
    forall i st a, nth_error out i = Some (st, a) ->
      consecutive_failures st = Z.of_nat (S i) /\
      (is_alert a = true <->
         max_failures <= consecutive_failures st /\
         forall j st' a', (j < i)%nat -> nth_error out j = Some (st', a') ->
                          consecutive_failures st' < max_failures) /\
      (is_alert a = true ->
         exists tk, nth_error ticks i = Some tk /\
                    a = SendAlert (snd (snd tk)) (Z.of_nat (S i)) (fst tk)) /\
      (is_alert a = false -> a = NoAction).
Proof.
  intros ticks s0 Hc0 Hl0 Hu Hlen Hth out. subst out.
  split; [apply run_checks_length|]. split.
  - rewrite (streak_count ticks Hu s0), Hl0, Hc0.
    destruct (Z.leb_spec max_failures (0 + Z.of_nat (List.length ticks)));
      destruct (Z.leb_spec 1 (Z.of_nat (List.length ticks)));
      cbn [andb]; try reflexivity; lia.
  - intros i st a Hn.
    destruct (streak_nth ticks Hu s0 i st a Hn) as (Hc & _ & Ha).
    rewrite Hc0 in Hc. unfold latch_before in Ha. rewrite Hl0, Hc0 in Ha.
    cbn [orb] in Ha.
    split; [lia|]. split; [|split].
    + rewrite Ha. split.
      * intros Hb. apply andb_true_iff in Hb. destruct Hb as [H1 H2].
        apply Z.leb_le in H1. split; [exact H1|].
        intros j st' a' Hj Hn'.
        destruct (streak_nth ticks Hu s0 j st' a' Hn') as (Hc' & _ & _).
        rewrite Hc0 in Hc'. rewrite Hc'.
        apply negb_true_iff in H2. apply andb_false_iff in H2.
        destruct H2 as [H2|H2]; [apply Z.leb_gt in H2|apply Z.leb_gt in H2]; lia.
      * intros [H1 H2]. apply andb_true_iff. split; [apply Z.leb_le; exact H1|].
        apply negb_true_iff. apply andb_false_iff.
        destruct i as [|i]; [left; reflexivity|right].
        apply Z.leb_gt.
        assert (Hi : (i < List.length (run_checks max_failures ticks s0))%nat).
        { apply Nat.lt_le_incl. apply nth_error_Some. rewrite Hn. discriminate. }
        destruct (nth_error (run_checks max_failures ticks s0) i) as [[st' a']|] eqn:Hn'.
        -- specialize (H2 i st' a' (Nat.lt_succ_diag_r i) Hn').
           destruct (streak_nth ticks Hu s0 i st' a' Hn') as (Hc' & _ & _).
           rewrite Hc0 in Hc'. lia.
        -- apply nth_error_None in Hn'. lia.
    + intros Hal.
      destruct (run_checks_nth ticks s0 i (st, a) Hn) as (tk & s' & Htk & Hr).
      exists tk. split; [exact Htk|].
      pose proof (alert_payload tk s') as Hp. rewrite <- Hr in Hp. simpl in Hp.
      rewrite (Hp Hal), Hc. f_equal; lia.
    + destruct a; [reflexivity|discriminate].
Qed.

(** C2. In any state a healthy result sets the count to 0, clears the latch
    and produces no action. Further healthy results then change nothing but
    the time of the last check, and an unhealthy streak that follows produces
    a fresh alert once it reaches the threshold. *)
Theorem healthy_resets_and_rearms :
  forall (s : state) (tk : tick),
    healthy tk ->
    let r := run_check max_failures tk s in
    consecutive_failures (fst r) = 0 /\
    last_alert_sent (fst r) = false /\
    last_check_time (fst r) = Some (fst tk) /\
    snd r = NoAction /\
    (forall hs st a,
        Forall healthy hs -> In (st, a) (run_checks max_failures hs (fst r)) ->
        same_counters st (fst r) /\ a = NoAction) /\
    (forall streak,
        Forall unhealthy streak ->
        (1 <= List.length streak)%nat ->
        max_failures <= Z.of_nat (List.length streak) ->
        count_alerts (run_checks max_failures streak (fst r)) = 1%nat /\
        forall i st a,
          nth_error (run_checks max_failures streak (fst r)) i = Some (st, a) ->
          (is_alert a = true <-> Z.of_nat (S i) = Z.max 1 max_failures)).
Proof.
  intros s tk Hh r. subst r. rewrite (run_check_healthy tk s Hh). cbn [fst snd].
  cbn [consecutive_failures last_alert_sent last_check_time].
  repeat (split; [reflexivity|]). split.
  - intros hs st a Hhs Hin.
    destruct (healthy_run_all_quiet hs Hhs _ st a Hin) as (H1 & H2 & H3).
    unfold same_counters. cbn. auto.
  - intros streak Hu Hlen Hth. split.
    + rewrite (streak_count streak Hu). cbn.
      destruct (Z.leb_spec max_failures (Z.of_nat (List.length streak)));
        destruct (Z.leb_spec 1 (Z.of_nat (List.length streak)));
        cbn [andb]; try reflexivity; lia.
    + intros i st a Hn.
      destruct (streak_nth streak Hu _ i st a Hn) as (Hc & _ & Ha).
      unfold latch_before in Ha. cbn in Hc, Ha. rewrite Ha, Hc.
      rewrite andb_true_iff, negb_true_iff, andb_false_iff, Z.leb_le, !Z.leb_gt.
      lia.
Qed.

(** C3. The latch invariant (latch set only while the count is at or above
    the threshold) holds in the initial state, is kept by every [run_check]
    step, and so holds in every reachable state. *)
Theorem latch_only_at_or_above_threshold :
  1 <= max_failures ->
  latch_inv max_failures (@init timestamp) /\
  (forall (s : state) (tk : tick),
      latch_inv max_failures s ->
      latch_inv max_failures (fst (run_check max_failures tk s))) /\
  (forall s : state, reachable max_failures s -> latch_inv max_failures s) /\
  (forall ticks : list tick,
      latch_inv max_failures (final_state max_failures ticks init)).
Proof.
  intros _.
  assert (H0 : latch_inv max_failures (@init timestamp)) by (unfold latch_inv; discriminate).
  split; [exact H0|]. split; [intros s tk; apply latch_inv_step|]. split.
  - induction 1 as [|s tk _ IH]; [exact H0|apply latch_inv_step; exact IH].
  - intros ticks. unfold final_state. generalize (@init timestamp) H0.
    induction ticks as [|tk rest IH]; intros s Hs; [exact Hs|].
    simpl. apply IH. apply latch_inv_step. exact Hs.
Qed.

End TrackerFacts.


Example scenario_two_failures : alerts_of [down 1; down 2] = [false; true].
Proof. reflexivity. Qed.

Example scenario_suppressed_repeat :
  alerts_of [down 1; down 2; down 3] = [false; true; false].
Proof. reflexivity. Qed.

Example scenario_rearmed_after_recovery :
  alerts_of [down 1; down 2; up 3; down 4; down 5] = [false; true; false; false; true].
Proof. reflexivity. Qed.

Example scenario_alert_payload :
  map snd (Tracker.run_checks 2 [down 1; down 2; down 3] Tracker.init)
  = [Tracker.NoAction; Tracker.SendAlert (Some "Request timeout") 2 2; Tracker.NoAction].
Proof. reflexivity. Qed.

Lemma one_alert_per_unhealthy_streak_witness :
  Forall Tracker.unhealthy [down 1; down 2; down 3] /\
  Tracker.count_alerts (Tracker.run_checks 2 [down 1; down 2; down 3] Tracker.init) = 1%nat.
Proof.
  assert (Hu : Forall Tracker.unhealthy [down 1; down 2; down 3])
    by (repeat constructor).
  split; [exact Hu|].
  refine (proj1 (proj2 (one_alert_per_unhealthy_streak 2 [down 1; down 2; down 3]
                          Tracker.init eq_refl eq_refl Hu _ _))).
  - simpl. lia.
  - simpl. lia.
Defined.

Lemma healthy_resets_and_rearms_witness :
  Tracker.healthy (up 9) /\
  Tracker.consecutive_failures
    (fst (Tracker.run_check 2 (up 9) (Tracker.mk_state (Some 8) 5 true))) = 0.
Proof.
  split; [reflexivity|].
  exact (proj1 (healthy_resets_and_rearms 2 (Tracker.mk_state (Some 8) 5 true) (up 9)
                  eq_refl)).
Defined.

Lemma latch_only_at_or_above_threshold_witness :
  1 <= 2 /\
  Tracker.latch_inv 2 (Tracker.final_state 2 [down 1; down 2; down 3] Tracker.init).
Proof.
  split; [lia|].
  refine (proj2 (proj2 (proj2 (latch_only_at_or_above_threshold (timestamp := Z) 2 _)))
            [down 1; down 2; down 3]).
  lia.
Defined.

(** ** The calendar *)

Section CalendarFacts.
Import Datetime.

Lemma ord2ymd_unfold (ordinal : Z) :
  ord2ymd ordinal =
    let '(n400, n100, n4, n1, n) := split_ordinal ordinal in
    let year := n400 * 400 + 1 + n100 * 100 + n4 * 4 + n1 in
    if (n1 =? 4) || (n100 =? 4) then (year - 1, 12, 31)
    else
      let '(m, d) := month_day ((n1 =? 3) && (negb (n4 =? 24) || (n100 =? 3))) n in
      (year, m, d).
Proof.
  unfold ord2ymd, split_ordinal, month_day. cbv zeta.
  repeat match goal with |- context [if ?c then _ else _] => destruct c end;
    reflexivity.
Qed.

Lemma split_ordinal_bounds (ordinal : Z) :
  1 <= ordinal <= MAXORDINAL ->
  let '(n400, n100, n4, n1, n) := split_ordinal ordinal in
  ordinal - 1 = 146097 * n400 + 36524 * n100 + 1461 * n4 + 365 * n1 + n /\
  0 <= n400 <= 24 /\ 0 <= n100 <= 4 /\ 0 <= n4 <= 24 /\ 0 <= n1 <= 4 /\ 0 <= n < 365 /\
  36524 * n100 + 1461 * n4 + 365 * n1 + n < 146097 /\
  1461 * n4 + 365 * n1 + n < 36524 /\
  365 * n1 + n < 1461.
Proof.
  unfold MAXORDINAL, split_ordinal, DI400Y, DI100Y, DI4Y. cbv zeta. intros H.
  Z.div_mod_to_equations. lia.
Qed.

Lemma month_day_ok_all (leapyear : bool) (n : Z) :
  0 <= n < 365 -> month_day_ok leapyear n = true.
Proof.
  intros H.
  assert (Hall : forallb (fun k => month_day_ok leapyear (Z.of_nat k)) (seq 0 365) = true)
    by (destruct leapyear; vm_compute; reflexivity).
  rewrite forallb_forall in Hall.
  specialize (Hall (Z.to_nat n)). rewrite Z2Nat.id in Hall by lia.
  apply Hall. apply in_seq. lia.
Qed.

Lemma days_before_year_split (a b c e : Z) :
  0 <= b <= 3 -> 0 <= c <= 24 -> 0 <= e <= 3 ->
  days_before_year (400 * a + 100 * b + 4 * c + e + 1)
  = 146097 * a + 36524 * b + 1461 * c + 365 * e.
Proof.
  intros Hb Hc He. unfold days_before_year. cbv zeta.
  replace (400 * a + 100 * b + 4 * c + e + 1 - 1) with (400 * a + 100 * b + 4 * c + e) by lia.
  Z.div_mod_to_equations. lia.
Qed.

Lemma is_leap_split (a b c e : Z) :
  0 <= b <= 3 -> 0 <= c <= 24 -> 0 <= e <= 3 ->
  is_leap (400 * a + 100 * b + 4 * c + e + 1)
  = (e =? 3) && (negb (c =? 24) || (b =? 3)).
Proof.
  intros Hb Hc He. unfold is_leap.
  destruct (Z.eqb_spec e 3) as [He3|He3];
  destruct (Z.eqb_spec c 24) as [Hc24|Hc24];
  destruct (Z.eqb_spec b 3) as [Hb3|Hb3];
  destruct (Z.eqb_spec ((400 * a + 100 * b + 4 * c + e + 1) mod 4) 0) as [H4|H4];
  destruct (Z.eqb_spec ((400 * a + 100 * b + 4 * c + e + 1) mod 100) 0) as [H100|H100];
  destruct (Z.eqb_spec ((400 * a + 100 * b + 4 * c + e + 1) mod 400) 0) as [H400|H400];
  cbn [andb orb negb]; try reflexivity; exfalso;
  revert H4 H100 H400; Z.div_mod_to_equations; lia.
Qed.

Lemma days_in_month_alt (y m : Z) :
  days_in_month y m = DAYS_IN_MONTH m + (if (m =? 2) && is_leap y then 1 else 0).
Proof.
  unfold days_in_month. destruct (Z.eqb_spec m 2) as [->|_]; cbn [andb].
  - destruct (is_leap y); reflexivity.
  - lia.
Qed.

(** [_ord2ymd] yields a date of the calendar, and [_ymd2ord] takes it back. *)
Lemma ord2ymd_correct (ordinal : Z) :
  1 <= ordinal <= MAXORDINAL ->
  let '(y, m, d) := ord2ymd ordinal in
  check_date_fields y m d = true /\ ymd2ord y m d = ordinal.
Proof.
  intros Hn. rewrite ord2ymd_unfold.
  pose proof (split_ordinal_bounds ordinal Hn) as Hb.
  destruct (split_ordinal ordinal) as [[[[a b] c] e] r].
  destruct Hb as (Hsum & Ha & Hb & Hc & He & Hr & H400 & H100 & H4).
  unfold MAXORDINAL in Hn. cbv zeta.
  destruct ((e =? 4) || (b =? 4)) eqn:Hsp.
  - (* the last day of a leap year *)
    apply orb_true_iff in Hsp.
    assert (Hy : exists b' c',
               0 <= b' <= 3 /\ 0 <= c' <= 24 /\ (c' = 24 -> b' = 3) /\
               a * 400 + 1 + b * 100 + c * 4 + e - 1 = 400 * a + 100 * b' + 4 * c' + 3 + 1 /\
               ordinal = 146097 * a + 36524 * b' + 1461 * c' + 365 * 3 + 366).
    { destruct Hsp as [H|H]; apply Z.eqb_eq in H.
      - exists b, c. repeat split; try lia.
      - exists 3, 24. repeat split; try lia. }
    destruct Hy as (b' & c' & Hb' & Hc' & Hbc & Hyear & Hord). rewrite Hyear.
    unfold check_date_fields, ymd2ord, days_before_month, MAXYEAR.
    rewrite days_in_month_alt, days_before_year_split, is_leap_split by lia.
    replace ((3 =? 3) && (negb (c' =? 24) || (b' =? 3))) with true.
    2:{ symmetry. cbn [Z.eqb Pos.eqb andb].
        destruct (Z.eqb_spec c' 24); cbn [negb orb]; [|reflexivity].
        apply Z.eqb_eq. auto. }
    cbn [Z.eqb Z.ltb Z.compare Pos.compare Pos.compare_cont andb DAYS_IN_MONTH DAYS_BEFORE_MONTH].
    split; [|lia].
    repeat (apply andb_true_iff; split); try reflexivity; apply Z.leb_le; lia.
  - (* any other day *)
    apply orb_false_iff in Hsp. destruct Hsp as [He4 Hb4].
    apply Z.eqb_neq in He4, Hb4.
    pose proof (month_day_ok_all ((e =? 3) && (negb (c =? 24) || (b =? 3))) r Hr) as Hmd.
    unfold month_day_ok in Hmd.
    destruct (month_day ((e =? 3) && (negb (c =? 24) || (b =? 3))) r) as [m d].
    repeat (apply andb_true_iff in Hmd; destruct Hmd as [Hmd ?]).
    replace (a * 400 + 1 + b * 100 + c * 4 + e) with (400 * a + 100 * b + 4 * c + e + 1)
      by lia.
    unfold check_date_fields, ymd2ord, days_before_month, MAXYEAR.
    rewrite days_in_month_alt, days_before_year_split, is_leap_split by lia.
    split.
    + repeat (apply andb_true_iff; split); try assumption; apply Z.leb_le; lia.
    + match goal with H : (_ =? r + 1) = true |- _ => apply Z.eqb_eq in H end. lia.
Qed.

End CalendarFacts.

(** ** Arithmetic on [datetime] *)

Section DatetimeArithmetic.
Import Py Datetime.

Lemma benign_return {A : Type} (a : A) : benign (Return a).
Proof. intros e H; discriminate. Qed.

Lemma benign_raise {A : Type} (e : exn) :
  isinstance e Exception = true -> benign (@Raise A e).
Proof. intros H e' E. injection E as <-. exact H. Qed.

Lemma benign_bind {A B : Type} (m : outcome A) (k : A -> outcome B) :
  benign m -> (forall a, benign (k a)) -> benign (bind m k).
Proof.
  intros Hm Hk e. destruct m as [a|e']; cbn.
  - apply Hk.
  - intros E. injection E as <-. apply Hm. reflexivity.
Qed.

Lemma fromisoformat_benign (s : string) : benign (fromisoformat s).
Proof.
  intros e H. unfold fromisoformat, invalid_isoformat in H.
  repeat match type of H with
         | context [match ?x with _ => _ end] => destruct x
         end;
    try discriminate; injection H as <-; reflexivity.
Qed.

Lemma add_timedelta_benign (dt : datetime) (delta : Z) : benign (add_timedelta dt delta).
Proof.
  intros e H. unfold add_timedelta in H.
  repeat match type of H with
         | context [match ?x with _ => _ end] => destruct x
         end;
    try discriminate; injection H as <-; reflexivity.
Qed.

Lemma add_timedelta_tzinfo (dt dt' : datetime) (delta : Z) :
  add_timedelta dt delta = Return dt' -> tzinfo dt' = tzinfo dt.
Proof.
  unfold add_timedelta. intros H.
  repeat match type of H with
         | context [match ?x with _ => _ end] => destruct x
         end;
    try discriminate; injection H as <-; reflexivity.
Qed.

Lemma add_timedelta_raises (dt : datetime) (delta : Z) (e : exn) :
  add_timedelta dt delta = Raise e -> exn_class e = OverflowError.
Proof.
  unfold add_timedelta. intros H.
  repeat match type of H with
         | context [match ?x with _ => _ end] => destruct x
         end;
    try discriminate; injection H as <-; reflexivity.
Qed.

Lemma to_utc_benign (dt : datetime) : benign (to_utc dt).
Proof.
  unfold to_utc, astimezone_utc. destruct (tzinfo dt) as [off|];
    [|apply benign_return].
  destruct (off =? 0); [apply benign_return|].
  apply benign_bind; [apply add_timedelta_benign|intros; apply benign_return].
Qed.

(** Whatever [to_utc] returns is in UTC. *)
Lemma to_utc_is_utc (dt u : datetime) : to_utc dt = Return u -> tzinfo u = utc.
Proof.
  unfold to_utc, astimezone_utc. destruct (tzinfo dt) as [off|] eqn:Htz.
  - destruct (Z.eqb_spec off 0) as [->|_].
    + intros H. injection H as <-. exact Htz.
    + destruct (add_timedelta dt (- off)); cbn; intros H; [|discriminate].
      injection H as <-. reflexivity.
  - intros H. injection H as <-. reflexivity.
Qed.


Lemma instant_local_us (dt : datetime) :
  instant dt = local_us dt - match tzinfo dt with Some off => off | None => 0 end.
Proof. reflexivity. Qed.

Lemma well_formed_fields (dt : datetime) :
  well_formed dt = true ->
  check_date_fields (year dt) (month dt) (day dt) = true /\
  (0 <= hour dt <= 23 /\ 0 <= minute dt <= 59 /\ 0 <= second dt <= 59
   /\ 0 <= microsecond dt <= 999999) /\
  (forall off, tzinfo dt = Some off -> - DAY_US < off < DAY_US).
Proof.
  unfold well_formed. intros H.
  apply andb_true_iff in H. destruct H as [H Htz].
  apply andb_true_iff in H. destruct H as [Hd Ht].
  split; [exact Hd|]. split.
  - unfold check_time_fields in Ht.
    repeat (apply andb_true_iff in Ht; destruct Ht as [Ht ?]).
    repeat match goal with
           | H : (_ <=? _) = true |- _ => apply Z.leb_le in H
           end.
    lia.
  - intros off Hoff. rewrite Hoff in Htz. unfold check_offset in Htz.
    apply andb_true_iff in Htz. destruct Htz as [H1 H2].
    apply Z.ltb_lt in H1, H2. lia.
Qed.

Lemma well_formed_intro (dt : datetime) :
  check_date_fields (year dt) (month dt) (day dt) = true ->
  0 <= hour dt <= 23 -> 0 <= minute dt <= 59 -> 0 <= second dt <= 59 ->
  0 <= microsecond dt <= 999999 ->
  (forall off, tzinfo dt = Some off -> - DAY_US < off < DAY_US) ->
  well_formed dt = true.
Proof.
  intros Hd Hh Hm Hs Hu Ht. unfold well_formed, check_time_fields, check_offset.
  rewrite Hd. cbn [andb].
  apply andb_true_iff. split.
  - repeat (apply andb_true_iff; split); apply Z.leb_le; lia.
  - destruct (tzinfo dt) as [off|]; [|reflexivity].
    specialize (Ht off eq_refl). apply andb_true_iff. split; apply Z.ltb_lt; lia.
Qed.

(** [dt + delta] is a well-formed value [delta] microseconds further along. *)
Lemma add_timedelta_correct (dt dt' : datetime) (delta : Z) :
  well_formed dt = true ->
  add_timedelta dt delta = Return dt' ->
  well_formed dt' = true /\ local_us dt' = local_us dt + delta /\ tzinfo dt' = tzinfo dt.
Proof.
  intros Hwf. destruct (well_formed_fields dt Hwf) as (_ & _ & Htz).
  unfold add_timedelta. fold (local_us dt).
  set (total := local_us dt + delta).
  destruct ((0 <? total / DAY_US) && (total / DAY_US <=? MAXORDINAL)) eqn:Hrange;
    [|discriminate].
  apply andb_true_iff in Hrange. destruct Hrange as [H0 H1].
  apply Z.ltb_lt in H0. apply Z.leb_le in H1.
  pose proof (ord2ymd_correct (total / DAY_US) ltac:(lia)) as Hord.
  destruct (ord2ymd (total / DAY_US)) as [[y m] d]. destruct Hord as [Hdate Hback].
  intros H. injection H as <-.
  assert (Hrest : 0 <= total mod DAY_US < 86400000000)
    by (apply Z.mod_pos_bound; reflexivity).
  assert (Htotal : total = total / DAY_US * DAY_US + total mod DAY_US).
  { rewrite Z.mul_comm. apply Z.div_mod. discriminate. }
  change DAY_US with 86400000000 in *.
  set (rest := total mod 86400000000) in *.
  split; [|split; [|reflexivity]].
  - apply well_formed_intro; cbn [year month day hour minute second microsecond tzinfo];
      try assumption; try (Z.div_mod_to_equations; lia).
  - unfold local_us, toordinal, us_of_day.
    cbn [year month day hour minute second microsecond]. rewrite Hback.
    rewrite Htotal at 2.
    f_equal. fold rest. Z.div_mod_to_equations. lia.
Qed.

(** Conversion to UTC keeps the instant and yields a well-formed value in UTC. *)
Lemma to_utc_correct (dt u : datetime) :
  well_formed dt = true ->
  to_utc dt = Return u ->
  well_formed u = true /\ tzinfo u = utc /\ instant u = instant dt.
Proof.
  intros Hwf Hu. pose proof (to_utc_is_utc dt u Hu) as Hutc.
  destruct (well_formed_fields dt Hwf) as (Hd & Ht & Htz).
  unfold to_utc, astimezone_utc in Hu. destruct (tzinfo dt) as [off|] eqn:Hoff.
  - destruct (Z.eqb_spec off 0) as [->|Hne].
    + injection Hu as <-. auto.
    + destruct (add_timedelta dt (- off)) as [shifted|] eqn:Hadd; [|discriminate].
      cbn in Hu. injection Hu as <-.
      destruct (add_timedelta_correct dt shifted (- off) Hwf Hadd) as (Hw & Hl & _).
      destruct (well_formed_fields shifted Hw) as (Hd' & Ht' & _).
      split; [|split; [reflexivity|]].
      * apply well_formed_intro; cbn; try tauto.
        intros o Ho. injection Ho as <-. change DAY_US with 86400000000. lia.
      * rewrite !instant_local_us, Hoff. cbn [tzinfo replace_tzinfo utc].
        change (local_us (replace_tzinfo shifted utc)) with (local_us shifted). lia.
  - injection Hu as <-. split; [|split; [reflexivity|]].
    + apply well_formed_intro; cbn; try tauto.
      intros o Ho. injection Ho as <-. change DAY_US with 86400000000. lia.
    + rewrite !instant_local_us, Hoff. cbn [tzinfo replace_tzinfo utc].
      change (local_us (replace_tzinfo dt utc)) with (local_us dt). lia.
Qed.

(** A naive value and a value already in UTC always convert. *)
Lemma to_utc_returns (dt : datetime) :
  tzinfo dt = None \/ tzinfo dt = utc ->
  to_utc dt = Return (replace_tzinfo dt utc).
Proof.
  unfold to_utc, astimezone_utc. intros [H|H]; rewrite H; [reflexivity|].
  cbn. destruct dt; cbn in *. now rewrite H.
Qed.

End DatetimeArithmetic.

(** ** Printing and parsing decimal fields *)

Section DigitFacts.
Import Py Datetime.

Lemma string_app_nil_r (s : string) : (s ++ "")%string = s.
Proof. induction s as [|c s IH]; cbn; [reflexivity|now rewrite IH]. Qed.

Lemma string_app_assoc (a b c : string) : ((a ++ b) ++ c)%string = (a ++ b ++ c)%string.
Proof. induction a as [|x a IH]; cbn; [reflexivity|now rewrite IH]. Qed.

Lemma string_length_app (a b : string) :
  String.length (a ++ b) = (String.length a + String.length b)%nat.
Proof. induction a as [|x a IH]; cbn; [reflexivity|now rewrite IH]. Qed.

Lemma digit_val_digit_char (d : Z) : 0 <= d <= 9 -> digit_val (digit_char d) = Some d.
Proof.
  intros H.
  assert (Hd : d = 0 \/ d = 1 \/ d = 2 \/ d = 3 \/ d = 4 \/ d = 5 \/ d = 6 \/ d = 7
               \/ d = 8 \/ d = 9) by lia.
  destruct Hd as [->|[->|[->|[->|[->|[->|[->|[->|[->| ->]]]]]]]]]; reflexivity.
Qed.

Lemma length_digits_of (k : nat) (n : Z) : String.length (digits_of k n) = k.
Proof.
  revert n; induction k as [|k IH]; intro n; cbn [digits_of]; [reflexivity|].
  rewrite string_length_app, IH. cbn. lia.
Qed.

(** Reading back what [digits_of] printed. *)
Lemma take_digits_from_digits_of (k j : nat) (n acc : Z) (rest : string) :
  0 <= n < 10 ^ Z.of_nat k ->
  take_digits_from (k + j) acc (digits_of k n ++ rest)
  = take_digits_from j (acc * 10 ^ Z.of_nat k + n) rest.
Proof.
  revert j n acc rest. induction k as [|k IH]; intros j n acc rest Hn.
  - cbn in Hn. assert (n = 0) by lia. subst n. cbn [digits_of Nat.add append].
    f_equal. cbn. lia.
  - cbn [digits_of]. rewrite string_app_assoc.
    replace (S k + j)%nat with (k + S j)%nat by lia.
    assert (Hpow : 10 ^ Z.of_nat (S k) = 10 * 10 ^ Z.of_nat k).
    { rewrite Nat2Z.inj_succ, Z.pow_succ_r by lia. reflexivity. }
    rewrite Hpow in Hn.
    rewrite IH by (Z.div_mod_to_equations; lia).
    cbn [append take_digits_from].
    rewrite digit_val_digit_char by (Z.div_mod_to_equations; lia).
    f_equal. rewrite Hpow. Z.div_mod_to_equations. lia.
Qed.

Lemma take_digits_digits_of (k : nat) (n : Z) (rest : string) :
  0 <= n < 10 ^ Z.of_nat k ->
  take_digits k (digits_of k n ++ rest) = Some (n, rest).
Proof.
  intros Hn. unfold take_digits.
  replace k with (k + 0)%nat at 1 by lia.
  rewrite take_digits_from_digits_of by exact Hn. cbn [take_digits_from].
  f_equal; f_equal; lia.
Qed.

Lemma take_digits_digits_of_end (k : nat) (n : Z) :
  0 <= n < 10 ^ Z.of_nat k ->
  take_digits k (digits_of k n) = Some (n, EmptyString).
Proof.
  intros Hn. rewrite <- (string_app_nil_r (digits_of k n)) at 1.
  apply take_digits_digits_of. exact Hn.
Qed.

Lemma fmt_d_digits (k : nat) (n : Z) :
  0 <= n < 10 ^ Z.of_nat k -> fmt_d k n = digits_of k n.
Proof.
  intros Hn. unfold fmt_d.
  destruct (Z.ltb_spec n 0); [lia|].
  destruct (Z.ltb_spec n (10 ^ Z.of_nat k)); [reflexivity|lia].
Qed.

Lemma all_chars_app (p : ascii -> bool) (a b : string) :
  all_chars p (a ++ b) = all_chars p a && all_chars p b.
Proof.
  induction a as [|c a IH]; cbn; [reflexivity|]. rewrite IH. now rewrite andb_assoc.
Qed.

Lemma all_chars_impl (p q : ascii -> bool) (s : string) :
  (forall c, p c = true -> q c = true) -> all_chars p s = true -> all_chars q s = true.
Proof.
  intros H. induction s as [|c s IH]; cbn; [reflexivity|].
  intros Hs. apply andb_true_iff in Hs. destruct Hs as [Hc Hs].
  rewrite (H c Hc). cbn. auto.
Qed.

Lemma digits_of_digits (k : nat) (n : Z) : all_chars is_digit (digits_of k n) = true.
Proof.
  revert n; induction k as [|k IH]; intro n; cbn [digits_of]; [reflexivity|].
  rewrite all_chars_app, IH. cbn [all_chars andb]. unfold is_digit.
  rewrite digit_val_digit_char by (Z.div_mod_to_equations; lia). reflexivity.
Qed.

Lemma is_digit_not (c d : ascii) :
  is_digit d = false -> is_digit c = true -> Ascii.eqb c d = false.
Proof.
  intros Hd Hc. destruct (Ascii.eqb_spec c d) as [->|]; [congruence|reflexivity].
Qed.

End DigitFacts.

(** ** [fromisoformat] reads what [isoformat] writes *)

Section IsoformatFacts.
Import Py Datetime.

Lemma digit_no_sign (c : ascii) : is_digit c = true -> no_sign c = true.
Proof.
  intros H. unfold no_sign.
  rewrite (is_digit_not c "+" eq_refl H), (is_digit_not c "-" eq_refl H). reflexivity.
Qed.

Lemma digits_no_sign (k : nat) (n : Z) : all_chars no_sign (digits_of k n) = true.
Proof. eapply all_chars_impl; [apply digit_no_sign|apply digits_of_digits]. Qed.

Lemma iso_time_no_sign (h mi s us : Z) : all_chars no_sign (iso_time h mi s us) = true.
Proof.
  unfold iso_time. destruct (us =? 0);
    repeat (rewrite all_chars_app || rewrite digits_no_sign); reflexivity.
Qed.

Lemma iso_offset_no_sign (a : Z) : all_chars no_sign (iso_offset a) = true.
Proof.
  unfold iso_offset. cbv zeta.
  destruct (_ =? 0); [|destruct (_ =? 0)];
    repeat (rewrite all_chars_app || rewrite digits_no_sign); reflexivity.
Qed.

Lemma split_first_none (c : ascii) (s : string) :
  all_chars (fun a => negb (Ascii.eqb a c)) s = true -> split_first c s = None.
Proof.
  induction s as [|a s IH]; cbn; [reflexivity|]. intros H.
  apply andb_true_iff in H. destruct H as [Ha Hs].
  apply negb_true_iff in Ha. rewrite Ha, (IH Hs). reflexivity.
Qed.

Lemma split_first_app (c : ascii) (a b : string) :
  all_chars (fun x => negb (Ascii.eqb x c)) a = true ->
  split_first c (a ++ String c b) = Some (a, b).
Proof.
  induction a as [|x a IH]; cbn.
  - intros _. now rewrite Ascii.eqb_refl.
  - intros H. apply andb_true_iff in H. destruct H as [Hx Ha].
    apply negb_true_iff in Hx. rewrite Hx, (IH Ha). reflexivity.
Qed.

Lemma no_sign_minus (s : string) :
  all_chars no_sign s = true -> all_chars (fun a => negb (Ascii.eqb a "-")) s = true.
Proof.
  apply all_chars_impl. intros c H. unfold no_sign in H.
  apply andb_true_iff in H. tauto.
Qed.

Lemma no_sign_plus (s : string) :
  all_chars no_sign s = true -> all_chars (fun a => negb (Ascii.eqb a "+")) s = true.
Proof.
  apply all_chars_impl. intros c H. unfold no_sign in H.
  apply andb_true_iff in H. tauto.
Qed.

Ltac read_two :=
  rewrite ?take_digits_digits_of, ?take_digits_digits_of_end by (cbn; lia);
  cbn -[digits_of take_digits Z.mul Z.add].

Lemma parse_iso_time (h mi s us : Z) :
  0 <= h < 100 -> 0 <= mi < 100 -> 0 <= s < 100 -> 0 <= us < 1000000 ->
  parse_hh_mm_ss_ff (iso_time h mi s us) = Some (h, mi, s, us).
Proof.
  intros Hh Hm Hs Hu. unfold parse_hh_mm_ss_ff, iso_time.
  destruct (Z.eqb_spec us 0) as [->|Hne].
  - do 3 read_two. reflexivity.
  - do 3 read_two. rewrite length_digits_of. read_two. reflexivity.
Qed.

Lemma parse_iso_offset (a : Z) :
  0 <= a < DAY_US ->
  exists hh mm ss us,
    parse_hh_mm_ss_ff (iso_offset a) = Some (hh, mm, ss, us) /\
    ((hh * 60 + mm) * 60 + ss) * 1000000 + us = a /\
    let len := String.length (iso_offset a) in
    ((len =? 5)%nat || (len =? 8)%nat || (len =? 15)%nat) = true.
Proof.
  change DAY_US with 86400000000. intros Ha.
  unfold parse_hh_mm_ss_ff, iso_offset. cbv zeta.
  set (r := a mod 3600000000). set (ss := r mod 60000000).
  assert (Hhh : 0 <= a / 3600000000 < 100) by (Z.div_mod_to_equations; lia).
  assert (Hmm : 0 <= r / 60000000 < 100) by (subst r; Z.div_mod_to_equations; lia).
  assert (Hs : 0 <= ss / 1000000 < 100) by (subst ss r; Z.div_mod_to_equations; lia).
  assert (Hu : 0 <= ss mod 1000000 < 1000000) by (apply Z.mod_pos_bound; reflexivity).
  assert (Hsum : ((a / 3600000000 * 60 + r / 60000000) * 60 + ss / 1000000) * 1000000
                 + ss mod 1000000 = a)
    by (subst ss r; Z.div_mod_to_equations; lia).
  destruct (Z.eqb_spec ss 0) as [Hz|Hnz].
  - exists (a / 3600000000), (r / 60000000), 0, 0.
    do 2 read_two. split; [reflexivity|]. split.
    + rewrite Hz in Hsum. cbn in Hsum. lia.
    + rewrite !string_length_app, !length_digits_of. reflexivity.
  - destruct (Z.eqb_spec (ss mod 1000000) 0) as [Hz'|Hnz'].
    + exists (a / 3600000000), (r / 60000000), (ss / 1000000), 0.
      do 3 read_two. split; [reflexivity|]. split.
      * lia.
      * rewrite !string_length_app, !length_digits_of. reflexivity.
    + exists (a / 3600000000), (r / 60000000), (ss / 1000000), (ss mod 1000000).
      do 3 read_two. rewrite length_digits_of. read_two.
      split; [reflexivity|]. split.
      * exact Hsum.
      * rewrite !string_length_app, !length_digits_of. reflexivity.
Qed.

Lemma format_offset_digits (tz : option Z) :
  (forall off, tz = Some off -> - DAY_US < off < DAY_US) ->
  format_offset tz = iso_zone tz.
Proof.
  intros Hb. destruct tz as [off|]; [|reflexivity].
  specialize (Hb off eq_refl). change DAY_US with 86400000000 in Hb.
  unfold format_offset, iso_zone, iso_offset. cbv zeta.
  set (a := Z.abs off). assert (Ha : 0 <= a < 86400000000) by (subst a; lia).
  rewrite !fmt_d_digits; [reflexivity|..];
    change (10 ^ Z.of_nat 2) with 100; change (10 ^ Z.of_nat 6) with 1000000;
    Z.div_mod_to_equations; lia.
Qed.

Lemma days_in_month_le (y m : Z) : days_in_month y m <= 31.
Proof.
  unfold days_in_month. destruct ((m =? 2) && is_leap y); [lia|].
  unfold DAYS_IN_MONTH.
  repeat match goal with |- context [match ?x with _ => _ end] => destruct x end; lia.
Qed.

(** [isoformat] of a well-formed value, field by field. *)
Lemma isoformat_well_formed (dt : datetime) :
  well_formed dt = true ->
  isoformat dt =
    (digits_of 4 (year dt) ++ "-" ++ digits_of 2 (month dt) ++ "-" ++ digits_of 2 (day dt)
     ++ "T" ++ iso_time (hour dt) (minute dt) (second dt) (microsecond dt)
     ++ iso_zone (tzinfo dt))%string.
Proof.
  intros Hwf. destruct (well_formed_fields dt Hwf) as (Hd & Ht & Htz).
  unfold check_date_fields, MAXYEAR in Hd.
  repeat (apply andb_true_iff in Hd; destruct Hd as [Hd ?]).
  repeat match goal with
         | H : (_ <=? _) = true |- _ => apply Z.leb_le in H
         end.
  pose proof (days_in_month_le (year dt) (month dt)).
  unfold isoformat. rewrite (format_offset_digits _ Htz).
  rewrite !fmt_d_digits;
    try (change (10 ^ Z.of_nat 2) with 100; change (10 ^ Z.of_nat 4) with 10000;
         change (10 ^ Z.of_nat 6) with 1000000; lia).
  unfold iso_time. rewrite !string_app_assoc. reflexivity.
Qed.

Lemma iso_time_length (h mi s us : Z) (rest : string) :
  (String.length (iso_time h mi s us ++ rest) <? 2)%nat = false.
Proof.
  unfold iso_time. rewrite !string_length_app, length_digits_of.
  apply Nat.ltb_ge. lia.
Qed.

Lemma parse_time_zone (h mi s us : Z) (tz : option Z) :
  0 <= h < 100 -> 0 <= mi < 100 -> 0 <= s < 100 -> 0 <= us < 1000000 ->
  (forall off, tz = Some off -> - DAY_US < off < DAY_US) ->
  parse_isoformat_time (iso_time h mi s us ++ iso_zone tz) = Some (h, mi, s, us, tz).
Proof.
  intros Hh Hm Hs Hu Htz. unfold parse_isoformat_time.
  rewrite iso_time_length.
  pose proof (iso_time_no_sign h mi s us) as Hns.
  destruct tz as [off|]; cbn [iso_zone].
  - specialize (Htz off eq_refl).
    destruct (parse_iso_offset (Z.abs off)) as (hh & mm & ss & tus & Hp & Hsum & Hlen);
      [lia|].
    cbv zeta in Hlen.
    pose proof (iso_offset_no_sign (Z.abs off)) as Hzs.
    destruct (Z.ltb_spec off 0) as [Hneg|Hpos].
    + change ("-" ++ iso_offset (Z.abs off))%string
        with (String "-" (iso_offset (Z.abs off))).
      rewrite split_first_app by (apply no_sign_minus; exact Hns).
      cbn [fst snd]. rewrite parse_iso_time by assumption.
      rewrite Hlen. cbn [negb]. rewrite Hp.
      replace (-1 * (((hh * 60 + mm) * 60 + ss) * 1000000 + tus)) with off by lia.
      replace (check_offset off) with true; [reflexivity|].
      symmetry. unfold check_offset. apply andb_true_iff. split; apply Z.ltb_lt; lia.
    + change ("+" ++ iso_offset (Z.abs off))%string
        with (String "+" (iso_offset (Z.abs off))).
      rewrite split_first_none.
      2:{ rewrite all_chars_app. cbn [all_chars].
          rewrite (no_sign_minus _ Hns), (no_sign_minus _ Hzs). reflexivity. }
      rewrite split_first_app by (apply no_sign_plus; exact Hns).
      cbn [fst snd]. rewrite parse_iso_time by assumption.
      rewrite Hlen. cbn [negb]. rewrite Hp.
      replace (1 * (((hh * 60 + mm) * 60 + ss) * 1000000 + tus)) with off by lia.
      replace (check_offset off) with true; [reflexivity|].
      symmetry. unfold check_offset. apply andb_true_iff. split; apply Z.ltb_lt; lia.
  - rewrite string_app_nil_r.
    rewrite (split_first_none "-") by (apply no_sign_minus; exact Hns).
    rewrite (split_first_none "+") by (apply no_sign_plus; exact Hns).
    cbn [fst snd]. rewrite parse_iso_time by assumption. reflexivity.
Qed.

(** [fromisoformat] gives back every well-formed value [isoformat] printed. *)
Lemma fromisoformat_isoformat (dt : datetime) :
  well_formed dt = true -> fromisoformat (isoformat dt) = Return dt.
Proof.
  intros Hwf. rewrite (isoformat_well_formed dt Hwf).
  destruct (well_formed_fields dt Hwf) as (Hd & Ht & Htz).
  pose proof Hd as Hd'. unfold check_date_fields, MAXYEAR in Hd'.
  repeat (apply andb_true_iff in Hd'; destruct Hd' as [Hd' ?]).
  repeat match goal with
         | H : (_ <=? _) = true |- _ => apply Z.leb_le in H
         end.
  pose proof (days_in_month_le (year dt) (month dt)).
  unfold fromisoformat.
  rewrite take_digits_digits_of by (change (10 ^ Z.of_nat 4) with 10000; lia).
  cbn [append].
  rewrite take_digits_digits_of by (change (10 ^ Z.of_nat 2) with 100; lia).
  cbn [append].
  rewrite take_digits_digits_of by (change (10 ^ Z.of_nat 2) with 100; lia).
  cbn [append].
  destruct (iso_time (hour dt) (minute dt) (second dt) (microsecond dt)
            ++ iso_zone (tzinfo dt))%string as [|c rest] eqn:E.
  { exfalso.
    pose proof (iso_time_length (hour dt) (minute dt) (second dt) (microsecond dt)
                  (iso_zone (tzinfo dt))) as Hl.
    rewrite E in Hl. discriminate. }
  rewrite <- E. rewrite parse_time_zone by (try lia; exact Htz).
  rewrite Hd.
  replace (check_time_fields (hour dt) (minute dt) (second dt) (microsecond dt)) with true.
  2:{ symmetry. unfold check_time_fields.
      repeat (apply andb_true_iff; split); apply Z.leb_le; lia. }
  cbn [andb]. destruct dt; reflexivity.
Qed.

End IsoformatFacts.

(** ** The Zulu form of a stored expiry *)

Section ZuluFacts.
Import Py Datetime Credential.

Lemma string_of_uint_not_plus (d : Decimal.uint) :
  all_chars not_plus (NilEmpty.string_of_uint d) = true.
Proof.
  induction d as [|d IH|d IH|d IH|d IH|d IH|d IH|d IH|d IH|d IH|d IH];
    [reflexivity|..]; cbn [NilEmpty.string_of_uint all_chars]; rewrite IH; reflexivity.
Qed.

Lemma string_of_Z_not_plus (n : Z) : all_chars not_plus (string_of_Z n) = true.
Proof.
  assert (H : forall d, all_chars not_plus (NilZero.string_of_uint d) = true).
  { intros d. destruct d; [reflexivity|..]; exact (string_of_uint_not_plus _). }
  unfold string_of_Z, NilZero.string_of_int.
  destruct (Z.to_int n) as [d|d]; cbn [all_chars]; rewrite H; reflexivity.
Qed.

Lemma digits_not_plus (k : nat) (n : Z) : all_chars not_plus (digits_of k n) = true.
Proof.
  eapply all_chars_impl; [|apply digits_no_sign].
  intros c H. unfold no_sign in H. apply andb_true_iff in H. tauto.
Qed.

Lemma fmt_d_not_plus (k : nat) (n : Z) : all_chars not_plus (fmt_d k n) = true.
Proof.
  unfold fmt_d.
  repeat match goal with |- context [if ?c then _ else _] => destruct c end;
    try apply string_of_Z_not_plus; try apply digits_not_plus;
    cbn [append all_chars]; apply digits_not_plus.
Qed.

Lemma isoformat_split (dt : datetime) :
  isoformat dt = (iso_naive dt ++ format_offset (tzinfo dt))%string.
Proof.
  unfold iso_naive, isoformat. cbn [replace_tzinfo year month day hour minute second
                                     microsecond tzinfo format_offset].
  rewrite !string_app_assoc. cbn [append]. reflexivity.
Qed.

Lemma iso_naive_not_plus (dt : datetime) : all_chars not_plus (iso_naive dt) = true.
Proof.
  unfold iso_naive, isoformat. cbn [replace_tzinfo year month day hour minute second
                                     microsecond tzinfo format_offset].
  destruct (microsecond dt =? 0);
    repeat (rewrite all_chars_app || rewrite fmt_d_not_plus); reflexivity.
Qed.

Lemma replace_zulu (s : string) :
  all_chars not_plus s = true ->
  str_replace "+00:00" "Z" (s ++ "+00:00") = (s ++ "Z")%string.
Proof.
  unfold str_replace. induction s as [|c s IH]; [reflexivity|].
  intros H. cbn [all_chars] in H. apply andb_true_iff in H. destruct H as [Hc Hs].
  cbn [append replace_from].
  replace (prefix "+00:00" (String c (s ++ "+00:00"))) with false.
  - rewrite (IH Hs). reflexivity.
  - cbn [prefix]. unfold not_plus in Hc. apply negb_true_iff in Hc.
    destruct (ascii_dec "+" c) as [<-|]; [discriminate|reflexivity].
Qed.

(** In UTC the stored string is the naive text followed by [Z]. *)
Lemma zulu_string_utc (u : datetime) :
  tzinfo u = utc -> zulu_string u = (iso_naive u ++ "Z")%string.
Proof.
  intros Hu. unfold zulu_string. rewrite isoformat_split, Hu.
  change (format_offset utc) with "+00:00".
  apply replace_zulu, iso_naive_not_plus.
Qed.

Lemma endswith_last (z c : ascii) (s : string) :
  endswith (String z "") (s ++ String c "") = Ascii.eqb z c.
Proof.
  induction s as [|a s IH].
  - cbn. destruct (Ascii.eqb z c); reflexivity.
  - cbn [append endswith]. rewrite IH.
    destruct (s ++ String c "")%string eqn:E.
    + destruct s; discriminate.
    + cbn [String.eqb]. destruct (Ascii.eqb z a); reflexivity.
Qed.

Lemma drop_last_last (c : ascii) (s : string) : drop_last (s ++ String c "") = s.
Proof.
  induction s as [|a s IH]; [reflexivity|].
  cbn [append drop_last]. rewrite IH.
  destruct (s ++ String c "")%string eqn:E; [destruct s; discriminate|reflexivity].
Qed.






(** Loading the Zulu form of a value in UTC gives that value. *)
Lemma load_expiry_zulu (u : datetime) :
  well_formed u = true -> tzinfo u = utc ->
  load_expiry (JStr (zulu_string u)) = Return u.
Proof.
  intros Hwf Hu. unfold load_expiry. rewrite (zulu_string_utc u Hu).
  change "Z" with (String "Z" "") at 1 2.
  rewrite endswith_last, drop_last_last. cbn [Ascii.eqb Bool.eqb andb].
  replace (iso_naive u ++ "+00:00")%string with (isoformat u).
  - rewrite (fromisoformat_isoformat u Hwf). cbn [bind].
    rewrite (to_utc_returns u (or_intror Hu)).
    destruct u; cbn in *. now rewrite Hu.
  - rewrite isoformat_split, Hu. reflexivity.
Qed.

End ZuluFacts.

(** ** Round trip of the stored expiry *)

Section ExpiryRoundTrip.
Import Py Datetime Credential.


End ExpiryRoundTrip.

Example zulu_expiry_is_kept :
  Credential.fix_expiry (Py.JStr "2025-01-01T00:00:00Z")
  = Py.Return (Py.JStr "2025-01-01T00:00:00Z").
Proof. reflexivity. Qed.

Example naive_expiry_becomes_zulu :
  Credential.fix_expiry (Py.JStr "2025-01-01T00:00:00")
  = Py.Return (Py.JStr "2025-01-01T00:00:00Z").
Proof. reflexivity. Qed.

Example offset_expiry_becomes_zulu :
  Credential.fix_expiry (Py.JStr "2025-01-01T05:30:00+05:30")
  = Py.Return (Py.JStr "2025-01-01T00:00:00Z")
  /\ Credential.fix_expiry (Py.JStr "2024-12-31T16:00:00-08:00")
     = Py.Return (Py.JStr "2025-01-01T00:00:00Z").
Proof. split; reflexivity. Qed.

Example all_forms_load_the_same_value :
  Credential.load_expiry (Py.JStr "2025-01-01T00:00:00Z")
  = Py.Return (new_year_2025 Datetime.utc)
  /\ Credential.load_expiry (Py.JStr "2025-01-01T00:00:00")
     = Py.Return (new_year_2025 Datetime.utc)
  /\ Credential.load_expiry (Py.JStr "2025-01-01T05:30:00+05:30")
     = Py.Return (new_year_2025 Datetime.utc).
Proof. repeat split; reflexivity. Qed.

Example malformed_expiry_is_an_error :
  Credential.load_expiry (Py.JStr "tomorrow")
  = Py.Raise (Py.mk_exn Py.ValueError "Invalid isoformat string: 'tomorrow'").
Proof. reflexivity. Qed.


(** ** Python strings *)

Section StringFacts.
Import Py.



End StringFacts.

(** ** The probe evaluator *)

Section ProbeFacts.
Import Py Probe.
Variable str_json : json -> string.





Example maintenance_page_is_unhealthy :
  classify (mk_response 200 "<html><body>Service temporarily down</body></html>")
  = (false,
     Some "Website response abnormal: incomplete content (status code: 200, content length: 50 bytes)"%string).
Proof. reflexivity. Qed.

Example marker_page_is_healthy :
  classify (mk_response 200 "<title>C2SMART Center</title>") = (true, None).
Proof. reflexivity. Qed.

Example server_error_is_unhealthy :
  classify (mk_response 503 "<title>C2SMART Center</title>")
  = (false,
     Some "Website returned error status code: 503 (URL: https://c2smart.engineering.nyu.edu/)"%string).
Proof. reflexivity. Qed.

Lemma classify_reason_first_char (r : response) (msg : string) :
  snd (classify r) = Some msg -> first_char msg = Some "W"%char.
Proof.
  unfold classify.
  destruct (status_code r =? 200);
    [destruct (str_in "C2SMART" (text r) || (1000 <? Z.of_nat (String.length (text r))))|];
    cbn [snd]; intros H; try discriminate; injection H as <-; reflexivity.
Qed.

(** [check_website] hands every exception that derives from [Exception], and
    every response, back as a pair; an unhealthy verdict carries a reason and
    a healthy one carries none. *)
Lemma check_website_never_raises (config : dict) (get : outcome response) :
  (forall e, get = Raise e -> isinstance e Exception = true) ->
  exists healthy reason,
    check_website str_json config get = Return (healthy, reason) /\
    (healthy = false -> exists msg, reason = Some msg) /\
    (healthy = true -> reason = None).
Proof.
  intros Hexc. destruct get as [r|e].
  - exists (fst (classify r)), (snd (classify r)). split.
    + cbn. now destruct (classify r).
    + unfold classify.
      destruct (status_code r =? 200);
        [destruct (str_in "C2SMART" (text r)
                   || (1000 <? Z.of_nat (String.length (text r))))|];
        cbn [fst snd]; split; intros H; try discriminate; eauto.
  - specialize (Hexc e eq_refl).
    unfold check_website, try_except. cbn [bind dispatch existsb].
    rewrite !orb_false_r, Hexc.
    destruct (isinstance e Timeout); [eexists _, _; split; [reflexivity|]|].
    { split; intros H; [eauto|discriminate]. }
    destruct (isinstance e ConnectionError).
    { destruct (str_in "Name or service not known" (exn_str e)
                || str_in "nodename nor servname provided" (exn_str e));
        [|destruct (str_in "Connection refused" (exn_str e))];
        eexists _, _; (split; [reflexivity|]); split; intros H; eauto; discriminate. }
    destruct (isinstance e SSLError);
      [|destruct (isinstance e TooManyRedirects);
        [|destruct (isinstance e RequestException)]];
      eexists _, _; (split; [reflexivity|]); split; intros H; eauto; discriminate.
Qed.

(** Every [SSLError] is a [ConnectionError], so the clause for
    [ConnectionError], which comes first, takes it. *)
Lemma ssl_error_is_connection_error (detail : string) :
  isinstance (mk_exn SSLError detail) ConnectionError = true /\
  isinstance (mk_exn SSLError detail) Timeout = false.
Proof. split; reflexivity. Qed.

(** C6, where the code departs from it. A TLS failure is an [SSLError]; the
    clause for [ConnectionError] precedes the clause for [SSLError] and takes
    it, so the verdict carries the reason of a plain connection error, the
    same as for a [ConnectionError] with that text, and no run of
    [check_website] ever yields the SSL/TLS reason. *)
Theorem tls_failure_reported_as_connection_error :
  forall (config : dict),
    let detail := "[SSL: CERTIFICATE_VERIFY_FAILED] certificate verify failed"%string in
    check_website str_json config (Raise (mk_exn SSLError detail))
    = Return (false,
              Some ("Connection error: Unable to connect to server at https://c2smart.engineering.nyu.edu/. Details: "
                    ++ detail)%string) /\
    check_website str_json config (Raise (mk_exn SSLError detail))
    = check_website str_json config (Raise (mk_exn ConnectionError detail)) /\
    (forall (get : outcome response) (healthy : bool) (d : string),
        check_website str_json config get <> Return (healthy, Some (ssl_reason d))).
Proof.
  intros config detail. split; [reflexivity|]. split; [reflexivity|].
  intros get healthy d Heq.
  assert (Hd : first_char (ssl_reason d) = Some "S"%char) by reflexivity.
  destruct get as [r|e].
  - unfold check_website, try_except in Heq. cbn [bind] in Heq.
    injection Heq as Hc.
    pose proof (classify_reason_first_char r (ssl_reason d)) as Hw.
    rewrite Hc in Hw. specialize (Hw eq_refl). rewrite Hd in Hw. discriminate.
  - unfold check_website, try_except in Heq. cbn [bind dispatch existsb] in Heq.
    rewrite !orb_false_r in Heq.
    destruct (isinstance e Timeout);
      [apply (f_equal reason_head) in Heq; discriminate|].
    destruct (isinstance e ConnectionError) eqn:Hce.
    { destruct (str_in "Name or service not known" (exn_str e)
                || str_in "nodename nor servname provided" (exn_str e));
        [|destruct (str_in "Connection refused" (exn_str e))];
        apply (f_equal reason_head) in Heq; discriminate. }
    destruct (isinstance e SSLError) eqn:Hssl.
    { (* an instance of [SSLError] is an instance of [ConnectionError] *)
      exfalso. clear Heq. unfold isinstance, issubclass in Hce, Hssl.
      induction (exn_class e); cbn in Hce, Hssl; try discriminate; auto. }
    destruct (isinstance e TooManyRedirects);
      [|destruct (isinstance e RequestException);
        [|destruct (isinstance e Exception)]];
      try (apply (f_equal reason_head) in Heq; discriminate);
      discriminate.
Qed.

End ProbeFacts.



Example timeout_is_reported :
  Probe.check_website str_of_plain_json [("timeout", Py.JInt 15)]
    (Py.Raise (Py.mk_exn Py.ReadTimeout "Read timed out."))
  = Py.Return (false,
      Some "Request timeout after 15 seconds. The server did not respond in time. (URL: https://c2smart.engineering.nyu.edu/)"%string).
Proof. reflexivity. Qed.

Example dns_failure_is_reported :
  Probe.check_website str_of_plain_json []
    (Py.Raise (Py.mk_exn Py.ConnectionError "[Errno -2] Name or service not known"))
  = Py.Return (false, Some Probe.dns_reason).
Proof. reflexivity. Qed.

Example keyboard_interrupt_passes_through :
  Probe.check_website str_of_plain_json []
    (Py.Raise (Py.mk_exn Py.KeyboardInterrupt ""))
  = Py.Raise (Py.mk_exn Py.KeyboardInterrupt "").
Proof. reflexivity. Qed.

Example connection_refused_is_reported :
  Probe.check_website str_of_plain_json []
    (Py.Raise (Py.mk_exn Py.ConnectionError "[Errno 111] Connection refused"))
  = Py.Return (false, Some Probe.refused_reason).
Proof. reflexivity. Qed.

Example redirect_loop_is_reported :
  Probe.check_website str_of_plain_json []
    (Py.Raise (Py.mk_exn Py.TooManyRedirects "Exceeded 30 redirects."))
  = Py.Return (false, Some Probe.redirects_reason).
Proof. reflexivity. Qed.

Example other_request_exception_is_reported :
  Probe.check_website str_of_plain_json []
    (Py.Raise (Py.mk_exn (Py.Subclass "ChunkedEncodingError" Py.RequestException)
                 "Connection broken"))
  = Py.Return (false,
      Some "Request exception: ChunkedEncodingError - Connection broken (URL: https://c2smart.engineering.nyu.edu/)"%string).
Proof. reflexivity. Qed.

Example unexpected_exception_is_reported :
  Probe.check_website str_of_plain_json []
    (Py.Raise (Py.mk_exn Py.ValueError "bad value"))
  = Py.Return (false,
      Some "Unknown error: ValueError - bad value (URL: https://c2smart.engineering.nyu.edu/)"%string).
Proof. reflexivity. Qed.

(** ** Reasoning about computations in the world *)

Section Wp.
Local Open Scope list_scope.
Import Py World.

Lemma wp_run {A : Type} (m : M A) (Q : outcome A -> world -> Prop) (w : world) :
  wp m Q w -> forall r w', m w = (r, w') -> Q r w'.
Proof. unfold wp. intros H r w' E. rewrite E in H. exact H. Qed.

Lemma wp_intro {A : Type} (m : M A) (Q : outcome A -> world -> Prop) (w : world) :
  (forall r w', m w = (r, w') -> Q r w') -> wp m Q w.
Proof. unfold wp. intros H. apply H. now destruct (m w). Qed.

Lemma wp_mono {A : Type} (m : M A) (Q Q' : outcome A -> world -> Prop) (w : world) :
  wp m Q w -> (forall r w', Q r w' -> Q' r w') -> wp m Q' w.
Proof. unfold wp. auto. Qed.

Lemma wp_ret {A : Type} (a : A) (Q : outcome A -> world -> Prop) (w : world) :
  Q (Return a) w -> wp (ret a) Q w.
Proof. exact (fun H => H). Qed.

Lemma wp_raise {A : Type} (e : exn) (Q : outcome A -> world -> Prop) (w : world) :
  Q (Raise e) w -> wp (raise e) Q w.
Proof. exact (fun H => H). Qed.

Lemma wp_lift {A : Type} (o : outcome A) (Q : outcome A -> world -> Prop) (w : world) :
  Q o w -> wp (lift o) Q w.
Proof. exact (fun H => H). Qed.

Lemma wp_bind {A B : Type} (m : M A) (k : A -> M B)
    (Q : outcome B -> world -> Prop) (w : world) :
  wp m (fun r w1 => match r with
                    | Return a => wp (k a) Q w1
                    | Raise e => Q (Raise e) w1
                    end) w ->
  wp (bindM m k) Q w.
Proof.
  unfold wp, bindM. destruct (m w) as [[a|e] w1]; cbn [fst snd]; auto.
Qed.

Lemma wp_try {A : Type} (body : M A) (handlers : list (handlerM A))
    (Q : outcome A -> world -> Prop) (w : world) :
  wp body (fun r w1 => match r with
                       | Return a => Q (Return a) w1
                       | Raise e => wp (dispatchM e handlers) Q w1
                       end) w ->
  wp (try_exceptM body handlers) Q w.
Proof.
  unfold wp, try_exceptM. destruct (body w) as [[a|e] w1]; cbn [fst snd]; auto.
Qed.

Lemma wp_emit (ev : event) (Q : outcome unit -> world -> Prop) (w : world) :
  Q (Return tt) {| files := files w; unwritable := unwritable w;
                   trace := trace w ++ [ev]; self := self w |} ->
  wp (emit ev) Q w.
Proof. exact (fun H => H). Qed.

Lemma wp_get_self (Q : outcome monitor -> world -> Prop) (w : world) :
  Q (Return (self w)) w -> wp get_self Q w.
Proof. exact (fun H => H). Qed.

Lemma wp_put_self (m : monitor) (Q : outcome unit -> world -> Prop) (w : world) :
  Q (Return tt) {| files := files w; unwritable := unwritable w;
                   trace := trace w; self := m |} ->
  wp (put_self m) Q w.
Proof. exact (fun H => H). Qed.

Lemma wp_path_exists (name : string) (Q : outcome bool -> world -> Prop) (w : world) :
  Q (Return (match lookup_file name (files w) with Some _ => true | None => false end)) w ->
  wp (path_exists name) Q w.
Proof. exact (fun H => H). Qed.

(** A catch-all clause that returns ends every exception it covers. *)
Lemma dispatch_catch_all {A : Type} (e : exn) (k : exc_class) (body : exn -> M A) :
  isinstance e k = true -> dispatchM e [([k], body)] = body e.
Proof. intros H. cbn. now rewrite H. Qed.

Lemma extends_refl (P : event -> Prop) (w : world) : extends P w w.
Proof. split; [split; reflexivity|]. exists []. now rewrite app_nil_r. Qed.

Lemma extends_trans (P : event -> Prop) (w1 w2 w3 : world) :
  extends P w1 w2 -> extends P w2 w3 -> extends P w1 w3.
Proof.
  intros [[Hc1 Hk1] (e1 & Ht1 & Hp1)] [[Hc2 Hk2] (e2 & Ht2 & Hp2)].
  split; [split; congruence|].
  exists (e1 ++ e2). rewrite Ht2, Ht1, app_assoc. split; [reflexivity|].
  apply Forall_app; auto.
Qed.

Lemma extends_emit (P : event -> Prop) (w : world) (ev : event) :
  P ev ->
  extends P w {| files := files w; unwritable := unwritable w;
                 trace := trace w ++ [ev]; self := self w |}.
Proof. intros H. split; [split; reflexivity|]. exists [ev]. auto. Qed.

Lemma extends_weaken (P P' : event -> Prop) (w w' : world) :
  (forall ev, P ev -> P' ev) -> extends P w w' -> extends P' w w'.
Proof.
  intros H [Hc (evs & Ht & Hp)]. split; [exact Hc|]. exists evs. split; [exact Ht|].
  eapply Forall_impl; eauto.
Qed.

End Wp.

Section Frames.
Import Py World.
Local Open Scope list_scope.

Lemma benignM_ret {A : Type} (a : A) : benignM (ret a).
Proof. intros w e H; discriminate. Qed.

Lemma benignM_raise {A : Type} (e : exn) :
  isinstance e Exception = true -> benignM (@raise A e).
Proof. intros H w e' E. cbn in E. injection E as <-. exact H. Qed.

Lemma benignM_lift {A : Type} (o : outcome A) :
  (forall e, o = Raise e -> isinstance e Exception = true) -> benignM (lift o).
Proof. intros H w e E. apply H. exact E. Qed.

Lemma benignM_bind {A B : Type} (m : M A) (k : A -> M B) :
  benignM m -> (forall a, benignM (k a)) -> benignM (bindM m k).
Proof.
  intros Hm Hk w e. unfold bindM. specialize (Hm w).
  destruct (m w) as [[a|e'] w1]; cbn [fst] in *.
  - apply Hk.
  - intros E. injection E as <-. apply Hm. reflexivity.
Qed.

Lemma benignM_emit (ev : event) : benignM (emit ev).
Proof. intros w e H; discriminate. Qed.

Lemma benignM_path_exists (name : string) : benignM (path_exists name).
Proof. intros w e H; discriminate. Qed.

Lemma benignM_get_self : benignM get_self.
Proof. intros w e H; discriminate. Qed.

Lemma benignM_put_self (m : monitor) : benignM (put_self m).
Proof. intros w e H; discriminate. Qed.

Lemma benignM_set_gmail_service (s : option service) : benignM (set_gmail_service s).
Proof. intros w e H; discriminate. Qed.

Lemma benignM_set_counters (c : Tracker.state Datetime.datetime) : benignM (set_counters c).
Proof. intros w e H; discriminate. Qed.

Lemma benignM_json_load (name : string) : benignM (json_load name).
Proof.
  intros w e. unfold json_load. destruct (lookup_file name (files w)) as [[v|s]|];
    cbn [fst]; intros H; try discriminate; injection H as <-; reflexivity.
Qed.

Lemma benignM_json_dump (name : string) (v : json) : benignM (json_dump name v).
Proof.
  intros w e. unfold json_dump. destruct (existsb (String.eqb name) (unwritable w));
    cbn [fst]; intros H; try discriminate; injection H as <-; reflexivity.
Qed.

(** A [try] whose only clause catches [Exception] and returns ends in a
    return whenever its body is benign. *)
Lemma try_catch_all_returns {A : Type} (body : M A) (fallback : exn -> A) (w : world) :
  benignM body ->
  exists a, fst (try_exceptM body [([Exception], fun e => ret (fallback e))] w) = Return a.
Proof.
  intros Hb. unfold try_exceptM. specialize (Hb w).
  destruct (body w) as [[a|e] w1]; cbn [fst] in *; [eauto|].
  cbn [dispatchM existsb]. rewrite (Hb e eq_refl). cbn. eauto.
Qed.

Lemma framed_ret {A : Type} (P : event -> Prop) (a : A) : framed P (ret a).
Proof. intro w. apply extends_refl. Qed.

Lemma framed_raise {A : Type} (P : event -> Prop) (e : exn) : framed P (@raise A e).
Proof. intro w. apply extends_refl. Qed.

Lemma framed_lift {A : Type} (P : event -> Prop) (o : outcome A) : framed P (lift o).
Proof. intro w. apply extends_refl. Qed.

Lemma framed_bind {A B : Type} (P : event -> Prop) (m : M A) (k : A -> M B) :
  framed P m -> (forall a, framed P (k a)) -> framed P (bindM m k).
Proof.
  intros Hm Hk w. unfold bindM. specialize (Hm w).
  destruct (m w) as [[a|e] w1]; cbn [snd] in *; [|exact Hm].
  eapply extends_trans; [exact Hm|apply Hk].
Qed.

Lemma framed_dispatch {A : Type} (P : event -> Prop) (e : exn)
    (handlers : list (handlerM A)) :
  Forall (fun h => framed P (snd h e)) handlers -> framed P (dispatchM e handlers).
Proof.
  induction 1 as [|[classes body] rest Hh _ IH]; cbn [dispatchM].
  - apply framed_raise.
  - destruct (existsb (isinstance e) classes); [exact Hh|exact IH].
Qed.

Lemma framed_try {A : Type} (P : event -> Prop) (body : M A)
    (handlers : list (handlerM A)) :
  framed P body ->
  (forall e, Forall (fun h => framed P (snd h e)) handlers) ->
  framed P (try_exceptM body handlers).
Proof.
  intros Hb Hh w. unfold try_exceptM. specialize (Hb w).
  destruct (body w) as [[a|e] w1]; cbn [snd] in *; [exact Hb|].
  eapply extends_trans; [exact Hb|]. apply framed_dispatch. apply Hh.
Qed.

Lemma framed_emit (P : event -> Prop) (ev : event) : P ev -> framed P (emit ev).
Proof. intros H w. apply extends_emit. exact H. Qed.

Lemma framed_path_exists (P : event -> Prop) (name : string) : framed P (path_exists name).
Proof. intro w. apply extends_refl. Qed.

Lemma framed_get_self (P : event -> Prop) : framed P get_self.
Proof. intro w. apply extends_refl. Qed.

Lemma framed_set_gmail_service (P : event -> Prop) (s : option service) :
  framed P (set_gmail_service s).
Proof.
  intro w. split; [split; reflexivity|]. exists []. cbn. now rewrite app_nil_r.
Qed.

Lemma framed_json_load (P : event -> Prop) (name : string) : framed P (json_load name).
Proof.
  intro w. unfold json_load. destruct (lookup_file name (files w)) as [[v|s]|];
    apply extends_refl.
Qed.

Lemma framed_json_dump (P : event -> Prop) (name : string) (v : json) :
  P (FileWritten name (Json v)) -> framed P (json_dump name v).
Proof.
  intros H w. unfold json_dump. destruct (existsb (String.eqb name) (unwritable w));
    cbn [snd]; [apply extends_refl|].
  split; [split; reflexivity|]. exists [FileWritten name (Json v)]. auto.
Qed.

End Frames.

(** ** Credential handling *)

Section CredentialFacts.
Import Py Datetime Credential.

Lemma load_expiry_benign (v : json) : benign (load_expiry v).
Proof.
  unfold load_expiry. destruct v; try (apply benign_raise; reflexivity).
  apply benign_bind; [apply fromisoformat_benign|intros; apply to_utc_benign].
Qed.

Lemma load_expiry_is_utc (v : json) (u : datetime) :
  load_expiry v = Return u -> tzinfo u = utc.
Proof.
  unfold load_expiry. destruct v; try discriminate.
  destruct (fromisoformat _); cbn; [apply to_utc_is_utc|discriminate].
Qed.

Lemma save_expiry_benign (e : option datetime) : benign (save_expiry e).
Proof.
  destruct e as [d|]; [|apply benign_return].
  apply benign_bind; [apply to_utc_benign|intros; apply benign_return].
Qed.

(** The expiry step never raises: it sets an expiry in UTC or leaves the
    credential as it was. *)
Lemma with_stored_expiry_returns (token_data : dict) (creds : credentials) :
  exists creds',
    with_stored_expiry token_data creds = Return creds' /\
    token creds' = token creds /\
    (expiry creds' = expiry creds \/
     exists u, expiry creds' = Some u /\ tzinfo u = utc /\
               load_expiry (dict_get "expiry" JNull token_data) = Return u).
Proof.
  unfold with_stored_expiry.
  destruct (dict_has "expiry" token_data && truthy (dict_get "expiry" JNull token_data));
    [|exists creds; auto].
  destruct (load_expiry (dict_get "expiry" JNull token_data)) as [u|e] eqn:Hl; cbn.
  - exists (set_expiry creds (Some u)). split; [reflexivity|]. split; [reflexivity|].
    right. exists u. split; [reflexivity|]. split; [|reflexivity].
    eapply load_expiry_is_utc; eassumption.
  - rewrite (load_expiry_benign _ e Hl). cbn. exists creds. auto.
Qed.

Lemma valid_benign (lib : library) (c : credentials) : benign (valid lib c).
Proof.
  unfold valid, expired. destruct (token c); try apply benign_return;
    (apply benign_bind; [|intros; apply benign_return]);
    (destruct (expiry c); [|apply benign_return]);
    (apply benign_bind; [apply add_timedelta_benign|]);
    intros a; unfold datetime_ge; destruct (tzinfo (utcnow lib)), (tzinfo a);
    try apply benign_return; apply benign_raise; reflexivity.
Qed.

Lemma is_valid_benign (lib : library) (c : credentials) : benign (is_valid lib c).
Proof.
  unfold is_valid, try_except. pose proof (valid_benign lib c) as Hb.
  destruct (valid lib c) as [b|e]; [apply benign_return|].
  cbn [dispatch]. destruct (existsb (isinstance e) [TypeError; AttributeError]);
    [apply benign_return|].
  apply benign_raise. apply Hb. reflexivity.
Qed.

(** With a naive clock, a credential whose expiry is aware is never found
    valid: the comparison raises [TypeError], which counts as "not valid",
    unless taking the margin off the expiry already left the calendar. *)
Lemma aware_expiry_never_valid (lib : library) (c : credentials) (u : datetime) :
  tzinfo (utcnow lib) = None ->
  expiry c = Some u -> tzinfo u = utc ->
  is_valid lib c = Return false \/
  exists e, is_valid lib c = Raise e /\ exn_class e = OverflowError.
Proof.
  intros Hnow He Hu. unfold is_valid, valid, expired. rewrite He.
  assert (Hcmp :
    bind (bind (add_timedelta u (- refresh_threshold lib))
            (fun skewed_expiry => datetime_ge (utcnow lib) skewed_expiry))
         (fun is_expired => Return (negb is_expired))
    = Raise (mk_exn TypeError "can't compare offset-naive and offset-aware datetimes")
    \/ exists e,
        bind (bind (add_timedelta u (- refresh_threshold lib))
                (fun skewed_expiry => datetime_ge (utcnow lib) skewed_expiry))
             (fun is_expired => Return (negb is_expired)) = Raise e
        /\ exn_class e = OverflowError).
  { destruct (add_timedelta u (- refresh_threshold lib)) as [sk|e] eqn:Ha; cbn.
    - left. unfold datetime_ge. rewrite Hnow.
      rewrite (add_timedelta_tzinfo _ _ _ Ha), Hu. reflexivity.
    - right. exists e. split; [reflexivity|]. eapply add_timedelta_raises; eassumption. }
  destruct (token c); try (left; reflexivity);
    (destruct Hcmp as [-> | (e & -> & Hc)];
     [left; reflexivity
     |right; exists e; split; [|exact Hc];
      unfold try_except; cbn [dispatch existsb]; unfold isinstance, issubclass;
      rewrite Hc; reflexivity]).
Qed.

End CredentialFacts.

(** ** The notifier *)

Section NotifierFacts.
Import Py Datetime Credential World Notifier.
Local Open Scope list_scope.

Lemma as_dict_benign (v : json) : benign (as_dict v).
Proof. destruct v; try apply benign_return; apply benign_raise; reflexivity. Qed.

Lemma refresh_if_needed_benign (svc : services) (valid_now : bool) (creds : credentials) :
  well_behaved svc -> benignM (refresh_if_needed svc valid_now creds).
Proof.
  intros (Hr & _ & _). unfold refresh_if_needed.
  destruct valid_now; cbn [negb]; [apply benignM_ret|].
  apply benignM_bind; [apply benignM_emit|intros _].
  apply benignM_bind; [apply benignM_lift, Hr|intros c].
  apply benignM_bind; [apply benignM_lift, save_expiry_benign|intros s].
  apply benignM_bind; [apply benignM_json_dump|intros _]. apply benignM_ret.
Qed.

Lemma service_from_token_file_benign (svc : services) :
  well_behaved svc -> benignM (service_from_token_file svc).
Proof.
  intros Hw. unfold service_from_token_file.
  apply benignM_bind; [apply benignM_json_load|intros loaded].
  apply benignM_bind; [apply benignM_lift, as_dict_benign|intros token_data].
  apply benignM_bind.
  { apply benignM_lift. intros e He.
    destruct (with_stored_expiry_returns token_data (from_token_data token_data))
      as (c & Hc & _). congruence. }
  intros creds.
  apply benignM_bind; [apply benignM_lift, is_valid_benign|intros valid_now].
  apply benignM_bind; [apply refresh_if_needed_benign, Hw|intros c].
  apply benignM_bind; [apply benignM_lift; destruct Hw as (_ & Hb & _); apply Hb|intros _].
  apply benignM_bind; [apply benignM_emit|intros _]. apply benignM_ret.
Qed.

(** [authenticate_gmail] always comes back with [True] or [False]. *)
Lemma authenticate_gmail_returns (svc : services) (w : world) :
  well_behaved svc -> exists ok, fst (authenticate_gmail svc w) = Return ok.
Proof.
  intros Hw. unfold authenticate_gmail.
  apply (try_catch_all_returns _ (fun _ => false)).
  apply benignM_bind; [apply benignM_path_exists|intros found].
  destruct found; cbn [negb]; [|apply benignM_ret].
  apply benignM_bind; [apply service_from_token_file_benign, Hw|intros gmail].
  apply benignM_bind; [apply benignM_set_gmail_service|intros _]. apply benignM_ret.
Qed.

Lemma refresh_if_needed_framed (svc : services) (valid_now : bool) (creds : credentials) :
  framed quiet (refresh_if_needed svc valid_now creds).
Proof.
  unfold refresh_if_needed. destruct valid_now; cbn [negb]; [apply framed_ret|].
  apply framed_bind; [apply framed_emit; exact I|intros _].
  apply framed_bind; [apply framed_lift|intros c].
  apply framed_bind; [apply framed_lift|intros s].
  apply framed_bind; [apply framed_json_dump; exact I|intros _]. apply framed_ret.
Qed.

Lemma service_from_token_file_framed (svc : services) :
  framed quiet (service_from_token_file svc).
Proof.
  unfold service_from_token_file.
  apply framed_bind; [apply framed_json_load|intros loaded].
  apply framed_bind; [apply framed_lift|intros token_data].
  apply framed_bind; [apply framed_lift|intros creds].
  apply framed_bind; [apply framed_lift|intros valid_now].
  apply framed_bind; [apply refresh_if_needed_framed|intros c].
  apply framed_bind; [apply framed_lift|intros _].
  apply framed_bind; [apply framed_emit; exact I|intros _]. apply framed_ret.
Qed.

(** [authenticate_gmail] leaves the configuration alone and submits nothing. *)
Lemma authenticate_gmail_framed (svc : services) : framed quiet (authenticate_gmail svc).
Proof.
  unfold authenticate_gmail. apply framed_try.
  - apply framed_bind; [apply framed_path_exists|intros found].
    destruct found; cbn [negb]; [|apply framed_ret].
    apply framed_bind; [apply service_from_token_file_framed|intros gmail].
    apply framed_bind; [apply framed_set_gmail_service|intros _]. apply framed_ret.
  - intros e. repeat constructor. apply framed_ret.
Qed.

Lemma authenticate_gmail_unfold (svc : services) (w : world) (c : file_content) :
  lookup_file TOKEN_JSON_FILE (files w) = Some c ->
  authenticate_gmail svc w = authenticated (service_from_token_file svc w).
Proof.
  intros Hf. unfold authenticate_gmail, try_exceptM, bindM at 1, path_exists.
  rewrite Hf. cbn [negb]. unfold bindM at 1.
  destruct (service_from_token_file svc w) as [[gmail|e] w1]; cbn.
  - reflexivity.
  - rewrite orb_false_r. destruct (isinstance e Exception); reflexivity.
Qed.



Lemma send_email_unfold (svc : services) (subject body : string) (w : world) :
  send_email svc subject body w =
    match gmail_service (self w) with
    | Some _ => deliver svc subject body w
    | None =>
        match authenticate_gmail svc w with
        | (Return true, w1) => deliver svc subject body w1
        | (Return false, w1) => (Return false, w1)
        | (Raise e, w1) => (Raise e, w1)
        end
    end.
Proof.
  unfold send_email, bindM at 1, get_self. unfold bindM at 1.
  destruct (gmail_service (self w)); [reflexivity|].
  destruct (authenticate_gmail svc w) as [[[|]|e] w1]; reflexivity.
Qed.

(** What the [try] block adds to the trace: nothing, or the one submission,
    through the service the monitor holds, of the message built from the
    configuration. *)
Lemma deliver_trace (svc : services) (subject body : string) (w : world) :
  let w' := snd (deliver svc subject body w) in
  files w' = files w /\ self w' = self w /\
  (trace w' = trace w \/
   exists gmail msg,
     gmail_service (self w) = Some gmail /\
     build_message (config (self w)) subject body = Return msg /\
     trace w' = trace w ++ [MessageSubmitted gmail msg]).
Proof.
  unfold deliver, try_exceptM, bindM, get_self, lift, emit, ret, raise.
  destruct (build_message (config (self w)) subject body) as [msg|e].
  - destruct (gmail_service (self w)) as [gmail|].
    + cbn [trace files self unwritable].
      destruct (execute svc gmail msg) as [v|e]; cbn [dispatchM existsb].
      * cbn. split; [reflexivity|]. split; [reflexivity|]. right. eauto.
      * repeat match goal with |- context [if ?c then _ else _] => destruct c end;
          cbn; (split; [reflexivity|]); (split; [reflexivity|]); right; eauto.
    + cbn. auto.
  - cbn [dispatchM existsb].
    repeat match goal with |- context [if ?c then _ else _] => destruct c end;
      cbn; auto.
Qed.


End NotifierFacts.

(** ** Runs of the credential code on a concrete token file *)

Section CredentialVerdicts.
Import Py Datetime Credential World Notifier.
Local Open Scope list_scope.

(** With an aware clock the verdict follows the instants: valid exactly when
    the clock is before the expiry less the margin. *)
Lemma is_valid_aware_clock (lib : library) (c : credentials) (u : datetime) :
  tzinfo (utcnow lib) = utc ->
  token c <> JNull ->
  expiry c = Some u -> well_formed u = true -> tzinfo u = utc ->
  (exists sk, add_timedelta u (- refresh_threshold lib) = Return sk) ->
  is_valid lib c = Return (instant (utcnow lib) <? instant u - refresh_threshold lib).
Proof.
  intros Hnow Htok He Hwf Hu (sk & Hsk).
  destruct (add_timedelta_correct u sk _ Hwf Hsk) as (_ & Hl & Htz).
  assert (Hi : instant sk = instant u - refresh_threshold lib).
  { rewrite !instant_local_us, Htz, Hl. lia. }
  unfold is_valid, valid, expired. rewrite He, Hsk. cbn [bind].
  unfold datetime_ge. rewrite Hnow, Htz, Hu. cbn [utc bind]. rewrite Hi.
  replace (negb (instant u - refresh_threshold lib <=? instant (utcnow lib)))
    with (instant (utcnow lib) <? instant u - refresh_threshold lib)
    by (rewrite Z.ltb_antisym; reflexivity).
  destruct (token c); try reflexivity. contradiction.
Qed.

(** With the naive clock of google-auth, a credential is found valid only
    when it has an access token and no expiry was set from the file. *)
Lemma valid_only_without_expiry (lib : library) (token_data : dict) (creds : credentials) :
  tzinfo (utcnow lib) = None ->
  with_stored_expiry token_data (from_token_data token_data) = Return creds ->
  is_valid lib creds = Return true ->
  token creds <> JNull /\ expiry creds = None.
Proof.
  intros Hnow Hc Hv.
  destruct (with_stored_expiry_returns token_data (from_token_data token_data))
    as (c & Hc' & _ & He).
  rewrite Hc in Hc'. injection Hc' as <-.
  destruct He as [He|(u & He & Hu & _)].
  - split; [|exact He]. intros Ht. unfold is_valid, valid in Hv. rewrite Ht in Hv.
    discriminate.
  - exfalso. destruct (aware_expiry_never_valid lib creds u Hnow He Hu) as [H|(e & H & _)];
      rewrite H in Hv; discriminate.
Qed.

(** C5, where the code departs from it. The token file holds an access token
    and the expiry 2099-01-01T00:00:00Z; the clock reads 2025-01-01. The expiry
    is loaded as an aware value, the comparison inside [creds.valid] with the
    naive clock raises [TypeError], the [except] clause turns that into "not
    valid", and the run refreshes the token although it is far from expired.
    The same happens for every expiry the file can hold: with this clock no
    credential whose expiry was loaded is ever found valid. *)
Theorem future_expiry_is_judged_invalid :
  let stored := JStr "2099-01-01T00:00:00Z" in
  let creds := loaded stored in
  with_stored_expiry (token_file_with stored) (from_token_data (token_file_with stored))
    = Return creds /\
  expiry creds = Some (at_time 2099 1 1 0 0 0 utc) /\
  valid sample_library creds
    = Raise (mk_exn TypeError "can't compare offset-naive and offset-aware datetimes") /\
  is_valid sample_library creds = Return false /\
  authenticate_gmail working_services (world_with_token stored)
    = (Return true,
       with_service
         (with_token_file (world_with_token stored)
            (token_document (refreshed creds) (JStr "2025-01-01T01:00:00Z"))
            [RefreshRequested creds;
             FileWritten TOKEN_JSON_FILE
               (Json (token_document (refreshed creds) (JStr "2025-01-01T01:00:00Z")));
             ServiceBuilt (refreshed creds)])
         (mk_service (refreshed creds))) /\
  (forall (lib : library) (token_data : dict) (c : credentials) (u : datetime),
      tzinfo (utcnow lib) = None ->
      with_stored_expiry token_data (from_token_data token_data) = Return c ->
      expiry c = Some u ->
      is_valid lib c <> Return true).
Proof.
  cbv zeta. repeat split; try reflexivity.
  intros lib token_data c u Hnow Hc He Hv.
  destruct (valid_only_without_expiry lib token_data c Hnow Hc Hv) as [_ Hn].
  congruence.
Qed.

End CredentialVerdicts.

Example past_expiry_is_judged_invalid :
  Credential.is_valid sample_library (loaded (Py.JStr "2024-06-01T12:00:00Z"))
  = Py.Return false
  /\ Credential.is_valid sample_library (loaded (Py.JStr "2024-06-01T12:00:00"))
     = Py.Return false.
Proof. split; reflexivity. Qed.

Example no_expiry_is_judged_valid :
  Credential.is_valid sample_library (loaded Py.JNull) = Py.Return true.
Proof. reflexivity. Qed.

Example malformed_expiry_leaves_token_valid :
  Credential.with_stored_expiry (token_file_with (Py.JStr "next week"))
    (Credential.from_token_data (token_file_with (Py.JStr "next week")))
  = Py.Return (Credential.from_token_data (token_file_with (Py.JStr "next week")))
  /\ Credential.is_valid sample_library (loaded (Py.JStr "next week")) = Py.Return true.
Proof. split; reflexivity. Qed.

Example no_token_is_judged_invalid :
  Credential.is_valid sample_library
    (Credential.from_token_data [("expiry", Py.JStr "2099-01-01T00:00:00Z")])
  = Py.Return false.
Proof. reflexivity. Qed.

(** An expiry so early that taking the margin off leaves the calendar: the
    [OverflowError] is not one of the two classes the check catches. *)
Example earliest_expiry_overflows :
  Credential.is_valid sample_library (loaded (Py.JStr "0001-01-01T00:00:00Z"))
  = Py.Raise (Py.mk_exn Py.OverflowError "date value out of range")
  /\ fst (Notifier.authenticate_gmail working_services
            (world_with_token (Py.JStr "0001-01-01T00:00:00Z")))
     = Py.Return false.
Proof. split; reflexivity. Qed.


(** ** Configuration *)

Section ConfigFacts.
Import Py World Config.

(** What [check_key] does for [recipient_email], by the shape of the value. *)
Lemma check_recipient_string (members : dict) (s : string) :
  dict_lookup "recipient_email" members = Some (JStr s) ->
  check_key (JObj members) "recipient_email"
  = if String.eqb s "" || String.eqb s "your-email@example.com"
    then please_set "recipient_email" else Return tt.
Proof.
  intros H. unfold check_key, contains_key, subscript, dict_has. rewrite H.
  cbn [bind negb truthy]. destruct (String.eqb s "") eqn:E; cbn; [reflexivity|].
  destruct (String.eqb s "your-email@example.com"); reflexivity.
Qed.

Lemma check_recipient_list (members : dict) (items : list json) :
  dict_lookup "recipient_email" members = Some (JList items) ->
  check_key (JObj members) "recipient_email"
  = match items with
    | [] => please_set "recipient_email"
    | _ :: _ => Return tt
    end.
Proof.
  intros H. unfold check_key, contains_key, subscript, dict_has. rewrite H.
  destruct items; reflexivity.
Qed.

Lemma check_recipient_other (members : dict) (v : json) :
  dict_lookup "recipient_email" members = Some v ->
  (forall s, v <> JStr s) -> (forall items, v <> JList items) ->
  exists text, check_key (JObj members) "recipient_email" = value_error text.
Proof.
  intros H Hs Hl. unfold check_key, contains_key, subscript, dict_has. rewrite H.
  cbn [bind negb]. destruct v as [|b|n|x|s|items|o]; cbn [truthy].
  - eexists; reflexivity.
  - destruct b; eexists; reflexivity.
  - destruct (n =? 0); eexists; reflexivity.
  - destruct (PrimFloat.eqb x 0); eexists; reflexivity.
  - exfalso. exact (Hs s eq_refl).
  - exfalso. exact (Hl items eq_refl).
  - destruct o; eexists; reflexivity.
Qed.

Lemma check_recipient_missing (members : dict) :
  dict_lookup "recipient_email" members = None ->
  check_key (JObj members) "recipient_email" = please_set "recipient_email".
Proof.
  intros H. unfold check_key, contains_key, dict_has. rewrite H. reflexivity.
Qed.

(** [main] when [load_config] raises an [Exception]: the message, then
    [SystemExit(1)], and the monitoring is never entered. *)
Lemma main_fatal (monitoring : M unit) (w w1 : world) (e : exn) :
  load_config CONFIG_FILE w = (Raise e, w1) ->
  isinstance e Exception = true ->
  Monitor.main_with monitoring w
  = (Raise (mk_exn SystemExit "1"),
     {| files := files w1; unwritable := unwritable w1;
        trace := trace w1 ++ [Printed ("Failed to start: " ++ exn_str e)];
        self := self w1 |}).
Proof.
  intros Hl He. unfold Monitor.main_with, Monitor.new_monitor, try_exceptM, bindM.
  rewrite Hl. cbn [dispatchM existsb]. rewrite He. reflexivity.
Qed.

Lemma validate_accepts (members : dict) :
  check_key (JObj members) "recipient_email" = Return tt ->
  check_key (JObj members) "sender_email" = Return tt ->
  validate (JObj members) = Return members.
Proof.
  intros Hr Hs. unfold validate, required_keys. cbn [check_keys].
  rewrite Hr. cbn [bind]. rewrite Hs. reflexivity.
Qed.

Lemma validate_rejects_recipient (members : dict) (e : exn) :
  check_key (JObj members) "recipient_email" = Raise e ->
  validate (JObj members) = Raise e.
Proof.
  intros Hr. unfold validate, required_keys. cbn [check_keys]. rewrite Hr. reflexivity.
Qed.

Lemma load_config_present (w : world) (v : json) :
  lookup_file CONFIG_FILE (files w) = Some (Json v) ->
  load_config CONFIG_FILE w = (validate v, w).
Proof.
  intros Hf. unfold load_config, bindM, path_exists, json_load, lift.
  rewrite Hf. cbn [negb]. rewrite Hf. reflexivity.
Qed.

(** No configuration file: the template is written, two lines are printed and
    the process ends with status 1; [main] does not catch [SystemExit]. *)
Lemma missing_config_is_fatal (monitoring : M unit) (w : world) :
  lookup_file CONFIG_FILE (files w) = None ->
  existsb (String.eqb CONFIG_FILE) (unwritable w) = false ->
  Monitor.main_with monitoring w
  = (Raise (mk_exn SystemExit "1"),
     {| files := (CONFIG_FILE, Json (JObj default_config)) :: files w;
        unwritable := unwritable w;
        trace := (trace w
                  ++ [FileWritten CONFIG_FILE (Json (JObj default_config));
                      Printed ("Created default config file: " ++ CONFIG_FILE);
                      Printed "Please edit the config file and fill in correct email addresses and Gmail API credentials"])%list;
        self := self w |})
  /\ exit_status (fst (Monitor.main_with monitoring w)) = 1.
Proof.
  intros Hf Hw.
  assert (H : Monitor.main_with monitoring w
    = (Raise (mk_exn SystemExit "1"),
       {| files := (CONFIG_FILE, Json (JObj default_config)) :: files w;
          unwritable := unwritable w;
          trace := (trace w
                    ++ [FileWritten CONFIG_FILE (Json (JObj default_config));
                        Printed ("Created default config file: " ++ CONFIG_FILE);
                        Printed "Please edit the config file and fill in correct email addresses and Gmail API credentials"])%list;
          self := self w |})).
  { unfold Monitor.main_with, Monitor.new_monitor, try_exceptM, bindM, load_config,
      bindM, path_exists, json_dump, print, emit, sys_exit, raise.
    rewrite Hf. cbn [negb]. rewrite Hw. cbn [files unwritable trace self].
    cbn [dispatchM existsb]. rewrite <- !app_assoc. reflexivity. }
  split; [exact H|]. rewrite H. reflexivity.
Qed.

(** An empty list of recipients: [load_config] raises [ValueError], and
    [main] ends the process with status 1 without entering the monitoring. *)
Lemma empty_recipients_is_fatal (monitoring : M unit) (w : world) (members : dict) :
  lookup_file CONFIG_FILE (files w) = Some (Json (JObj members)) ->
  dict_lookup "recipient_email" members = Some (JList []) ->
  load_config CONFIG_FILE w
  = (Raise (mk_exn ValueError "Please set recipient_email in the config file"), w)
  /\ Monitor.main_with monitoring w
     = (Raise (mk_exn SystemExit "1"),
        {| files := files w; unwritable := unwritable w;
           trace := (trace w ++ [Printed "Failed to start: Please set recipient_email in the config file"])%list;
           self := self w |})
  /\ exit_status (fst (Monitor.main_with monitoring w)) = 1.
Proof.
  intros Hf Hr.
  assert (Hl : load_config CONFIG_FILE w
               = (Raise (mk_exn ValueError "Please set recipient_email in the config file"), w)).
  { rewrite (load_config_present w _ Hf).
    rewrite (validate_rejects_recipient members
               (mk_exn ValueError "Please set recipient_email in the config file")).
    - reflexivity.
    - rewrite (check_recipient_list members [] Hr). reflexivity. }
  pose proof (main_fatal monitoring w w _ Hl eq_refl) as Hm.
  split; [exact Hl|]. split; [exact Hm|]. rewrite Hm. reflexivity.
Qed.


End ConfigFacts.

(** ** Sending, and the monitor as a whole *)

Section MonitorFacts.
Import Py Datetime Credential World Notifier Config.
Local Open Scope list_scope.

Variable str_json : json -> string.
Variable alert_body : option datetime -> Z -> json -> option string -> string.
Variable error_body : datetime -> string -> string.

Lemma quiet_addressed (s : string) (ev : event) : quiet ev -> addressed_to s ev.
Proof using. destruct ev; cbn; intros H; try exact I; contradiction. Qed.

Lemma build_message_to (members : dict) (s subject body : string) (msg : message) :
  dict_lookup "recipient_email" members = Some (JStr s) ->
  build_message members subject body = Return msg ->
  msg_to msg = s.
Proof.
  intros Hr. unfold build_message, recipient_header, subscript. rewrite Hr. cbn [bind].
  destruct (sender_header members); cbn [bind]; intros H; [|discriminate].
  injection H as <-. reflexivity.
Qed.

Lemma deliver_extends (svc : services) (subject body s : string) (w : world) :
  dict_lookup "recipient_email" (config (self w)) = Some (JStr s) ->
  extends (addressed_to s) w (snd (deliver svc subject body w)).
Proof.
  intros Hr. destruct (deliver_trace svc subject body w) as (_ & Hs & Ht).
  cbv zeta in Hs, Ht. split; [rewrite Hs; split; reflexivity|].
  destruct Ht as [Ht|(gmail & msg & _ & Hm & Ht)].
  - exists []. rewrite app_nil_r. auto.
  - exists [MessageSubmitted gmail msg]. split; [exact Ht|].
    constructor; [|constructor]. cbn. eapply build_message_to; eassumption.
Qed.

(** Whatever [send_email] submits is addressed to the configured string. *)
Lemma send_email_extends (svc : services) (subject body s : string) (w : world) :
  dict_lookup "recipient_email" (config (self w)) = Some (JStr s) ->
  extends (addressed_to s) w (snd (send_email svc subject body w)).
Proof using.
  intros Hr. rewrite send_email_unfold.
  destruct (gmail_service (self w)); [apply deliver_extends; exact Hr|].
  pose proof (authenticate_gmail_framed svc w) as Ha.
  apply (extends_weaken quiet (addressed_to s)) in Ha; [|apply quiet_addressed].
  destruct (authenticate_gmail svc w) as [[[|]|e] w1]; cbn [snd] in *; try exact Ha.
  eapply extends_trans; [exact Ha|]. apply deliver_extends.
  destruct Ha as [[Hc _] _]. rewrite Hc. exact Hr.
Qed.

Lemma send_alert_email_extends (svc : services) (error_message : option string)
    (s : string) (w : world) :
  dict_lookup "recipient_email" (config (self w)) = Some (JStr s) ->
  extends (addressed_to s) w
    (snd (Monitor.send_alert_email alert_body svc error_message w)).
Proof using alert_body.
  intros Hr. unfold Monitor.send_alert_email, bindM, get_self, lift.
  destruct (Monitor.divisible _); [|apply extends_refl].
  pose proof (send_email_extends svc
                ("⚠️ Website Monitoring Alert: " ++ Probe.WEBSITE_URL)%string
                (alert_body (Tracker.last_check_time (counters (self w)))
                   (Tracker.consecutive_failures (counters (self w)))
                   (Monitor.check_interval (config (self w))) error_message) s w Hr) as He.
  destruct (send_email _ _ _ w) as [[b|e] w1]; exact He.
Qed.

(** For a [dict], [check_key] fails with [ValueError] only. *)
Lemma check_key_raises_value_error (members : dict) (key : string) (e : exn) :
  check_key (JObj members) key = Raise e -> exn_class e = ValueError.
Proof.
  unfold check_key, contains_key, subscript, dict_has, please_set, value_error.
  destruct (dict_lookup key members) as [v|]; cbn [bind negb].
  - repeat match goal with
           | |- context [if ?c then _ else _] => destruct c
           | |- context [match ?x with _ => _ end] => destruct x
           end;
      intros H; try discriminate; injection H as <-; reflexivity.
  - intros H. injection H as <-. reflexivity.
Qed.

(** C10, as the code has it. A string for [recipient_email] passes the check
    exactly when it is neither empty nor the placeholder; a list passes
    exactly when it is not empty; a value of any other type is rejected; a
    rejection ends start-up with status 1. With a string that passed, every
    message an alert submits is addressed to exactly that string. *)
Theorem recipient_may_be_string_or_list :
  forall (members : dict) (v : json),
    dict_lookup "recipient_email" members = Some v ->
    (forall s, v = JStr s ->
       (check_key (JObj members) "recipient_email" = Return tt
        <-> s <> EmptyString /\ s <> "your-email@example.com"%string)) /\
    (forall items, v = JList items ->
       (check_key (JObj members) "recipient_email" = Return tt <-> items <> [])) /\
    ((forall s, v <> JStr s) -> (forall items, v <> JList items) ->
       exists text, check_key (JObj members) "recipient_email" = value_error text) /\
    (forall (e : exn) (w : world) (monitoring : M unit),
       check_key (JObj members) "recipient_email" = Raise e ->
       lookup_file CONFIG_FILE (files w) = Some (Json (JObj members)) ->
       Monitor.main_with monitoring w
       = (Raise (mk_exn SystemExit "1"),
          {| files := files w; unwritable := unwritable w;
             trace := trace w ++ [Printed ("Failed to start: " ++ exn_str e)];
             self := self w |})) /\
    (forall (s : string) (svc : services) (error_message : option string) (w : world),
       v = JStr s -> config (self w) = members ->
       exists evs,
         trace (snd (Monitor.send_alert_email alert_body svc error_message w))
         = trace w ++ evs /\
         forall gmail msg, In (MessageSubmitted gmail msg) evs -> msg_to msg = s).
Proof using alert_body.
  intros members v Hv. split; [|split; [|split; [|split]]].
  - intros s ->. rewrite (check_recipient_string members s Hv).
    destruct (String.eqb_spec s ""), (String.eqb_spec s "your-email@example.com");
      cbn; split; intros H'; try discriminate; try tauto; reflexivity.
  - intros items ->. rewrite (check_recipient_list members items Hv).
    destruct items; split; intros H'; try discriminate; try contradiction; reflexivity.
  - intros Hs Hl. exact (check_recipient_other members v Hv Hs Hl).
  - intros e w monitoring He Hf.
    apply (main_fatal monitoring w w e).
    + rewrite (load_config_present w _ Hf), (validate_rejects_recipient members e He).
      reflexivity.
    + unfold isinstance, issubclass.
      rewrite (check_key_raises_value_error members _ e He). reflexivity.
  - intros s svc error_message w -> <-.
    destruct (send_alert_email_extends svc error_message s w Hv) as [_ (evs & Ht & Hp)].
    exists evs. split; [exact Ht|]. intros gmail msg Hin.
    rewrite Forall_forall in Hp. exact (Hp _ Hin).
Qed.

Lemma send_email_keeps (svc : services) (subject body : string) (w : world) :
  config (self (snd (send_email svc subject body w))) = config (self w) /\
  counters (self (snd (send_email svc subject body w))) = counters (self w).
Proof.
  rewrite send_email_unfold.
  destruct (gmail_service (self w)).
  - destruct (deliver_trace svc subject body w) as (_ & Hs & _). cbv zeta in Hs.
    rewrite Hs. split; reflexivity.
  - destruct (authenticate_gmail_framed svc w) as [[Hc Hk] _].
    destruct (authenticate_gmail svc w) as [[[|]|e] w1]; cbn [snd] in *; auto.
    destruct (deliver_trace svc subject body w1) as (_ & Hs & _). cbv zeta in Hs.
    rewrite Hs. auto.
Qed.

Lemma send_alert_email_keeps (svc : services) (error_message : option string) (w : world) :
  config (self (snd (Monitor.send_alert_email alert_body svc error_message w)))
  = config (self w) /\
  counters (self (snd (Monitor.send_alert_email alert_body svc error_message w)))
  = counters (self w).
Proof using alert_body.
  unfold Monitor.send_alert_email, bindM, get_self, lift.
  destruct (Monitor.divisible _); [|split; reflexivity].
  match goal with
  | |- context [send_email ?a ?b ?c w] => pose proof (send_email_keeps a b c w) as He
  end.
  destruct (send_email _ _ _ w) as [[b|e] w1]; exact He.
Qed.

(** [run_check] on the monitor object does to the three counters what the
    tracker step does, whenever it returns and the configured threshold is an
    integer. *)
Lemma run_check_refines_tracker (tk : Monitor.tick) (w w' : world) (n : Z) (h : bool) :
  dict_get "max_consecutive_failures" (JInt 2) (config (self w)) = JInt n ->
  Monitor.run_check str_json alert_body tk w = (Return h, w') ->
  exists msg,
    Probe.check_website str_json (config (self w)) (Monitor.get tk) = Return (h, msg) /\
    counters (self w')
    = fst (Tracker.run_check n (Monitor.now tk, (h, msg)) (counters (self w))) /\
    config (self w') = config (self w).
Proof using str_json alert_body.
  intros Hn.
  unfold Monitor.run_check, Monitor.set_last_check_time, Monitor.set_consecutive_failures,
    Monitor.set_last_alert_sent, bindM, get_self, set_counters, put_self, lift, ret.
  cbn [self config counters files unwritable trace Tracker.consecutive_failures
       Tracker.last_alert_sent Tracker.last_check_time].
  destruct (Probe.check_website str_json (config (self w)) (Monitor.get tk))
    as [[healthy msg]|e]; [|discriminate].
  destruct healthy.
  - intros H. injection H as <- <-. exists msg. cbn. auto.
  - cbn [self config counters files unwritable trace Tracker.consecutive_failures
         Tracker.last_alert_sent Tracker.last_check_time].
    rewrite Hn. cbn [Monitor.int_ge].
    destruct ((n <=? Tracker.consecutive_failures (counters (self w)) + 1)
              && negb (Tracker.last_alert_sent (counters (self w)))) eqn:Hcond.
    + match goal with
      | |- context [Monitor.send_alert_email alert_body ?a ?b ?w0] =>
          pose proof (send_alert_email_keeps a b w0) as [Hc Hk];
          destruct (Monitor.send_alert_email alert_body a b w0) as [[[]|e] w4]
      end; [|discriminate].
      cbn [snd self config counters] in Hc, Hk.
      intros H. injection H as <- <-. exists msg.
      split; [reflexivity|]. cbn. rewrite Hk, Hcond, Hc. cbn. auto.
    + intros H. injection H as <- <-. exists msg.
      split; [reflexivity|]. cbn. rewrite Hcond. cbn. auto.
Qed.

End MonitorFacts.

(** ** Whole runs of the monitor *)

(** C9, where the code departs from it. The first run finds no configuration
    file, writes the template and exits with status 1. The second run finds
    the template exactly as written: both required fields still hold their
    placeholders, yet every check passes ([recipient_email] is a non-empty
    list, whose items are not looked at, and [sender_email] is compared with
    [your-sender@example.com], not with the [your-email@gmail.com] of the
    template). The monitor starts, sleeps between checks, and after two failed
    checks submits its alert to [your-email@example.com]. *)
Theorem unedited_template_passes_validation :
  fst (run_main (site_up 9) [] []) = Py.Raise (Py.mk_exn Py.SystemExit "1") /\
  World.exit_status (fst (run_main (site_up 9) [] [])) = 1 /\
  World.files (snd (run_main (site_up 9) [] [])) = [template_file] /\
  Config.check_key (Py.JObj Config.default_config) "recipient_email" = Py.Return tt /\
  Config.check_key (Py.JObj Config.default_config) "sender_email" = Py.Return tt /\
  Config.validate (Py.JObj Config.default_config) = Py.Return Config.default_config /\
  (let second := run_main (site_down 9) [site_down 10] [template_file; token_file] in
   fst second = Py.Return tt /\
   World.config (World.self (snd second)) = Config.default_config /\
   existsb is_sleep (World.trace (snd second)) = true /\
   existsb (is_submission_to "your-email@example.com") (World.trace (snd second)) = true) /\
  (forall (monitoring : World.M unit) (w : World.world),
      World.lookup_file Config.CONFIG_FILE (World.files w) = Some (snd template_file) ->
      fst (Config.load_config Config.CONFIG_FILE w) = Py.Return Config.default_config).
Proof.
  split; [vm_compute; reflexivity|]. split; [vm_compute; reflexivity|].
  split; [vm_compute; reflexivity|]. split; [vm_compute; reflexivity|].
  split; [vm_compute; reflexivity|]. split; [vm_compute; reflexivity|].
  split.
  - cbv zeta. split; [vm_compute; reflexivity|]. split; [vm_compute; reflexivity|].
    split; vm_compute; reflexivity.
  - intros monitoring w Hf. rewrite (load_config_present w _ Hf). reflexivity.
Qed.

Example empty_recipient_list_stops_startup :
  run_main (site_up 9) []
    [(Config.CONFIG_FILE,
      World.Json (Py.JObj [("recipient_email", Py.JList []);
                           ("sender_email", Py.JStr "monitor@nyu.edu")]))]
  = (Py.Raise (Py.mk_exn Py.SystemExit "1"),
     {| World.files :=
          [(Config.CONFIG_FILE,
            World.Json (Py.JObj [("recipient_email", Py.JList []);
                                 ("sender_email", Py.JStr "monitor@nyu.edu")]))];
        World.unwritable := [];
        World.trace :=
          [World.Printed "Failed to start: Please set recipient_email in the config file"];
        World.self := World.blank_monitor |}).
Proof. vm_compute. reflexivity. Qed.

Example placeholder_string_stops_startup :
  fst (run_main (site_up 9) []
         [(Config.CONFIG_FILE,
           World.Json (Py.JObj [("recipient_email", Py.JStr "your-email@example.com");
                                ("sender_email", Py.JStr "monitor@nyu.edu")]))])
  = Py.Raise (Py.mk_exn Py.SystemExit "1").
Proof. vm_compute. reflexivity. Qed.

Example three_failures_one_alert :
  List.length
    (filter (is_submission_to "ops@nyu.edu")
       (World.trace
          (snd (run_main (site_down 9) [site_down 10; site_down 11; site_down 12]
                  [(Config.CONFIG_FILE,
                    World.Json (Py.JObj [("recipient_email", Py.JStr "ops@nyu.edu");
                                         ("sender_email", Py.JStr "monitor@nyu.edu")]));
                   token_file]))))
  = 1%nat.
Proof. vm_compute. reflexivity. Qed.

(** The claim as stated fails for the empty string, which is a string other
    than the placeholder and is rejected. *)
Lemma empty_recipient_string_is_rejected :
  ~ (forall (members : Py.dict) (s : string),
        Py.dict_lookup "recipient_email" members = Some (Py.JStr s) ->
        s <> "your-email@example.com"%string ->
        Config.check_key (Py.JObj members) "recipient_email" = Py.Return tt).
Proof.
  intros H.
  specialize (H [("recipient_email", Py.JStr ""); ("sender_email", Py.JStr "monitor@nyu.edu")]
                EmptyString eq_refl).
  vm_compute in H. discriminate H. discriminate.
Qed.

Lemma recipient_may_be_string_or_list_witness :
  let members := [("recipient_email", Py.JStr "ops@nyu.edu");
                  ("sender_email", Py.JStr "monitor@nyu.edu")] in
  Py.dict_lookup "recipient_email" members = Some (Py.JStr "ops@nyu.edu") /\
  (Config.check_key (Py.JObj members) "recipient_email" = Py.Return tt
   <-> "ops@nyu.edu"%string <> EmptyString
       /\ "ops@nyu.edu"%string <> "your-email@example.com"%string).
Proof.
  intro members. split; [reflexivity|].
  exact (proj1 (recipient_may_be_string_or_list plain_alert_body members
                  (Py.JStr "ops@nyu.edu") eq_refl) "ops@nyu.edu"%string eq_refl).
Defined.

(** * Further properties of the code *)

(** ** The class hierarchy *)

Section ClassFacts.
Import Py.
Local Open Scope list_scope.

Lemma issubclass_In (c k : exc_class) : issubclass c k = true <-> In k (mro c).
Proof.
  unfold issubclass. rewrite existsb_exists. split.
  - intros (a & Hin & Ha). destruct (exc_class_eq_dec a k) as [<-|]; [exact Hin|discriminate].
  - intros Hin. exists k. split; [exact Hin|].
    destruct (exc_class_eq_dec k k); [reflexivity|contradiction].
Qed.

(** The ancestors of an ancestor are ancestors. *)
Lemma mro_incl (c k : exc_class) : In k (mro c) -> incl (mro k) (mro c).
Proof.
  induction c; cbn [mro]; intros Hin;
    try (cbn [In] in Hin;
         repeat (destruct Hin as [<-|Hin]; [cbn [mro]; intros x Hx; cbn [In] in *; tauto|]);
         contradiction).
  destruct Hin as [<-|Hin].
  - cbn [mro]. apply incl_refl.
  - apply incl_tl, IHc, Hin.
Qed.

Lemma issubclass_trans (c k j : exc_class) :
  issubclass c k = true -> issubclass k j = true -> issubclass c j = true.
Proof.
  rewrite !issubclass_In. intros Hk Hj. exact (mro_incl c k Hk j Hj).
Qed.

Lemma isinstance_trans (e : exn) (k j : exc_class) :
  isinstance e k = true -> issubclass k j = true -> isinstance e j = true.
Proof. apply issubclass_trans. Qed.

(** What is not an [Exception] is an instance of none of its subclasses. *)
Lemma not_exception (e : exn) (k : exc_class) :
  isinstance e Exception = false -> issubclass k Exception = true ->
  isinstance e k = false.
Proof.
  intros He Hk. destruct (isinstance e k) eqn:E; [|reflexivity].
  rewrite (isinstance_trans e k Exception E Hk) in He. discriminate.
Qed.

End ClassFacts.

(** ** The counters over a whole history *)

Section TrackerHistory.
Import Tracker.
Context {timestamp : Type}.
Variable max_failures : Z.

Abbreviation hstate := (Tracker.state timestamp).
Abbreviation htick := (Tracker.tick timestamp).
Abbreviation haction := (Tracker.action timestamp).

Lemma final_state_snoc (ticks : list htick) (tk : htick) (s : hstate) :
  final_state max_failures (ticks ++ [tk]) s
  = fst (run_check max_failures tk (final_state max_failures ticks s)).
Proof. unfold final_state; rewrite fold_left_app; reflexivity. Qed.

Lemma trailing_failures_snoc (ticks : list htick) (tk : htick) :
  trailing_failures (ticks ++ [tk])
  = if failed tk then trailing_failures ticks + 1 else 0.
Proof.
  unfold trailing_failures; rewrite rev_app_distr; simpl.
  destruct (failed tk); [lia | reflexivity].
Qed.

(** After any history the count is the length of the failure streak that ends
    it, and the latch tells whether that streak has reached the threshold. *)
Lemma final_state_counters (ticks : list htick) :
  let s := final_state max_failures ticks init in
  consecutive_failures s = trailing_failures ticks /\
  last_alert_sent s = (Z.max 1 max_failures <=? consecutive_failures s).
Proof.
  induction ticks as [|tk ticks IH] using rev_ind; [split; [reflexivity|] |].
  - simpl. symmetry; apply Z.leb_gt; lia.
  - cbv zeta in *. destruct IH as [Hc Hl].
    rewrite final_state_snoc, trailing_failures_snoc.
    assert (Hnn : 0 <= trailing_failures ticks) by (unfold trailing_failures; lia).
    set (s := final_state max_failures ticks init) in *.
    destruct tk as [now [h msg]]; unfold failed; simpl.
    destruct h; simpl.
    + split; [reflexivity | symmetry; apply Z.leb_gt; lia].
    + assert (HL : if last_alert_sent s
                   then Z.max 1 max_failures <= consecutive_failures s
                   else consecutive_failures s < Z.max 1 max_failures)
        by (rewrite Hl; destruct (Z.leb_spec (Z.max 1 max_failures) (consecutive_failures s));
            assumption).
      clear Hl.
      destruct (Z.leb_spec max_failures (consecutive_failures s + 1));
        destruct (last_alert_sent s); cbn [andb negb fst consecutive_failures last_alert_sent];
        (split; [lia|]);
        destruct (Z.leb_spec (Z.max 1 max_failures) (consecutive_failures s + 1));
        first [reflexivity | lia].
Qed.

Lemma run_checks_final (ticks : list htick) :
  forall (s : hstate) (i : nat) (st : hstate) (a : haction),
    nth_error (run_checks max_failures ticks s) i = Some (st, a) ->
    exists tk,
      nth_error ticks i = Some tk /\
      (st, a) = run_check max_failures tk (final_state max_failures (firstn i ticks) s) /\
      st = final_state max_failures (firstn (S i) ticks) s.
Proof.
  induction ticks as [|tk ticks IH]; intros s i st a H.
  - destruct i; discriminate.
  - destruct i as [|i]; simpl in H.
    + assert (H' : run_check max_failures tk s = (st, a)) by congruence.
      exists tk. unfold final_state. cbn [firstn fold_left nth_error].
      rewrite H'. auto.
    + apply IH in H as (tk' & Hn & Hr & Hf). exists tk'.
      unfold final_state in *. cbn [firstn fold_left nth_error]. auto.
Qed.

(** X1. From the start of the monitor, after every check the failure count is
    the length of the unbroken run of failed checks that ends with it, the
    latch is set exactly while that count is at or above the threshold (a
    threshold below 1 counts as 1), and an alert goes out exactly when the
    count becomes equal to the threshold. *)
Theorem alert_exactly_when_streak_reaches_threshold :
  forall (ticks : list htick) (i : nat) (st : hstate) (a : haction),
    nth_error (run_checks max_failures ticks init) i = Some (st, a) ->
    consecutive_failures st = trailing_failures (firstn (S i) ticks) /\
    last_alert_sent st = (Z.max 1 max_failures <=? consecutive_failures st) /\
    (is_alert a = true <-> consecutive_failures st = Z.max 1 max_failures).
Proof.
  intros ticks i st a H.
  apply run_checks_final in H as (tk & Hn & Hr & Hf).
  pose proof (final_state_counters (firstn (S i) ticks)) as [Hc Hl].
  pose proof (final_state_counters (firstn i ticks)) as [Hc0 Hl0].
  cbv zeta in *. rewrite <- Hf in Hc, Hl.
  split; [exact Hc|]. split; [exact Hl|].
  assert (Hnn : 0 <= trailing_failures (firstn i ticks))
    by (unfold trailing_failures; lia).
  set (s := final_state max_failures (firstn i ticks) init) in *.
  destruct tk as [now [h msg]]; simpl in Hr.
  destruct h.
  - injection Hr as -> ->. simpl. split; [discriminate | lia].
  - assert (HL : if last_alert_sent s
                 then Z.max 1 max_failures <= consecutive_failures s
                 else consecutive_failures s < Z.max 1 max_failures)
      by (rewrite Hl0; destruct (Z.leb_spec (Z.max 1 max_failures) (consecutive_failures s));
          assumption).
    clear Hl0.
    destruct (Z.leb_spec max_failures (consecutive_failures s + 1));
      destruct (last_alert_sent s); cbn [andb negb] in Hr;
      injection Hr as -> ->; cbn [is_alert consecutive_failures];
      (split; [intro; first [discriminate | lia] | intro; first [reflexivity | lia]]).
Qed.

End TrackerHistory.

Example streaks_of_a_history :
  map (fun n => trailing_failures (firstn n [down 1; down 2; up 3; down 4; down 5; down 6]))
      [1; 2; 3; 4; 5; 6]%nat
  = [1; 2; 0; 1; 2; 3].
Proof. reflexivity. Qed.

Lemma alert_exactly_when_streak_reaches_threshold_witness :
  let ticks := [down 1; down 2; up 3; down 4; down 5; down 6] in
  nth_error (Tracker.run_checks 2 ticks Tracker.init) 4
  = Some (Tracker.mk_state (Some 5) 2 true,
          Tracker.SendAlert (Some "Request timeout") 2 5) /\
  Tracker.consecutive_failures (Tracker.mk_state (Some 5) 2 true)
  = trailing_failures (firstn 5 ticks).
Proof.
  split; [reflexivity|].
  exact (proj1 (alert_exactly_when_streak_reaches_threshold 2
                  [down 1; down 2; up 3; down 4; down 5; down 6] 4
                  (Tracker.mk_state (Some 5) 2 true)
                  (Tracker.SendAlert (Some "Request timeout") 2 5) eq_refl)).
Defined.

(** ** [check_website] on every answer *)

Section ProbeAnswers.
Import Py Probe.
Variable str_json : json -> string.

Lemma check_website_propagates (config : dict) (e : exn) :
  isinstance e Exception = false ->
  check_website str_json config (Raise e) = Raise e.
Proof using.
  intros He. unfold check_website, try_except. cbn [bind dispatch existsb].
  rewrite (not_exception e Timeout He eq_refl),
    (not_exception e ConnectionError He eq_refl),
    (not_exception e SSLError He eq_refl),
    (not_exception e TooManyRedirects He eq_refl),
    (not_exception e RequestException He eq_refl), He.
  reflexivity.
Qed.

(** X2. [check_website] turns every response and every [Exception] of
    [requests.get] into a verdict: a response gets the verdict of the status
    and content test, an exception the verdict unhealthy with a reason. The
    reason is absent exactly when the verdict is healthy. What is not an
    [Exception] (an interrupt from the keyboard, [SystemExit]) is not caught
    and passes through. *)
Theorem check_website_answers_every_exception :
  forall (config : dict) (get : outcome response),
    (forall r, get = Return r -> check_website str_json config get = Return (classify r)) /\
    (forall e, get = Raise e -> isinstance e Exception = true ->
       exists msg, check_website str_json config get = Return (false, Some msg)) /\
    (forall e, get = Raise e -> isinstance e Exception = false ->
       check_website str_json config get = Raise e) /\
    (forall h reason, check_website str_json config get = Return (h, reason) ->
       (h = true <-> reason = None)).
Proof using.
  intros config get. split; [|split; [|split]].
  - intros r ->. reflexivity.
  - intros e -> He.
    destruct (check_website_never_raises str_json config (Raise e)) as (h & reason & Hc & Hf & _).
    { intros e' H. injection H as <-. exact He. }
    rewrite Hc. unfold check_website, try_except in Hc. cbn [bind dispatch] in Hc.
    destruct h.
    + exfalso.
      repeat match type of Hc with
             | (if ?c then _ else _) = _ => destruct c
             end; discriminate.
    + destruct (Hf eq_refl) as (msg & ->). exists msg. reflexivity.
  - intros e -> He. apply check_website_propagates. exact He.
  - intros h reason Hc. destruct get as [r|e].
    + unfold check_website, try_except in Hc. cbn [bind] in Hc.
      injection Hc as Hc. unfold classify in Hc.
      repeat match type of Hc with
             | (if ?c then _ else _) = _ => destruct c
             end; injection Hc as <- <-; split; intros H; try reflexivity; discriminate.
    + destruct (isinstance e Exception) eqn:He.
      * destruct (check_website_never_raises str_json config (Raise e))
          as (h' & reason' & Hc' & Hf & Ht).
        { intros e' H. injection H as <-. exact He. }
        rewrite Hc in Hc'. injection Hc' as <- <-.
        destruct h.
        -- split; [intros _; exact (Ht eq_refl)|reflexivity].
        -- destruct (Hf eq_refl) as (msg & ->). split; intros H; discriminate.
      * rewrite (check_website_propagates config e He) in Hc. discriminate.
Qed.

End ProbeAnswers.

(** ** What [load_config] accepts *)

Section ConfigAcceptance.
Import Py World Config.
Local Open Scope list_scope.

(** Only an object gets through the checks. *)
Lemma validate_returns_object (config : json) (d : dict) :
  validate config = Return d -> config = JObj d.
Proof.
  unfold validate. destruct (check_keys config required_keys); cbn [bind]; [|discriminate].
  destruct config; try discriminate. intros H. injection H as <-. reflexivity.
Qed.

Lemma check_sender (members : dict) :
  check_key (JObj members) "sender_email" = Return tt <->
  exists v, dict_lookup "sender_email" members = Some v /\ truthy v = true /\
            v <> JStr "your-sender@example.com".
Proof.
  unfold check_key, contains_key, subscript, dict_has.
  destruct (dict_lookup "sender_email" members) as [v|]; cbn [bind negb].
  2:{ split; [discriminate|]. intros (v & H & _). discriminate. }
  destruct (truthy v) eqn:Ht; cbn [negb].
  2:{ split; [discriminate|]. intros (v' & H & Ht' & _). injection H as <-. congruence. }
  change (String.eqb "sender_email" "recipient_email") with false. cbn iota.
  change ("your-" ++ before_first "_" "sender_email" ++ "@example.com")%string
    with "your-sender@example.com"%string.
  unfold eq_str. split.
  - intros H. exists v. split; [reflexivity|]. split; [exact Ht|].
    intros ->. rewrite String.eqb_refl in H. discriminate.
  - intros (v' & H & _ & Hne). injection H as <-.
    destruct v; try reflexivity.
    destruct (String.eqb_spec s "your-sender@example.com"); [subst; contradiction|reflexivity].
Qed.

Lemma check_recipient (members : dict) :
  check_key (JObj members) "recipient_email" = Return tt <->
  (exists s, dict_lookup "recipient_email" members = Some (JStr s) /\
             s <> EmptyString /\ s <> "your-email@example.com"%string) \/
  (exists item items, dict_lookup "recipient_email" members = Some (JList (item :: items))).
Proof.
  destruct (dict_lookup "recipient_email" members) as [v|] eqn:Hv.
  2:{ rewrite (check_recipient_missing members Hv). split; [discriminate|].
      intros [(s & H & _) | (i & l & H)]; discriminate. }
  destruct v as [|b|n|x|s|items|o];
    try (destruct (check_recipient_other members _ Hv) as (text & ->);
         [intros; discriminate | intros; discriminate |];
         split; [discriminate|]; intros [(s' & H & _) | (i & l & H)]; discriminate).
  - rewrite (check_recipient_string members s Hv).
    destruct (String.eqb_spec s "") as [->|Hne]; cbn [orb].
    { split; [discriminate|]. intros [(s' & H & He & _) | (i & l & H)]; [|discriminate].
      injection H as <-. contradiction. }
    destruct (String.eqb_spec s "your-email@example.com") as [->|Hne2].
    { split; [discriminate|]. intros [(s' & H & _ & He) | (i & l & H)]; [|discriminate].
      injection H as <-. contradiction. }
    split; [|reflexivity]. intros _. left. exists s. auto.
  - rewrite (check_recipient_list members items Hv). destruct items as [|item items].
    { split; [discriminate|]. intros [(s' & H & _) | (i & l & H)]; discriminate. }
    split; [|reflexivity]. intros _. right. exists item, items. reflexivity.
Qed.

(** X3. What gets through the checks of [load_config]: an object whose
    [recipient_email] is a text other than the empty one and
    [your-email@example.com], or a list with at least one item, and whose
    [sender_email] is any value that is true in Python other than the text
    [your-sender@example.com]. Nothing else is looked at, and the
    configuration returned is the object as the file holds it. *)
Theorem config_accepted_iff :
  forall (config : json) (d : dict),
    validate config = Return d <->
    config = JObj d /\
    ((exists s, dict_lookup "recipient_email" d = Some (JStr s) /\
                s <> EmptyString /\ s <> "your-email@example.com"%string) \/
     (exists item items, dict_lookup "recipient_email" d = Some (JList (item :: items)))) /\
    (exists v, dict_lookup "sender_email" d = Some v /\ truthy v = true /\
               v <> JStr "your-sender@example.com").
Proof.
  intros config d. split.
  - intros H. pose proof (validate_returns_object config d H) as ->.
    split; [reflexivity|].
    unfold validate, required_keys in H. cbn [check_keys] in H.
    destruct (check_key (JObj d) "recipient_email") as [[]|] eqn:Hr; [|discriminate].
    cbn [bind] in H.
    destruct (check_key (JObj d) "sender_email") as [[]|] eqn:Hs; [|discriminate].
    split; [apply check_recipient; exact Hr|apply check_sender; exact Hs].
  - intros (-> & Hr & Hs). apply validate_accepts.
    + apply check_recipient; exact Hr.
    + apply check_sender; exact Hs.
Qed.

Lemma validate_benign (config : json) : benign (validate config).
Proof.
  assert (Hk : forall key, benign (check_key config key)).
  { intros key. unfold check_key, contains_key, subscript, please_set, value_error.
    intros e.
    repeat match goal with
           | |- context [if ?c then _ else _] => destruct c
           | |- context [match ?x with _ => _ end] => destruct x
           end; cbn [bind negb];
    repeat match goal with
           | |- context [if ?c then _ else _] => destruct c
           | |- context [match ?x with _ => _ end] => destruct x
           end; intros H; try discriminate; injection H as <-; reflexivity. }
  unfold validate, required_keys. cbn [check_keys].
  apply benign_bind.
  - apply benign_bind; [apply Hk|]. intros _.
    apply benign_bind; [apply Hk|]. intros _. apply benign_return.
  - intros _. destruct config; try apply benign_return; apply benign_raise; reflexivity.
Qed.

(** X4. The first run. Without a configuration file [main] writes the
    template to it, prints two lines and ends the process with status 1
    without entering the monitoring: [SystemExit] is not an [Exception], so
    [main] does not report it as a failure to start. When the file cannot be
    written either, nothing is written and the failure to start is what is
    printed. A file that is there but is not accepted is left as it is. *)
Theorem first_run_writes_the_template :
  forall (monitoring : M unit) (w : world),
    let r := Monitor.main_with monitoring w in
    (lookup_file CONFIG_FILE (files w) = None -> writable w CONFIG_FILE = true ->
     r = (Raise (mk_exn SystemExit "1"),
          add_events (with_file w CONFIG_FILE (JObj default_config))
            [Printed ("Created default config file: " ++ CONFIG_FILE);
             Printed "Please edit the config file and fill in correct email addresses and Gmail API credentials"])) /\
    (lookup_file CONFIG_FILE (files w) = None -> writable w CONFIG_FILE = false ->
     r = (Raise (mk_exn SystemExit "1"),
          add_events w
            [Printed ("Failed to start: [Errno 13] Permission denied: '"
                      ++ CONFIG_FILE ++ "'")])) /\
    (forall c, lookup_file CONFIG_FILE (files w) = Some c ->
       (forall d, c = Json (JObj d) -> validate (JObj d) <> Return d) ->
       exists text,
         r = (Raise (mk_exn SystemExit "1"),
              add_events w [Printed ("Failed to start: " ++ text)])).
Proof.
  intros monitoring w. cbv zeta. split; [|split].
  - intros Hf Hw. unfold writable in Hw. apply negb_true_iff in Hw.
    destruct (missing_config_is_fatal monitoring w Hf Hw) as [-> _].
    unfold add_events, with_file. cbn [files unwritable trace self].
    rewrite <- app_assoc. reflexivity.
  - intros Hf Hw. unfold writable in Hw. apply negb_false_iff in Hw.
    assert (Hl : load_config CONFIG_FILE w
                 = (Raise (mk_exn (Subclass "PermissionError" OSError)
                             ("[Errno 13] Permission denied: '" ++ CONFIG_FILE ++ "'")), w)).
    { unfold load_config, bindM, path_exists, json_dump. rewrite Hf. cbn [negb].
      rewrite Hw. reflexivity. }
    rewrite (main_fatal monitoring w w _ Hl eq_refl). reflexivity.
  - intros c Hf Hbad.
    assert (Hl : exists e, load_config CONFIG_FILE w = (Raise e, w) /\
                           isinstance e Exception = true).
    { destruct c as [v|s].
      - rewrite (load_config_present w v Hf).
        pose proof (validate_benign v) as Hb.
        destruct (validate v) as [d|e] eqn:Hv.
        + exfalso. pose proof (validate_returns_object v d Hv) as ->.
          exact (Hbad d eq_refl Hv).
        + exists e. split; [reflexivity|exact (Hb e eq_refl)].
      - eexists. split.
        + unfold load_config, bindM, path_exists, json_load. rewrite Hf. cbn [negb].
          rewrite Hf. reflexivity.
        + reflexivity. }
    destruct Hl as (e & Hl & He). exists (exn_str e).
    rewrite (main_fatal monitoring w w e Hl He). reflexivity.
Qed.

End ConfigAcceptance.

(** ** Authentication and sending, case by case *)

Section AuthenticationCases.
Import Py Datetime Credential World Notifier.
Local Open Scope list_scope.

Lemma refresh_if_needed_shape (svc : services) (valid_now : bool) (creds : credentials)
    (w : world) :
  let r := refresh_if_needed svc valid_now creds w in
  self (snd r) = self w /\
  exists evs, trace (snd r) = trace w ++ evs /\ Forall preparing evs.
Proof.
  unfold refresh_if_needed. destruct valid_now; cbn [negb].
  - cbn. split; [reflexivity|]. exists []. rewrite app_nil_r. auto.
  - unfold bindM, emit, lift, ret, json_dump. cbn [trace files unwritable self].
    destruct (refresh svc creds) as [c|e].
    + destruct (save_expiry (expiry c)) as [s|e].
      * destruct (existsb (String.eqb TOKEN_JSON_FILE) (unwritable w)); cbn.
        -- split; [reflexivity|]. exists [RefreshRequested creds]. split; [reflexivity|].
           repeat constructor.
        -- split; [reflexivity|].
           exists [RefreshRequested creds;
                   FileWritten TOKEN_JSON_FILE (Json (token_document c s))].
           rewrite <- app_assoc. split; [reflexivity|]. repeat constructor.
      * cbn. split; [reflexivity|]. exists [RefreshRequested creds]. split; [reflexivity|].
        repeat constructor.
    + cbn. split; [reflexivity|]. exists [RefreshRequested creds]. split; [reflexivity|].
      repeat constructor.
Qed.

(** The body of the authentication leaves the monitor object alone; when it
    returns, the last thing it did was to build the service it returns. *)
Lemma service_from_token_file_shape (svc : services) (w w1 : world)
    (o : outcome service) :
  service_from_token_file svc w = (o, w1) ->
  self w1 = self w /\
  exists evs, Forall preparing evs /\
    match o with
    | Return gmail => trace w1 = trace w ++ evs ++ [ServiceBuilt (service_credentials gmail)]
    | Raise _ => trace w1 = trace w ++ evs
    end.
Proof.
  assert (Hnil : self w = self w /\
                 exists evs, Forall preparing evs /\ trace w = trace w ++ evs).
  { split; [reflexivity|]. exists []. rewrite app_nil_r. auto. }
  unfold service_from_token_file, bindM, json_load, lift, emit, ret. intros H.
  destruct (lookup_file TOKEN_JSON_FILE (files w)) as [[v|s]|];
    try (injection H as <- <-; exact Hnil).
  destruct (as_dict v) as [token_data|e]; try (injection H as <- <-; exact Hnil).
  destruct (with_stored_expiry token_data (from_token_data token_data)) as [creds|e];
    try (injection H as <- <-; exact Hnil).
  destruct (is_valid (lib svc) creds) as [valid_now|e];
    try (injection H as <- <-; exact Hnil).
  pose proof (refresh_if_needed_shape svc valid_now creds w) as (Hs & evs & Ht & Hp).
  destruct (refresh_if_needed svc valid_now creds w) as [[c|e] w2]; cbn [fst snd] in *.
  - destruct (build svc c) as [[]|e]; injection H as <- <-; cbn [trace self].
    + split; [exact Hs|]. exists evs. split; [exact Hp|].
      rewrite Ht, <- app_assoc. reflexivity.
    + split; [exact Hs|]. exists evs. auto.
  - injection H as <- <-. split; [exact Hs|]. exists evs. auto.
Qed.

(** What a call of [authenticate_gmail] comes to. *)
Lemma authenticate_gmail_outcome :
  forall (svc : services) (w : world),
    well_behaved svc ->
    let r := authenticate_gmail svc w in
    config (self (snd r)) = config (self w) /\
    counters (self (snd r)) = counters (self w) /\
    (lookup_file TOKEN_JSON_FILE (files w) = None -> r = (Return false, w)) /\
    exists (ok : bool) (evs : list event),
      fst r = Return ok /\ Forall preparing evs /\
      if ok then
        exists creds,
          gmail_service (self (snd r)) = Some (mk_service creds) /\
          trace (snd r) = trace w ++ evs ++ [ServiceBuilt creds]
      else
        gmail_service (self (snd r)) = gmail_service (self w) /\
        trace (snd r) = trace w ++ evs.
Proof.
  intros svc w Hw r. subst r.
  destruct (lookup_file TOKEN_JSON_FILE (files w)) as [c|] eqn:Hf.
  - rewrite (authenticate_gmail_unfold svc w c Hf).
    pose proof (service_from_token_file_benign svc Hw w) as Hb.
    destruct (service_from_token_file svc w) as [o w1] eqn:Hrun.
    destruct (service_from_token_file_shape svc w w1 o Hrun) as (Hs & evs & Hp & Ht).
    destruct o as [gmail|e]; cbn [fst snd authenticated] in *.
    + unfold with_service; cbn [self config counters gmail_service trace].
      rewrite Hs. split; [reflexivity|]. split; [reflexivity|].
      split; [discriminate|].
      exists true, evs. split; [reflexivity|]. split; [exact Hp|].
      exists (service_credentials gmail). destruct gmail; cbn in *. auto.
    + rewrite (Hb e eq_refl). cbn [fst snd]. rewrite Hs.
      split; [reflexivity|]. split; [reflexivity|]. split; [discriminate|].
      exists false, evs. auto.
  - assert (H : authenticate_gmail svc w = (Return false, w)).
    { unfold authenticate_gmail, try_exceptM, bindM, path_exists. rewrite Hf. reflexivity. }
    rewrite H. cbn [fst snd]. split; [reflexivity|]. split; [reflexivity|].
    split; [reflexivity|]. exists false, []. rewrite app_nil_r. auto.
Qed.

(** X5. [authenticate_gmail] comes back with [True] or [False] whatever the
    token file holds and whatever the collaborators raise. With [True] the
    monitor holds a service, and building it was the last thing the call did;
    with [False] the monitor holds what it held before and no service was
    built. Either way the call only requests a refresh or writes the token
    file, and without a token file it does nothing at all. *)
Theorem authenticate_gmail_reports_the_service :
  forall (svc : services) (w : world),
    well_behaved svc ->
    let r := authenticate_gmail svc w in
    config (self (snd r)) = config (self w) /\
    counters (self (snd r)) = counters (self w) /\
    (lookup_file TOKEN_JSON_FILE (files w) = None -> r = (Return false, w)) /\
    exists (ok : bool) (evs : list event),
      fst r = Return ok /\ Forall preparing evs /\
      if ok then
        exists creds,
          gmail_service (self (snd r)) = Some (mk_service creds) /\
          trace (snd r) = trace w ++ evs ++ [ServiceBuilt creds]
      else
        gmail_service (self (snd r)) = gmail_service (self w) /\
        trace (snd r) = trace w ++ evs.
Proof. exact authenticate_gmail_outcome. Qed.





(** X7. When the loaded credential is judged not valid and the refresh itself
    fails, [authenticate_gmail] returns [False] having done nothing but ask
    for the refresh: the token file is not rewritten, no service is built,
    and the monitor holds what it held before. *)
Theorem failed_refresh_leaves_token_file :
  forall (svc : services) (w : world) (token_data : dict) (creds : credentials) (e : exn),
    lookup_file TOKEN_JSON_FILE (files w) = Some (Json (JObj token_data)) ->
    with_stored_expiry token_data (from_token_data token_data) = Return creds ->
    is_valid (lib svc) creds = Return false ->
    refresh svc creds = Raise e ->
    isinstance e Exception = true ->
    authenticate_gmail svc w = (Return false, add_events w [RefreshRequested creds]).
Proof.
  intros svc w token_data creds e Hf Hc Hv Hr He.
  rewrite (authenticate_gmail_unfold svc w _ Hf).
  unfold service_from_token_file, refresh_if_needed, bindM, json_load, lift, emit, ret.
  rewrite Hf. cbn [as_dict]. rewrite Hc, Hv. cbn [negb]. rewrite Hr.
  cbn [authenticated]. rewrite He. reflexivity.
Qed.

Lemma strings_of_benign (items : list json) : benign (strings_of items).
Proof.
  induction items as [|v items IH]; [apply benign_return|].
  destruct v; try (apply benign_raise; reflexivity).
  cbn [strings_of]. apply benign_bind; [exact IH|]. intros l. apply benign_return.
Qed.

Lemma subscript_benign (config : json) (key : string) : benign (Config.subscript config key).
Proof.
  unfold Config.subscript. destruct config; try (apply benign_raise; reflexivity).
  destruct (dict_lookup key members); [apply benign_return | apply benign_raise; reflexivity].
Qed.

Lemma build_message_benign (config : dict) (subject body : string) :
  benign (build_message config subject body).
Proof.
  unfold build_message, recipient_header, sender_header.
  apply benign_bind.
  { apply benign_bind; [apply subscript_benign|]. intros v.
    destruct v; try (apply benign_raise; reflexivity); try apply benign_return.
    apply benign_bind; [apply strings_of_benign|]. intros l. apply benign_return. }
  intros to. apply benign_bind.
  { apply benign_bind; [apply subscript_benign|]. intros v.
    destruct v; try (apply benign_raise; reflexivity); apply benign_return. }
  intros sender. apply benign_return.
Qed.

(** The [try] block of [send_email], outcome by outcome. *)
Lemma deliver_cases (svc : services) (subject body : string) (w : world) :
  deliver svc subject body w =
    match build_message (config (self w)) subject body with
    | Raise _ => (Return false, w)
    | Return msg =>
        match gmail_service (self w) with
        | None => (Return false, w)
        | Some gmail =>
            (match execute svc gmail msg with
             | Return _ => Return true
             | Raise e => if isinstance e Exception then Return false else Raise e
             end,
             add_events w [MessageSubmitted gmail msg])
        end
    end.
Proof.
  unfold deliver, try_exceptM, bindM, get_self, lift, emit, ret, raise.
  pose proof (build_message_benign (config (self w)) subject body) as Hb.
  destruct (build_message (config (self w)) subject body) as [msg|e].
  - destruct (gmail_service (self w)) as [gmail|]; [|reflexivity].
    cbn [trace files self unwritable]. unfold add_events.
    destruct (execute svc gmail msg) as [v|e]; [reflexivity|].
    cbn [dispatchM existsb]. rewrite !orb_false_r.
    destruct (isinstance e HttpError) eqn:Eh.
    + assert (He : isinstance e Exception = true)
        by (apply (isinstance_trans e HttpError Exception Eh); reflexivity).
      rewrite He. reflexivity.
    + destruct (isinstance e Exception); reflexivity.
  - cbn [dispatchM existsb]. rewrite !orb_false_r.
    rewrite (Hb e eq_refl).
    destruct (isinstance e HttpError); reflexivity.
Qed.





(** What a call of [send_email] comes to. *)
Lemma send_email_outcome :
  forall (svc : services) (subject body : string) (w : world),
    well_behaved svc ->
    let r := send_email svc subject body w in
    config (self (snd r)) = config (self w) /\
    counters (self (snd r)) = counters (self w) /\
    (gmail_service (self w) = None ->
     lookup_file TOKEN_JSON_FILE (files w) = None -> r = (Return false, w)) /\
    exists (ok : bool) (pre : list event),
      fst r = Return ok /\ Forall authenticating pre /\
      ((ok = false /\ trace (snd r) = trace w ++ pre) \/
       exists gmail msg,
         gmail_service (self (snd r)) = Some gmail /\
         build_message (config (self w)) subject body = Return msg /\
         trace (snd r) = trace w ++ pre ++ [MessageSubmitted gmail msg]).
Proof.
  intros svc subject body w Hw r. subst r.
  assert (Hdel : forall w1 : world,
    config (self w1) = config (self w) ->
    exists ok : bool,
      fst (deliver svc subject body w1) = Return ok /\
      self (snd (deliver svc subject body w1)) = self w1 /\
      ((ok = false /\ trace (snd (deliver svc subject body w1)) = trace w1) \/
       exists gmail msg,
         gmail_service (self w1) = Some gmail /\
         build_message (config (self w)) subject body = Return msg /\
         trace (snd (deliver svc subject body w1)) = trace w1 ++ [MessageSubmitted gmail msg])).
  { intros w1 Hc. rewrite deliver_cases, Hc.
    destruct (build_message (config (self w)) subject body) as [msg|e].
    - destruct (gmail_service (self w1)) as [gmail|] eqn:Hg.
      + destruct Hw as (_ & _ & Hx). specialize (Hx gmail msg).
        destruct (execute svc gmail msg) as [v|e]; cbn [fst snd].
        * exists true. split; [reflexivity|]. split; [reflexivity|]. right.
          exists gmail, msg. auto.
        * rewrite (Hx e eq_refl). exists false. split; [reflexivity|].
          split; [reflexivity|]. right. exists gmail, msg. auto.
      + exists false. cbn. auto.
    - exists false. cbn. auto. }
  rewrite send_email_unfold.
  destruct (gmail_service (self w)) as [gmail|] eqn:Hg.
  - destruct (Hdel w eq_refl) as (ok & Hr & Hs & Ht).
    rewrite Hs. split; [reflexivity|]. split; [reflexivity|]. split; [discriminate|].
    exists ok, []. split; [exact Hr|]. split; [constructor|].
    rewrite app_nil_r. cbn [app]. exact Ht.
  - pose proof (authenticate_gmail_outcome svc w Hw) as (Hc & Hk & Hnone & auth & evs & Hauth & Hp & Hres).
    cbv zeta in *.
    destruct (authenticate_gmail svc w) as [o w1] eqn:Ha. cbn [fst snd] in *. subst o.
    assert (Hpa : Forall authenticating evs).
    { eapply Forall_impl; [|exact Hp]. intros ev; destruct ev; cbn; auto. }
    destruct auth.
    + destruct Hres as (creds & Hg1 & Htr).
      destruct (Hdel w1 Hc) as (ok & Hr & Hs & Ht).
      rewrite Hs. split; [exact Hc|]. split; [exact Hk|].
      split.
      { intros _ Hnf. specialize (Hnone Hnf). discriminate. }
      exists ok, (evs ++ [ServiceBuilt creds]). split; [exact Hr|].
      split; [apply Forall_app; split; [exact Hpa | repeat constructor]|].
      destruct Ht as [[-> Ht] | (gmail & msg & Hg2 & Hm & Ht)].
      * left. split; [reflexivity|]. rewrite Ht, Htr. reflexivity.
      * right. exists gmail, msg. rewrite Ht, Htr, <- !app_assoc. auto.
    + destruct Hres as (Hg1 & Htr). cbn [fst snd].
      split; [exact Hc|]. split; [exact Hk|].
      split.
      { intros _ Hnf. exact (Hnone Hnf). }
      exists false, evs. split; [reflexivity|]. split; [exact Hpa|]. left. auto.
Qed.

(** X9. [send_email] never raises: it returns [True] or [False]. It submits
    at most one message, as the last thing it does, and only through a
    service the monitor holds by then; [True] is returned only after a
    submission. Without a service and without a token file it returns [False]
    and leaves everything as it was. *)
Theorem send_email_never_raises :
  forall (svc : services) (subject body : string) (w : world),
    well_behaved svc ->
    let r := send_email svc subject body w in
    config (self (snd r)) = config (self w) /\
    counters (self (snd r)) = counters (self w) /\
    (gmail_service (self w) = None ->
     lookup_file TOKEN_JSON_FILE (files w) = None -> r = (Return false, w)) /\
    exists (ok : bool) (pre : list event),
      fst r = Return ok /\ Forall authenticating pre /\
      ((ok = false /\ trace (snd r) = trace w ++ pre) \/
       exists gmail msg,
         gmail_service (self (snd r)) = Some gmail /\
         build_message (config (self w)) subject body = Return msg /\
         trace (snd r) = trace w ++ pre ++ [MessageSubmitted gmail msg]).
Proof. exact send_email_outcome. Qed.

End AuthenticationCases.

(** ** One check, the loop and the run *)

Section RunFacts.
Import Py Datetime Credential World Notifier Config.
Local Open Scope list_scope.

Variable str_json : json -> string.
Variable alert_body : option datetime -> Z -> json -> option string -> string.
Variable error_body : datetime -> string -> string.

Lemma check_website_observed (config : dict) (tk : Monitor.tick) :
  benign (Monitor.get tk) ->
  Probe.check_website str_json config (Monitor.get tk)
  = Return (snd (observed str_json config tk)).
Proof using.
  intros Hb. unfold observed.
  destruct (check_website_never_raises str_json config (Monitor.get tk) Hb)
    as (h & reason & Hc & _).
  rewrite Hc. reflexivity.
Qed.





Lemma authenticating_counts (pre : list event) :
  Forall authenticating pre ->
  filter is_sleep pre = [] /\ filter is_submission pre = [].
Proof using.
  induction 1 as [|ev pre Hev _ [IH1 IH2]]; [split; reflexivity|].
  destruct ev; cbn in Hev; try contradiction; cbn [filter is_sleep is_submission]; auto.
Qed.

















Lemma int_ge_raises (v : json) (e : exn) (c : Z) :
  Monitor.int_ge 0 v = Raise e -> Monitor.int_ge c v = Raise e.
Proof using. destruct v; cbn; intros H; try discriminate; exact H. Qed.

(** X14. A threshold [max_consecutive_failures] that is not a number is not
    noticed while the site is up: a healthy check resets the counters and
    returns. The first failed check counts the failure and then raises
    [TypeError] at the comparison with the threshold, before any mail is
    sent. *)
Theorem non_numeric_threshold_fails_at_first_failure :
  forall (tk : Monitor.tick) (w : world) (e : exn),
    Monitor.int_ge 0 (dict_get "max_consecutive_failures" (JInt 2) (config (self w)))
    = Raise e ->
    orderly tk ->
    let seen := observed str_json (config (self w)) tk in
    let r := Monitor.run_check str_json alert_body tk w in
    exn_class e = TypeError /\
    (fst (snd seen) = true ->
     r = (Return true,
          with_counters w {| Tracker.last_check_time := Some (Monitor.now tk);
                             Tracker.consecutive_failures := 0;
                             Tracker.last_alert_sent := false |})) /\
    (fst (snd seen) = false ->
     r = (Raise e,
          with_counters w
            {| Tracker.last_check_time := Some (Monitor.now tk);
               Tracker.consecutive_failures
               := Tracker.consecutive_failures (counters (self w)) + 1;
               Tracker.last_alert_sent := Tracker.last_alert_sent (counters (self w)) |})).
Proof using.
  intros tk w e He [_ Hb]. cbv zeta.
  destruct (check_website_never_raises str_json (config (self w)) (Monitor.get tk) Hb)
    as (h & reason & Hc & _).
  unfold observed. rewrite Hc. cbn [fst snd].
  split.
  { destruct (dict_get "max_consecutive_failures" (JInt 2) (config (self w)));
      cbn in He; try discriminate; injection He as <-; reflexivity. }
  unfold Monitor.run_check, Monitor.set_last_check_time, Monitor.set_consecutive_failures,
    Monitor.set_last_alert_sent, bindM, get_self, set_counters, put_self, lift, ret.
  cbn [self config counters files unwritable trace Tracker.consecutive_failures
       Tracker.last_alert_sent Tracker.last_check_time].
  rewrite Hc.
  split; intros ->.
  - reflexivity.
  - cbn [self config counters files unwritable trace Tracker.consecutive_failures
         Tracker.last_alert_sent Tracker.last_check_time].
    rewrite (int_ge_raises _ e _ He). reflexivity.
Qed.

End RunFacts.

(** ** The script that rewrites the expiry of the token file *)

Section FixFacts.
Import Py Datetime Credential World Notifier.
Local Open Scope list_scope.

Lemma parse_isoformat_time_offset (tstr : string) (h mi s us off : Z) :
  parse_isoformat_time tstr = Some (h, mi, s, us, Some off) -> check_offset off = true.
Proof.
  unfold parse_isoformat_time.
  destruct (String.length tstr <? 2)%nat; [discriminate|].
  match goal with
  | |- context [parse_hh_mm_ss_ff (fst ?p)] => generalize p; intros [timestr tz]
  end.
  cbn [fst snd].
  destruct (parse_hh_mm_ss_ff timestr) as [[[[hh m1] ss] u1]|]; [|discriminate].
  destruct tz as [[tzsign tzstr]|]; [|discriminate].
  match goal with |- context [if negb ?c then _ else _] => destruct c end;
    cbn [negb]; [|discriminate].
  destruct (parse_hh_mm_ss_ff tzstr) as [[[[th tm] ts] tus]|]; [|discriminate].
  match goal with |- context [if check_offset ?o then _ else _] =>
    destruct (check_offset o) eqn:E end; [|discriminate].
  intros H. injection H as _ _ _ _ <-. exact E.
Qed.

(** What [fromisoformat] returns has passed the checks of the constructor. *)
Lemma fromisoformat_well_formed (s : string) (dt : datetime) :
  fromisoformat s = Return dt -> well_formed dt = true.
Proof.
  unfold fromisoformat, invalid_isoformat.
  destruct (take_digits 4 s) as [[y r0]|]; [|discriminate].
  destruct r0 as [|c0 r1]; [discriminate|].
  destruct (Ascii.eqb_spec c0 "-") as [->|Hne].
  2:{ destruct c0 as [[] [] [] [] [] [] [] []]; try discriminate. exfalso; apply Hne; reflexivity. }
  destruct (take_digits 2 r1) as [[m r2]|]; [|discriminate].
  destruct r2 as [|c1 r2]; [discriminate|].
  destruct (Ascii.eqb_spec c1 "-") as [->|Hne].
  2:{ destruct c1 as [[] [] [] [] [] [] [] []]; try discriminate. exfalso; apply Hne; reflexivity. }
  destruct (take_digits 2 r2) as [[d r3]|]; [|discriminate].
  match goal with
  | |- context [match ?t with Some _ => _ | None => _ end] =>
      destruct t as [[[[[hh mi] ss] us] tz]|] eqn:Ht
  end; [|discriminate].
  destruct (check_date_fields y m d && check_time_fields hh mi ss us) eqn:Hc; [|discriminate].
  intros H. injection H as <-. unfold well_formed. cbn [year month day hour minute second
    microsecond tzinfo]. apply andb_true_iff in Hc as [Hd Htm]. rewrite Hd, Htm. cbn [andb].
  destruct tz as [off|]; [|reflexivity].
  destruct r3 as [|c3 [|c4 tstr]]; try discriminate.
  exact (parse_isoformat_time_offset _ _ _ _ _ _ Ht).
Qed.

(** What [load_expiry] returns is a well-formed value in UTC. *)
Lemma load_expiry_well_formed (v : json) (u : datetime) :
  load_expiry v = Return u -> well_formed u = true /\ tzinfo u = utc.
Proof.
  unfold load_expiry. destruct v; try discriminate.
  match goal with |- context [fromisoformat ?x] => destruct (fromisoformat x) as [dt|] eqn:Hf end;
    [|discriminate].
  cbn [bind]. intros Hu. pose proof (fromisoformat_well_formed _ _ Hf) as Hwf.
  destruct (to_utc_correct dt u Hwf Hu) as (H1 & H2 & _). auto.
Qed.

(** The rewritten expiry reads back as the value it was written from, and
    rewriting it again changes nothing. *)
Lemma fix_expiry_stable (v v' : json) :
  fix_expiry v = Return v' ->
  load_expiry v' = load_expiry v /\ fix_expiry v' = Return v' /\ truthy v' = true.
Proof.
  unfold fix_expiry. destruct (load_expiry v) as [u|] eqn:Hl; [|discriminate].
  cbn [bind]. intros H. injection H as <-.
  destruct (load_expiry_well_formed v u Hl) as [Hwf Hz].
  rewrite (load_expiry_zulu u Hwf Hz). cbn [bind].
  split; [reflexivity|]. split; [reflexivity|].
  rewrite (zulu_string_utc u Hz). cbn [truthy].
  destruct (iso_naive u); reflexivity.
Qed.


(** Assignment to a key of a [dict]. *)
Lemma dict_lookup_set_same (key : string) (v : json) (d : dict) :
  dict_lookup key (dict_set key v d) = Some v.
Proof.
  induction d as [|[k old] d IH]; cbn [dict_set dict_lookup].
  - rewrite String.eqb_refl. reflexivity.
  - destruct (String.eqb k key) eqn:E; cbn [dict_lookup]; rewrite E; [reflexivity|exact IH].
Qed.

Lemma dict_lookup_set_other (key other : string) (v : json) (d : dict) :
  other <> key -> dict_lookup other (dict_set key v d) = dict_lookup other d.
Proof.
  intros Hne. induction d as [|[k old] d IH]; cbn [dict_set dict_lookup].
  - destruct (String.eqb_spec key other) as [->|_]; [contradiction|reflexivity].
  - destruct (String.eqb_spec k key) as [->|Hk]; cbn [dict_lookup].
    + destruct (String.eqb_spec key other) as [->|_]; [contradiction|reflexivity].
    + destruct (String.eqb k other); [reflexivity|exact IH].
Qed.

Lemma dict_set_keys (key : string) (v : json) (d : dict) :
  dict_has key d = true -> map fst (dict_set key v d) = map fst d.
Proof.
  unfold dict_has. induction d as [|[k old] d IH]; cbn [dict_set dict_lookup map fst].
  - discriminate.
  - destruct (String.eqb k key); cbn [map fst]; [reflexivity|].
    intros H. rewrite (IH H). reflexivity.
Qed.

Lemma dict_set_twice (key : string) (v : json) (d : dict) :
  dict_set key v (dict_set key v d) = dict_set key v d.
Proof.
  induction d as [|[k old] d IH]; cbn [dict_set].
  - rewrite String.eqb_refl. reflexivity.
  - destruct (String.eqb k key) eqn:E; cbn [dict_set]; rewrite E; [reflexivity|].
    rewrite IH. reflexivity.
Qed.

Lemma fixed_token_data_benign (token_data : dict) : benign (fixed_token_data token_data).
Proof.
  unfold fixed_token_data.
  destruct (dict_has "expiry" token_data && truthy (dict_get "expiry" JNull token_data));
    [|apply benign_return].
  apply benign_bind; [|intros; apply benign_return].
  unfold fix_expiry. apply benign_bind; [apply load_expiry_benign|intros; apply benign_return].
Qed.

(** The script, outcome by outcome, when the token file holds an object. *)
Lemma fix_token_timezone_unfold (w : world) (token_data : dict) :
  lookup_file TOKEN_JSON_FILE (files w) = Some (Json (JObj token_data)) ->
  fix_token_timezone w =
    match fixed_token_data token_data with
    | Raise _ => (Return false, w)
    | Return fixed =>
        if writable w BACKUP_FILE then
          if writable w TOKEN_JSON_FILE
          then (Return true,
                with_file (with_file w BACKUP_FILE (JObj fixed)) TOKEN_JSON_FILE (JObj fixed))
          else (Return false, with_file w BACKUP_FILE (JObj fixed))
        else (Return false, w)
    end.
Proof.
  intros Hf. pose proof (fixed_token_data_benign token_data) as Hb.
  unfold fix_token_timezone, bindM at 1, path_exists. rewrite Hf. cbn [negb].
  unfold try_exceptM, bindM at 1, json_load. rewrite Hf.
  unfold bindM at 1, lift at 1. cbn [as_dict].
  unfold fixed_token_data in *. unfold bindM at 1.
  destruct (dict_has "expiry" token_data && truthy (dict_get "expiry" JNull token_data)).
  - unfold bindM at 1, lift at 1.
    destruct (fix_expiry (dict_get "expiry" JNull token_data)) as [fixed|e]; cbn [bind] in *.
    + unfold ret at 1. unfold bindM, json_dump, writable, BACKUP_FILE, with_file.
      cbn [files unwritable trace self].
      destruct (existsb (String.eqb (TOKEN_JSON_FILE ++ ".backup")) (unwritable w));
        cbn [negb]; [reflexivity|].
      cbn [files unwritable trace self].
      destruct (existsb (String.eqb TOKEN_JSON_FILE) (unwritable w)); cbn [negb];
        reflexivity.
    + cbn [dispatchM existsb]. rewrite (Hb e eq_refl). reflexivity.
  - unfold ret at 1. unfold bindM, json_dump, writable, BACKUP_FILE, with_file.
    cbn [files unwritable trace self].
    destruct (existsb (String.eqb (TOKEN_JSON_FILE ++ ".backup")) (unwritable w));
      cbn [negb]; [reflexivity|].
    cbn [files unwritable trace self].
    destruct (existsb (String.eqb TOKEN_JSON_FILE) (unwritable w)); cbn [negb];
      reflexivity.
Qed.

(** Without an object in the token file the script gives up at once. *)
Lemma fix_token_timezone_no_object (w : world) :
  (forall token_data,
      lookup_file TOKEN_JSON_FILE (files w) <> Some (Json (JObj token_data))) ->
  fix_token_timezone w = (Return false, w).
Proof.
  intros Hno. unfold fix_token_timezone, bindM at 1, path_exists.
  destruct (lookup_file TOKEN_JSON_FILE (files w)) as [[v|s]|] eqn:Hf; cbn [negb];
    [| |reflexivity].
  - unfold try_exceptM, bindM at 1, json_load. rewrite Hf.
    unfold bindM at 1, lift at 1.
    destruct v; cbn [as_dict]; try reflexivity.
    exfalso. exact (Hno members eq_refl).
  - unfold try_exceptM, bindM at 1, json_load. rewrite Hf. reflexivity.
Qed.


(** The rewritten token data: same keys in the same order, same values but
    for the expiry. *)
Lemma fixed_token_data_shape (token_data fixed : dict) :
  fixed_token_data token_data = Return fixed ->
  map fst fixed = map fst token_data /\
  (forall key, key <> "expiry"%string -> dict_lookup key fixed = dict_lookup key token_data) /\
  match dict_lookup "expiry" token_data with
  | Some v =>
      if truthy v
      then exists u, load_expiry v = Return u /\
                     dict_lookup "expiry" fixed = Some (JStr (zulu_string u))
      else fixed = token_data
  | None => fixed = token_data
  end.
Proof.
  unfold fixed_token_data, dict_has, dict_get.
  destruct (dict_lookup "expiry" token_data) as [v|] eqn:Hv; cbn [andb].
  2:{ intros H. injection H as <-. auto. }
  destruct (truthy v).
  2:{ intros H. injection H as <-. auto. }
  unfold fix_expiry. destruct (load_expiry v) as [u|] eqn:Hu; [|discriminate].
  cbn [bind]. intros H. injection H as <-.
  split; [apply dict_set_keys; unfold dict_has; rewrite Hv; reflexivity|].
  split; [intros key Hk; apply dict_lookup_set_other; exact Hk|].
  exists u. split; [reflexivity|apply dict_lookup_set_same].
Qed.


Lemma from_token_data_fixed (token_data fixed : dict) :
  fixed_token_data token_data = Return fixed ->
  from_token_data fixed = from_token_data token_data.
Proof.
  intros H. destruct (fixed_token_data_shape token_data fixed H) as (_ & Ho & _).
  unfold from_token_data, dict_get. rewrite !Ho by discriminate. reflexivity.
Qed.

(** Rewriting the rewritten token data changes nothing, and the credential
    loaded from it is the one loaded from the original. *)
Lemma fixed_token_data_stable (token_data fixed : dict) :
  fixed_token_data token_data = Return fixed ->
  fixed_token_data fixed = Return fixed /\
  forall creds, with_stored_expiry fixed creds = with_stored_expiry token_data creds.
Proof.
  unfold fixed_token_data, with_stored_expiry, dict_has, dict_get.
  destruct (dict_lookup "expiry" token_data) as [v|] eqn:Hv; cbn [andb].
  2:{ intros H. injection H as <-. rewrite Hv. auto. }
  destruct (truthy v) eqn:Ht.
  2:{ intros H. injection H as <-. rewrite Hv, Ht. auto. }
  destruct (fix_expiry v) as [v'|] eqn:Hfx; [|discriminate].
  cbn [bind]. intros H. injection H as <-.
  destruct (fix_expiry_stable v v' Hfx) as (Hload & Hfix2 & Htr).
  rewrite dict_lookup_set_same, Htr, Hfix2. cbn [andb bind]. rewrite dict_set_twice.
  split; [reflexivity|]. intros creds. rewrite Hload. reflexivity.
Qed.

(** X16. Running [fix_token_timezone] a second time changes nothing: after a
    run that returned [True], another run returns [True] again and writes the
    same token data to the token file and to the backup. *)
Theorem fix_token_timezone_is_idempotent :
  forall (w w1 : world),
    fix_token_timezone w = (Return true, w1) ->
    exists w2,
      fix_token_timezone w1 = (Return true, w2) /\
      lookup_file TOKEN_JSON_FILE (files w2) = lookup_file TOKEN_JSON_FILE (files w1) /\
      lookup_file BACKUP_FILE (files w2) = lookup_file BACKUP_FILE (files w1).
Proof.
  intros w w1 H.
  destruct (lookup_file TOKEN_JSON_FILE (files w)) as [[[| | | | | |token_data]|]|] eqn:Hf;
    try (rewrite fix_token_timezone_no_object in H
           by (intros td; rewrite Hf; discriminate); discriminate).
  rewrite (fix_token_timezone_unfold w token_data Hf) in H.
  destruct (fixed_token_data token_data) as [fixed|e] eqn:Hfix; [|discriminate].
  destruct (writable w BACKUP_FILE) eqn:Hwb; [|discriminate].
  destruct (writable w TOKEN_JSON_FILE) eqn:Hwt; [|discriminate].
  injection H as <-.
  destruct (fixed_token_data_stable token_data fixed Hfix) as [Hst _].
  eexists. split.
  - rewrite (fix_token_timezone_unfold _ fixed) by reflexivity.
    rewrite Hst. unfold writable in *. cbn [with_file unwritable]. rewrite Hwb, Hwt.
    reflexivity.
  - split; reflexivity.
Qed.

(** X17. The script does not change what the monitor reads: the credential
    that [authenticate_gmail] makes of the token file after a run that
    returned [True] (the entries it passes to [Credentials], then the expiry
    it loads) is the credential it made of the file before. *)
Theorem fix_token_timezone_keeps_the_loaded_credential :
  forall (w w1 : world),
    fix_token_timezone w = (Return true, w1) ->
    exists token_data fixed,
      lookup_file TOKEN_JSON_FILE (files w) = Some (Json (JObj token_data)) /\
      lookup_file TOKEN_JSON_FILE (files w1) = Some (Json (JObj fixed)) /\
      from_token_data fixed = from_token_data token_data /\
      with_stored_expiry fixed (from_token_data fixed)
      = with_stored_expiry token_data (from_token_data token_data).
Proof.
  intros w w1 H.
  destruct (lookup_file TOKEN_JSON_FILE (files w)) as [[[| | | | | |token_data]|]|] eqn:Hf;
    try (rewrite fix_token_timezone_no_object in H
           by (intros td; rewrite Hf; discriminate); discriminate).
  rewrite (fix_token_timezone_unfold w token_data Hf) in H.
  destruct (fixed_token_data token_data) as [fixed|e] eqn:Hfix; [|discriminate].
  destruct (writable w BACKUP_FILE) eqn:Hwb; [|discriminate].
  destruct (writable w TOKEN_JSON_FILE) eqn:Hwt; [|discriminate].
  injection H as <-.
  destruct (fixed_token_data_stable token_data fixed Hfix) as [_ Hsame].
  exists token_data, fixed. split; [reflexivity|]. split; [reflexivity|].
  rewrite (from_token_data_fixed token_data fixed Hfix), Hsame.
  split; reflexivity.
Qed.

End FixFacts.

(** ** What is written to the token file, read back *)

Section StoreFacts.
Import Py Datetime Credential World Notifier.
Local Open Scope list_scope.

Lemma from_token_document (creds : credentials) (expiry_str : json) :
  from_token_data (members_of (token_document creds expiry_str)) = set_expiry creds None.
Proof. reflexivity. Qed.

Lemma zulu_string_truthy (u : datetime) : tzinfo u = utc -> truthy (JStr (zulu_string u)) = true.
Proof.
  intros Hz. rewrite (zulu_string_utc u Hz). cbn [truthy]. destruct (iso_naive u); reflexivity.
Qed.


(** The stored expiry, whichever of the two writers wrote it, loads as the
    expiry in UTC. *)
Lemma stored_expiry_loads (creds : credentials) (expiry_str : json) :
  well_formed_expiry (expiry creds) = true ->
  (forall d, expiry creds = Some d -> exists u, to_utc d = Return u) ->
  (forall d, expiry creds = Some d ->
     truthy expiry_str = true /\ load_expiry expiry_str = to_utc d) ->
  (expiry creds = None -> expiry_str = JNull) ->
  loaded_from (token_document creds expiry_str)
  = Return (set_expiry creds (in_utc (expiry creds))).
Proof.
  intros Hwf Hconv Hsome Hnone. unfold loaded_from.
  rewrite from_token_document. unfold with_stored_expiry, in_utc.
  change (dict_has "expiry" (members_of (token_document creds expiry_str))) with true.
  change (dict_get "expiry" JNull (members_of (token_document creds expiry_str)))
    with expiry_str.
  cbn [andb].
  destruct (expiry creds) as [d|] eqn:He.
  - destruct (Hsome d eq_refl) as [Ht Hl]. destruct (Hconv d eq_refl) as [u Hu].
    rewrite Ht, Hl, Hu. cbn [bind try_except]. destruct creds; reflexivity.
  - rewrite (Hnone eq_refl). cbn [truthy]. destruct creds; reflexivity.
Qed.

(** X18. What [authenticate_gmail] writes to the token file after a refresh,
    the next start reads back as the same credential: the same token, refresh
    token, endpoint, client and scopes, and the expiry at the same instant, in
    UTC. *)
Theorem refreshed_credential_loads_back :
  forall (creds : credentials) (expiry_str : json),
    well_formed_expiry (expiry creds) = true ->
    save_expiry (expiry creds) = Return expiry_str ->
    loaded_from (token_document creds expiry_str)
    = Return (set_expiry creds (in_utc (expiry creds))) /\
    (forall d, expiry creds = Some d ->
       exists u, in_utc (expiry creds) = Some u /\ tzinfo u = utc /\
                 instant u = instant d).
Proof.
  intros creds expiry_str Hwf Hsave.
  assert (Hconv : forall d, expiry creds = Some d -> exists u, to_utc d = Return u).
  { intros d He. unfold save_expiry in Hsave. rewrite He in Hsave.
    destruct (to_utc d) as [u|]; [eauto|discriminate]. }
  split.
  - apply stored_expiry_loads; [exact Hwf|exact Hconv| |].
    + intros d He. destruct (Hconv d He) as [u Hu].
      unfold save_expiry in Hsave. rewrite He, Hu in Hsave. cbn [bind] in Hsave.
      injection Hsave as <-. unfold well_formed_expiry in Hwf. rewrite He in Hwf.
      destruct (to_utc_correct d u Hwf Hu) as (Hwu & Hz & _).
      split; [apply zulu_string_truthy; exact Hz|].
      rewrite Hu. apply load_expiry_zulu; assumption.
    + intros He. unfold save_expiry in Hsave. rewrite He in Hsave. congruence.
  - intros d He. destruct (Hconv d He) as [u Hu]. exists u.
    unfold in_utc. rewrite He, Hu. unfold well_formed_expiry in Hwf. rewrite He in Hwf.
    destruct (to_utc_correct d u Hwf Hu) as (_ & Hz & Hi). auto.
Qed.

Section Pickling.
Variable pickle_dumps : credentials -> string.


End Pickling.
End StoreFacts.

(** ** The test script *)

Section TestScriptFacts.
Import Py Datetime Credential World Notifier.
Local Open Scope list_scope.

Variable test_body : datetime -> json -> json -> string.

Lemma load_and_authenticate_unfold (svc : services) (w : world) (c : file_content) :
  lookup_file TOKEN_JSON_FILE (files w) = Some c ->
  load_and_authenticate svc w =
    match service_from_token_file svc w with
    | (Return gmail, w1) => (Return (Some gmail), w1)
    | (Raise e, w1) => if isinstance e Exception then (Return None, w1) else (Raise e, w1)
    end.
Proof using.
  intros Hf. unfold load_and_authenticate, bindM at 1, path_exists. rewrite Hf. cbn [negb].
  unfold try_exceptM, bindM.
  destruct (service_from_token_file svc w) as [[gmail|e] w1]; cbn; [reflexivity|].
  rewrite orb_false_r. destruct (isinstance e Exception); reflexivity.
Qed.

Lemma load_and_authenticate_missing (svc : services) (w : world) :
  lookup_file TOKEN_JSON_FILE (files w) = None ->
  load_and_authenticate svc w = (Return None, w) /\
  authenticate_gmail svc w = (Return false, w).
Proof using.
  intros Hf. unfold load_and_authenticate, authenticate_gmail, try_exceptM, bindM, path_exists.
  rewrite Hf. split; reflexivity.
Qed.

(** X20. The test script and the monitor authenticate alike: on the same
    world and with the same collaborators, [load_and_authenticate] returns a
    service exactly when [authenticate_gmail] returns [True] and stores that
    service, it returns [None] exactly when [authenticate_gmail] returns
    [False], and both leave the same files and the same trace behind. *)
Theorem test_script_authenticates_like_monitor :
  forall (svc : services) (w : world),
    match load_and_authenticate svc w with
    | (Return (Some gmail), w') =>
        authenticate_gmail svc w = (Return true, with_service w' gmail)
    | (Return None, w') => authenticate_gmail svc w = (Return false, w')
    | (Raise e, w') => authenticate_gmail svc w = (Raise e, w')
    end.
Proof using.
  intros svc w.
  destruct (lookup_file TOKEN_JSON_FILE (files w)) as [c|] eqn:Hf.
  - rewrite (load_and_authenticate_unfold svc w c Hf), (authenticate_gmail_unfold svc w c Hf).
    destruct (service_from_token_file svc w) as [[gmail|e] w1]; cbn [authenticated];
      [reflexivity|].
    destruct (isinstance e Exception); reflexivity.
  - destruct (load_and_authenticate_missing svc w Hf) as [-> ->]. reflexivity.
Qed.

Lemma dispatch_to_false (e : exn) (w : world) :
  isinstance e Exception = true ->
  dispatchM e [ ([HttpError], fun _ => ret false); ([Exception], fun _ => ret false) ] w
  = (Return false, w).
Proof using.
  intros He. cbn [dispatchM existsb]. rewrite He, !orb_false_r.
  destruct (isinstance e HttpError); reflexivity.
Qed.

Lemma recipient_str_benign (config : json) : benign (TestGmail.recipient_str config).
Proof using.
  unfold TestGmail.recipient_str. apply benign_bind; [apply subscript_benign|]. intros v.
  destruct v; try apply benign_return.
  apply benign_bind; [apply strings_of_benign|]. intros l. apply benign_return.
Qed.

Lemma header_value_benign (v : json) : benign (TestGmail.header_value v).
Proof using.
  destruct v; try apply benign_return; apply benign_raise; reflexivity.
Qed.

(** What a call of [send_test_email] comes to. *)
Lemma send_test_email_outcome (svc : services) (now : datetime) (gmail : service)
    (config : json) (w : world) :
  well_behaved svc ->
  let r := TestGmail.send_test_email test_body svc now gmail config w in
  files (snd r) = files w /\ self (snd r) = self w /\
  ((fst r = Return false /\ trace (snd r) = trace w) \/
   exists msg,
     trace (snd r) = trace w ++ [MessageSubmitted gmail msg] /\
     msg_subject msg = TestGmail.TEST_SUBJECT /\
     ((fst r = Return true /\ exists fields, execute svc gmail msg = Return (JObj fields)) \/
      (fst r = Return false /\
       forall fields, execute svc gmail msg <> Return (JObj fields)))).
Proof using.
  intros (_ & _ & Hx). cbv zeta.
  unfold TestGmail.send_test_email, try_exceptM, bindM, lift, emit, ret.
  pose proof (recipient_str_benign config) as Hb1.
  destruct (TestGmail.recipient_str config) as [recipients|e1].
  2:{ rewrite dispatch_to_false by (apply Hb1; reflexivity). cbn. auto. }
  pose proof (subscript_benign config "sender_email") as Hb2.
  destruct (Config.subscript config "sender_email") as [sender|e2].
  2:{ rewrite dispatch_to_false by (apply Hb2; reflexivity). cbn. auto. }
  pose proof (header_value_benign recipients) as Hb3.
  destruct (TestGmail.header_value recipients) as [to|e3].
  2:{ rewrite dispatch_to_false by (apply Hb3; reflexivity). cbn. auto. }
  pose proof (header_value_benign sender) as Hb4.
  destruct (TestGmail.header_value sender) as [from|e4].
  2:{ rewrite dispatch_to_false by (apply Hb4; reflexivity). cbn. auto. }
  cbn [files unwritable trace self].
  match goal with
  | |- context [execute svc gmail ?m] => set (msg := m); specialize (Hx gmail msg)
  end.
  destruct (execute svc gmail msg) as [send_message|e5] eqn:Hex.
  2:{ rewrite dispatch_to_false by (apply Hx; reflexivity). cbn [fst snd files self trace].
      split; [reflexivity|]. split; [reflexivity|]. right. exists msg.
      split; [reflexivity|]. split; [reflexivity|]. right. split; [reflexivity|].
      intros fields; congruence. }
  destruct send_message; cbn [as_dict];
    try (rewrite dispatch_to_false by reflexivity; cbn [fst snd files self trace];
         split; [reflexivity|]; split; [reflexivity|]; right; exists msg;
         split; [reflexivity|]; split; [reflexivity|]; right; split; [reflexivity|];
         intros fields; congruence).
  cbn [fst snd files self trace]. split; [reflexivity|]. split; [reflexivity|].
  right. exists msg. split; [reflexivity|]. split; [reflexivity|]. left.
  split; [reflexivity|]. eexists; exact Hex.
Qed.


Lemma print_run (line : string) (w : world) :
  print line w = (Return tt, add_events w [Printed line]).
Proof using. reflexivity. Qed.

Lemma print_then {A : Type} (line : string) (k : M A) (w : world) :
  bindM (print line) (fun _ => k) w = k (add_events w [Printed line]).
Proof using. reflexivity. Qed.

Lemma add_events_twice (w : world) (a b : list event) :
  add_events (add_events w a) b = add_events w (a ++ b).
Proof using. unfold add_events. cbn [files unwritable trace self]. rewrite app_assoc. reflexivity. Qed.

Lemma banner_run (w : world) :
  TestGmail.banner w = (Return tt, add_events w (events_of TestGmail.banner)).
Proof using.
  assert (E : events_of TestGmail.banner
              = ltac:(let v := eval vm_compute in (events_of TestGmail.banner) in exact v))
    by (vm_compute; reflexivity).
  rewrite E. unfold TestGmail.banner.
  rewrite !print_then, print_run, !add_events_twice. reflexivity.
Qed.

Lemma verdict_run (success : bool) (w : world) :
  TestGmail.verdict success w
  = (Return tt, add_events w (events_of (TestGmail.verdict success))).
Proof using.
  destruct success.
  - assert (E : events_of (TestGmail.verdict true)
                = ltac:(let v := eval vm_compute in (events_of (TestGmail.verdict true)) in
                        exact v))
      by (vm_compute; reflexivity).
    rewrite E. unfold TestGmail.verdict.
    rewrite !print_then. unfold bindM at 1.
    rewrite !print_then, print_run, print_run, !add_events_twice. reflexivity.
  - assert (E : events_of (TestGmail.verdict false)
                = ltac:(let v := eval vm_compute in (events_of (TestGmail.verdict false)) in
                        exact v))
      by (vm_compute; reflexivity).
    rewrite E. unfold TestGmail.verdict.
    rewrite !print_then. unfold bindM at 1.
    rewrite !print_then, print_run, print_run, !add_events_twice. reflexivity.
Qed.

Lemma shown_config_outcome (w : world) :
  (exists config, TestGmail.shown_config w = (Return config, w)) \/
  TestGmail.shown_config w = (Raise (mk_exn SystemExit "1"), w) \/
  TestGmail.shown_config w
  = (Raise (mk_exn SystemExit "1"),
     add_events w [Printed ("❌ Error: Config file not found " ++ TestGmail.CONFIG_FILE)]).
Proof using.
  unfold TestGmail.shown_config, TestGmail.load_config, try_exceptM, bindM, path_exists,
    json_load, lift, print, emit, sys_exit, raise, ret.
  destruct (lookup_file TestGmail.CONFIG_FILE (files w)) as [[config|s]|] eqn:Hf;
    cbn [negb]; rewrite ?Hf.
  - pose proof (subscript_benign config "sender_email") as Hb1.
    destruct (Config.subscript config "sender_email") as [sender|e1].
    2:{ right; left. cbn [dispatchM existsb]. rewrite (Hb1 e1 eq_refl). reflexivity. }
    pose proof (recipient_str_benign config) as Hb2.
    destruct (TestGmail.recipient_str config) as [r|e2].
    2:{ right; left. cbn [dispatchM existsb]. rewrite (Hb2 e2 eq_refl). reflexivity. }
    left. exists config. reflexivity.
  - right; left. reflexivity.
  - right; right. reflexivity.
Qed.

Lemma load_and_authenticate_outcome (svc : services) (w : world) :
  well_behaved svc ->
  exists (o : option service) (w' : world) (evs : list event),
    load_and_authenticate svc w = (Return o, w') /\
    trace w' = trace w ++ evs /\ Forall authenticating evs.
Proof using.
  intros Hw. destruct (lookup_file TOKEN_JSON_FILE (files w)) as [c|] eqn:Hf.
  - rewrite (load_and_authenticate_unfold svc w c Hf).
    pose proof (service_from_token_file_benign svc Hw w) as Hb.
    destruct (service_from_token_file svc w) as [o w1] eqn:Hrun.
    destruct (service_from_token_file_shape svc w w1 o Hrun) as (_ & evs & Hp & Ht).
    assert (Hpa : Forall authenticating evs)
      by (eapply Forall_impl; [|exact Hp]; intros ev; destruct ev; cbn; auto).
    cbn [fst] in Hb. destruct o as [gmail|e].
    + exists (Some gmail), w1, (evs ++ [ServiceBuilt (service_credentials gmail)]).
      split; [reflexivity|]. split; [exact Ht|].
      apply Forall_app. split; [exact Hpa|repeat constructor].
    + rewrite (Hb e eq_refl). exists None, w1, evs. auto.
  - destruct (load_and_authenticate_missing svc w Hf) as [-> _].
    exists None, w, []. rewrite app_nil_r. auto.
Qed.


Lemma banner_events :
  ~ In PASSED (events_of TestGmail.banner) /\ ~ In FAILED (events_of TestGmail.banner) /\
  filter is_submission (events_of TestGmail.banner) = [].
Proof using.
  split; [|split]; [| |reflexivity];
    vm_compute; intros H;
    repeat (destruct H as [H|H]; [discriminate H|]); exact H.
Qed.

Lemma verdict_events (success : bool) :
  In (if success then PASSED else FAILED) (events_of (TestGmail.verdict success)) /\
  ~ In (if success then FAILED else PASSED) (events_of (TestGmail.verdict success)) /\
  filter is_submission (events_of (TestGmail.verdict success)) = [].
Proof using.
  destruct success.
  - split; [vm_compute; tauto|]. split; [|reflexivity].
    vm_compute; intros H; repeat (destruct H as [H|H]; [discriminate H|]); exact H.
  - split; [vm_compute; tauto|]. split; [|reflexivity].
    vm_compute; intros H; repeat (destruct H as [H|H]; [discriminate H|]); exact H.
Qed.

Lemma authenticating_not_printed (evs : list event) (line : string) :
  Forall authenticating evs -> ~ In (Printed line) evs.
Proof using.
  intros Hp Hin. rewrite Forall_forall in Hp. exact (Hp _ Hin).
Qed.

Lemma authenticating_not_submitted (evs : list event) (gmail : service) (msg : message) :
  Forall authenticating evs -> ~ In (MessageSubmitted gmail msg) evs.
Proof using.
  intros Hp Hin. rewrite Forall_forall in Hp. exact (Hp _ Hin).
Qed.


Lemma test_main_unfold (svc : services) (now : datetime) (w : world) :
  TestGmail.main test_body svc now w =
    match TestGmail.shown_config (add_events w (events_of TestGmail.banner)) with
    | (Raise e, w') => (Raise e, w')
    | (Return config, w') =>
        match load_and_authenticate svc (add_events w' [Printed ""]) with
        | (Raise e, w3) => (Raise e, w3)
        | (Return None, w3) => (Raise (mk_exn SystemExit "1"), w3)
        | (Return (Some gmail), w3) =>
            match TestGmail.send_test_email test_body svc now gmail config
                    (add_events w3 [Printed ""]) with
            | (Raise e, w5) => (Raise e, w5)
            | (Return ok, w5) =>
                (Return tt, add_events w5 (events_of (TestGmail.verdict ok)))
            end
        end
    end.
Proof using.
  unfold TestGmail.main. unfold bindM at 1. rewrite banner_run.
  unfold bindM at 1.
  destruct (TestGmail.shown_config _) as [[config|e] w']; [|reflexivity].
  unfold bindM at 1. unfold print at 1, emit at 1. fold (add_events w' [Printed ""]).
  unfold bindM at 1.
  destruct (load_and_authenticate svc _) as [[[gmail|]|e] w3]; [|reflexivity|reflexivity].
  unfold bindM at 1. unfold print at 1, emit at 1. fold (add_events w3 [Printed ""]).
  unfold bindM at 1.
  destruct (TestGmail.send_test_email _ _ _ _ _ _) as [[ok|e] w5]; [|reflexivity].
  apply verdict_run.
Qed.

(** X21. A run of the test script never ends in a crash: the process ends
    with status 1 when the configuration cannot be read or shown or when no
    service could be built, and then nothing is sent; otherwise it ends with
    status 0, also when the test mail could not be sent. It submits at most
    one message. It prints the line of success only after submitting the
    test mail and getting an object back from the API, and the line of
    failure otherwise. *)
Theorem test_run_verdict :
  forall (svc : services) (now : datetime) (w : world),
    well_behaved svc ->
    let r := TestGmail.main test_body svc now w in
    exists evs,
      trace (snd r) = trace w ++ evs /\
      (List.length (filter is_submission evs) <= 1)%nat /\
      ((fst r = Raise (mk_exn SystemExit "1") /\ exit_status (fst r) = 1 /\
        filter is_submission evs = [] /\ ~ In PASSED evs /\ ~ In FAILED evs) \/
       (fst r = Return tt /\ exit_status (fst r) = 0 /\
        In FAILED evs /\ ~ In PASSED evs /\
        forall gmail msg fields,
          In (MessageSubmitted gmail msg) evs ->
          execute svc gmail msg <> Return (JObj fields)) \/
       (fst r = Return tt /\ exit_status (fst r) = 0 /\
        In PASSED evs /\ ~ In FAILED evs /\
        exists gmail msg fields,
          In (MessageSubmitted gmail msg) evs /\
          msg_subject msg = TestGmail.TEST_SUBJECT /\
          execute svc gmail msg = Return (JObj fields))).
Proof using.
  intros svc now w Hw. cbv zeta. rewrite test_main_unfold.
  destruct banner_events as (Hbp & Hbf & Hbs).
  remember (events_of TestGmail.banner) as B eqn:HB. clear HB.
  assert (Hsubs : forall g m l, In (MessageSubmitted g m) l -> filter is_submission l <> []).
  { intros g m l Hin Hf.
    assert (H : In (MessageSubmitted g m) (filter is_submission l))
      by (apply filter_In; split; [exact Hin|reflexivity]).
    rewrite Hf in H. exact H. }
  destruct (shown_config_outcome (add_events w B)) as [(config & ->) | [-> | ->]].
  2:{ exists B. cbn [fst snd add_events trace]. split; [reflexivity|].
      split; [rewrite Hbs; cbn; lia|]. left. auto. }
  2:{ exists (B ++ [Printed ("❌ Error: Config file not found " ++ TestGmail.CONFIG_FILE)]).
      cbn [fst snd add_events trace]. rewrite <- app_assoc. split; [reflexivity|].
      rewrite filter_app, Hbs. cbn [app filter is_submission List.length].
      split; [lia|]. left. split; [reflexivity|]. split; [reflexivity|].
      split; [reflexivity|].
      split; intros Hin; apply in_app_or in Hin as [Hin|[Hin|[]]];
        first [tauto | discriminate Hin]. }
  destruct (load_and_authenticate_outcome svc (add_events (add_events w B) [Printed ""]) Hw)
    as (o & w3 & evs & -> & Htr & Hp).
  cbn [add_events trace] in Htr.
  destruct (authenticating_counts evs Hp) as [_ Hes].
  pose proof (fun line => authenticating_not_printed evs line Hp) as Hep.
  pose proof (fun g m => authenticating_not_submitted evs g m Hp) as Hem.
  destruct o as [gmail|].
  2:{ exists (B ++ [Printed ""] ++ evs). cbn [fst snd].
      split; [rewrite Htr, <- !app_assoc; reflexivity|].
      rewrite !filter_app, Hbs, Hes. cbn [app filter is_submission List.length].
      split; [lia|]. left. split; [reflexivity|]. split; [reflexivity|].
      split; [reflexivity|].
      split; intros Hin; apply in_app_or in Hin as [Hin|[Hin|Hin]];
        first [tauto | discriminate Hin | exact (Hep _ Hin)]. }
  pose proof (send_test_email_outcome svc now gmail config (add_events w3 [Printed ""]) Hw)
    as (_ & _ & Hsend).
  cbv zeta in Hsend.
  destruct (TestGmail.send_test_email test_body svc now gmail config
              (add_events w3 [Printed ""])) as [os w5].
  cbn [fst snd add_events trace] in Hsend.
  destruct Hsend as [[-> Ht5] | (msg & Ht5 & Hsub & [[-> (fields & Hex)] | [-> Hno]])].
  - destruct (verdict_events false) as (Hin & Hnin & Hvs).
    cbn iota in Hin, Hnin.
    remember (events_of (TestGmail.verdict false)) as V eqn:HV. clear HV.
    exists (B ++ [Printed ""] ++ evs ++ [Printed ""] ++ V).
    cbn [fst snd add_events trace].
    split; [rewrite Ht5, Htr, <- !app_assoc; reflexivity|].
    rewrite !filter_app, Hbs, Hes, Hvs. cbn [app filter is_submission List.length].
    split; [lia|]. right; left. split; [reflexivity|]. split; [reflexivity|].
    split; [apply in_or_app; right; right; apply in_or_app; right; right; exact Hin|].
    split.
    + intros H. apply in_app_or in H as [H|[H|H]]; [tauto|discriminate H|].
      apply in_app_or in H as [H|[H|H]]; [exact (Hep _ H)|discriminate H|tauto].
    + intros g m f H. exfalso.
      apply in_app_or in H as [H|[H|H]]; [exact (Hsubs _ _ _ H Hbs)|discriminate H|].
      apply in_app_or in H as [H|[H|H]];
        [exact (Hem _ _ H)|discriminate H|exact (Hsubs _ _ _ H Hvs)].
  - destruct (verdict_events true) as (Hin & Hnin & Hvs).
    cbn iota in Hin, Hnin.
    remember (events_of (TestGmail.verdict true)) as V eqn:HV. clear HV.
    exists (B ++ [Printed ""] ++ evs ++ [Printed ""] ++ [MessageSubmitted gmail msg] ++ V).
    cbn [fst snd add_events trace].
    split; [rewrite Ht5, Htr, <- !app_assoc; reflexivity|].
    rewrite !filter_app, Hbs, Hes, Hvs. cbn [app filter is_submission List.length].
    split; [lia|]. right; right. split; [reflexivity|]. split; [reflexivity|].
    split; [apply in_or_app; right; right; apply in_or_app; right; right; right; exact Hin|].
    split.
    + intros H. apply in_app_or in H as [H|[H|H]]; [tauto|discriminate H|].
      apply in_app_or in H as [H|[H|[H|H]]];
        [exact (Hep _ H)|discriminate H|discriminate H|tauto].
    + exists gmail, msg, fields. split; [|split; [exact Hsub|exact Hex]].
      apply in_or_app; right; right; apply in_or_app; right; right; left; reflexivity.
  - destruct (verdict_events false) as (Hin & Hnin & Hvs).
    cbn iota in Hin, Hnin.
    remember (events_of (TestGmail.verdict false)) as V eqn:HV. clear HV.
    exists (B ++ [Printed ""] ++ evs ++ [Printed ""] ++ [MessageSubmitted gmail msg] ++ V).
    cbn [fst snd add_events trace].
    split; [rewrite Ht5, Htr, <- !app_assoc; reflexivity|].
    rewrite !filter_app, Hbs, Hes, Hvs. cbn [app filter is_submission List.length].
    split; [lia|]. right; left. split; [reflexivity|]. split; [reflexivity|].
    split; [apply in_or_app; right; right; apply in_or_app; right; right; right; exact Hin|].
    split.
    + intros H. apply in_app_or in H as [H|[H|H]]; [tauto|discriminate H|].
      apply in_app_or in H as [H|[H|[H|H]]];
        [exact (Hep _ H)|discriminate H|discriminate H|tauto].
    + intros g m f H.
      apply in_app_or in H as [H|[H|H]];
        [exfalso; exact (Hsubs _ _ _ H Hbs)|discriminate H|].
      apply in_app_or in H as [H|[H|[H|H]]];
        [exfalso; exact (Hem _ _ H)|discriminate H| |exfalso; exact (Hsubs _ _ _ H Hvs)].
      injection H as <- <-. apply Hno.
Qed.



End TestScriptFacts.

(** ** The properties on concrete runs *)

Lemma working_services_well_behaved : well_behaved working_services.
Proof. repeat split; intros; intros e H; discriminate H. Qed.

Lemma refusing_services_well_behaved : well_behaved refusing_services.
Proof.
  repeat split; intros; intros e H; try discriminate H.
  injection H as <-. reflexivity.
Qed.

Lemma site_down_orderly (hour : Z) : orderly (site_down hour).
Proof.
  split; [exact working_services_well_behaved|].
  intros e H. injection H as <-. reflexivity.
Qed.


Lemma authenticate_gmail_reports_the_service_witness :
  let w := world_with_token (Py.JStr "2024-06-01T12:00:00Z") in
  World.config (World.self (snd (Notifier.authenticate_gmail working_services w)))
  = World.config (World.self w).
Proof.
  exact (proj1 (authenticate_gmail_reports_the_service working_services
                  (world_with_token (Py.JStr "2024-06-01T12:00:00Z"))
                  working_services_well_behaved)).
Defined.


Lemma failed_refresh_leaves_token_file_witness :
  let stored := Py.JStr "2024-06-01T12:00:00Z" in
  let w := world_with_token stored in
  Credential.is_valid (Notifier.lib refusing_services) (loaded stored) = Py.Return false /\
  Notifier.authenticate_gmail refusing_services w
  = (Py.Return false, add_events w [World.RefreshRequested (loaded stored)]).
Proof.
  split; [vm_compute; reflexivity|].
  refine (failed_refresh_leaves_token_file refusing_services
            (world_with_token (Py.JStr "2024-06-01T12:00:00Z"))
            (token_file_with (Py.JStr "2024-06-01T12:00:00Z"))
            (loaded (Py.JStr "2024-06-01T12:00:00Z"))
            (Py.mk_exn Py.RefreshError "invalid_grant: Token has been expired or revoked.")
            eq_refl _ _ eq_refl eq_refl).
  - vm_compute; reflexivity.
  - vm_compute; reflexivity.
Defined.


Lemma send_email_never_raises_witness :
  let w := monitoring_world ops_config None in
  World.counters (World.self (snd (Notifier.send_email working_services "Site down"
                                     "No answer" w)))
  = World.counters (World.self w).
Proof.
  exact (proj1 (proj2 (send_email_never_raises working_services "Site down" "No answer"
                         (monitoring_world ops_config None)
                         working_services_well_behaved))).
Defined.





Lemma non_numeric_threshold_fails_at_first_failure_witness :
  let members := ops_config_with "max_consecutive_failures" (Py.JStr "3") in
  let w := monitoring_world members (Some stored_service) in
  exists e,
    Monitor.int_ge 0 (Py.dict_get "max_consecutive_failures" (Py.JInt 2) members)
    = Py.Raise e /\
    Py.exn_class e = Py.TypeError /\
    fst (Monitor.run_check str_of_plain_json plain_alert_body (site_down 9) w) = Py.Raise e.
Proof.
  eexists. split; [reflexivity|].
  refine ((fun H => conj (proj1 H) (f_equal fst (proj2 (proj2 H) eq_refl)))
            (non_numeric_threshold_fails_at_first_failure str_of_plain_json
               plain_alert_body (site_down 9)
               (monitoring_world
                  (ops_config_with "max_consecutive_failures" (Py.JStr "3"))
                  (Some stored_service))
               _ eq_refl (site_down_orderly 9))).
Defined.

Lemma fix_token_timezone_is_idempotent_witness :
  let w := world_with_token (Py.JStr "2025-01-01T05:30:00+05:30") in
  let w1 := snd (Notifier.fix_token_timezone w) in
  Notifier.fix_token_timezone w = (Py.Return true, w1) /\
  World.lookup_file Notifier.TOKEN_JSON_FILE (World.files w1)
  = Some (World.Json (Py.JObj (token_file_with (Py.JStr "2025-01-01T00:00:00Z")))) /\
  exists w2, Notifier.fix_token_timezone w1 = (Py.Return true, w2).
Proof.
  split; [vm_compute; reflexivity|]. split; [vm_compute; reflexivity|].
  destruct (fix_token_timezone_is_idempotent
              (world_with_token (Py.JStr "2025-01-01T05:30:00+05:30"))
              (snd (Notifier.fix_token_timezone
                      (world_with_token (Py.JStr "2025-01-01T05:30:00+05:30")))))
    as (w2 & H & _).
  - vm_compute; reflexivity.
  - exists w2. exact H.
Defined.

Lemma fix_token_timezone_keeps_the_loaded_credential_witness :
  let w := world_with_token (Py.JStr "2025-01-01T05:30:00+05:30") in
  let w1 := snd (Notifier.fix_token_timezone w) in
  Notifier.fix_token_timezone w = (Py.Return true, w1) /\
  exists token_data fixed,
    World.lookup_file Notifier.TOKEN_JSON_FILE (World.files w1)
    = Some (World.Json (Py.JObj fixed)) /\
    Credential.with_stored_expiry fixed (Credential.from_token_data fixed)
    = Credential.with_stored_expiry token_data (Credential.from_token_data token_data).
Proof.
  split; [vm_compute; reflexivity|].
  destruct (fix_token_timezone_keeps_the_loaded_credential
              (world_with_token (Py.JStr "2025-01-01T05:30:00+05:30"))
              (snd (Notifier.fix_token_timezone
                      (world_with_token (Py.JStr "2025-01-01T05:30:00+05:30")))))
    as (token_data & fixed & _ & H1 & _ & H2).
  - vm_compute; reflexivity.
  - exists token_data, fixed. split; [exact H1|exact H2].
Defined.

Lemma test_run_verdict_witness :
  let w := Monitor.fresh_world [config_file ops_config; token_file] in
  exists evs,
    World.trace (snd (TestGmail.main plain_test_body working_services
                        (at_time 2025 1 1 9 0 0 None) w))
    = (World.trace w ++ evs)%list /\
    (List.length (filter is_submission evs) <= 1)%nat.
Proof.
  destruct (test_run_verdict plain_test_body working_services (at_time 2025 1 1 9 0 0 None)
              (Monitor.fresh_world [config_file ops_config; token_file])
              working_services_well_behaved) as (evs & H1 & H2 & _).
  exists evs. split; [exact H1|exact H2].
Defined.

Lemma refreshed_credential_loads_back_witness :
  let creds := refreshed (loaded (Py.JStr "2024-06-01T12:00:00Z")) in
  Credential.save_expiry (Credential.expiry creds)
  = Py.Return (Py.JStr "2025-01-01T01:00:00Z") /\
  loaded_from (Credential.token_document creds (Py.JStr "2025-01-01T01:00:00Z"))
  = Py.Return (Credential.set_expiry creds (in_utc (Credential.expiry creds))).
Proof.
  split; [vm_compute; reflexivity|].
  refine (proj1 (refreshed_credential_loads_back
                   (refreshed (loaded (Py.JStr "2024-06-01T12:00:00Z")))
                   (Py.JStr "2025-01-01T01:00:00Z") _ _)).
  - vm_compute; reflexivity.
  - vm_compute; reflexivity.
Defined.

